(** * The [tailscale update] command: a shallow embedding and its properties

    The development follows [cmd/tailscale/cli/update.go].  Go strings and
    byte slices are both lists of bytes ([ascii]); the machine [int] is a
    [Z] with its range written out; functions that touch the operating
    system are written in a state-and-error monad over an explicit world.
    Text printed to the terminal or the log is not kept.

    The first part is the model, function by function; the second part
    holds the properties. *)

From Stdlib Require Import Ascii String ZArith Bool Lia Arith List.
Import ListNotations.

Open Scope char_scope.
Open Scope list_scope.

(** ** Bytes and the pieces of Go's [strings]/[bytes] packages in use *)

Definition bytes := list ascii.

(** A string literal as a byte slice. *)
Definition b (s : string) : bytes := list_ascii_of_string s.

Definition nl : ascii := "010".   (* '\n' *)
Definition cr : ascii := "013".   (* '\r' *)
Definition tab : ascii := "009".  (* '\t' *)
Definition vt : ascii := "011".   (* '\v' *)
Definition ff : ascii := "012".   (* '\f' *)

Fixpoint beq (x y : bytes) : bool :=
  match x, y with
  | [], [] => true
  | c :: x', d :: y' => Ascii.eqb c d && beq x' y'
  | _, _ => false
  end.

(** [len] of a slice, as a Go [int]. *)
Definition len (s : bytes) : Z := Z.of_nat (length s).

(** [strings.HasPrefix] / [bytes.HasPrefix]. *)
Fixpoint HasPrefix (s prefix : bytes) {struct prefix} : bool :=
  match prefix, s with
  | [], _ => true
  | p :: prefix', c :: s' => Ascii.eqb c p && HasPrefix s' prefix'
  | _ :: _, [] => false
  end.

(** [strings.Cut]: the text before and after the first instance of [sep],
    and whether [sep] was found; [(s, "", false)] when it was not. *)
Fixpoint Cut (s sep : bytes) : bytes * bytes * bool :=
  if HasPrefix s sep then ([], skipn (length sep) s, true)
  else match s with
       | [] => ([], [], false)
       | c :: s' =>
           let '(before, after, found) := Cut s' sep in
           if found then (c :: before, after, true) else (s, [], false)
       end.

(** [strings.Split(s, ".")]: the dot-separated components of [s]. *)
Fixpoint splitDots (s : bytes) : list bytes :=
  match s with
  | [] => [[]]
  | c :: s' =>
      if Ascii.eqb c "." then [] :: splitDots s'
      else match splitDots s' with
           | f :: fs => (c :: f) :: fs
           | [] => [[c]]
           end
  end.

(** ** Version strings and their track ([versionIsStable]) *)

Section WithIntSize.

(** [strconv.IntSize]: the width of Go's [int] on the build target. *)
Variable intSize : Z.

Definition isDigit (c : ascii) : bool :=
  (48 <=? nat_of_ascii c)%nat && (nat_of_ascii c <=? 57)%nat.

Definition digitVal (c : ascii) : Z := Z.of_nat (nat_of_ascii c) - 48.

(** The value of a run of decimal digits, [None] on any other byte. *)
Fixpoint parseDigits (acc : Z) (s : bytes) : option Z :=
  match s with
  | [] => Some acc
  | c :: s' => if isDigit c then parseDigits (acc * 10 + digitVal c) s' else None
  end.

(** [strconv.Atoi]: an optional sign, then at least one decimal digit and
    nothing else; the value has to fit the machine [int].  [None] stands
    for a non-nil error (syntax or range). *)
Definition Atoi (s : bytes) : option Z :=
  let '(neg, ds) :=
    match s with
    | "+" :: r => (false, r)
    | "-" :: r => (true, r)
    | _ => (false, s)
    end in
  match ds with
  | [] => None
  | _ =>
      match parseDigits 0 ds with
      | None => None
      | Some n =>
          let v := if neg then (- n)%Z else n in
          if ((- 2 ^ (intSize - 1) <=? v) && (v <? 2 ^ (intSize - 1)))%Z
          then Some v else None
      end
  end.

(** [func versionIsStable(v string) (stable, wellFormed bool)]. *)
Definition versionIsStable (v : bytes) : bool * bool :=
  let '(_, rest, ok) := Cut v (b ".") in
  if negb ok then (false, false) else
  let '(minorStr, _, ok) := Cut rest (b ".") in
  if negb ok then (false, false) else
  match Atoi minorStr with
  | None => (false, false)
  | Some minor => ((Z.rem minor 2 =? 0)%Z, true)
  end.

End WithIntSize.

(** ** Errors

    Go's [error] values, kept structured: a format string with its operands
    rather than the rendered text.  [ErrorfW] is [fmt.Errorf] with one [%w]
    verb, whose operand is [wrapped]; [extError] is an error value handed
    back by the operating system, the network stack or a child process. *)

Inductive fmtArg : Type :=
| argS (s : bytes)
| argI (n : Z).

Inductive error : Type :=
| errUserAborted                      (* var errUserAborted = errors.New("aborting update") *)
| ErrHelp                             (* flag.ErrHelp *)
| errorsNew (text : string)
| Errorf (format : string) (args : list fmtArg)
| ErrorfW (format : string) (args : list fmtArg) (wrapped : error)
| extError (text : string).

(** A Go result pair [(x, err)]: [Ok x] when [err == nil]. *)
Inductive result (A : Type) : Type :=
| Ok (x : A)
| Err (e : error).
Arguments Ok {A} x.
Arguments Err {A} e.

(** [errors.Is(err, errUserAborted)]: the sentinel is somewhere on the
    chain of wrapped errors. *)
Fixpoint isUserAborted (err : error) : bool :=
  match err with
  | errUserAborted => true
  | ErrorfW _ _ wrapped => isUserAborted wrapped
  | _ => false
  end.

(** ** Release tracks *)

Inductive Track : Type := stable | unstable.

Definition trackName (t : Track) : bytes :=
  match t with
  | stable => b "stable"
  | unstable => b "unstable"
  end.

(** ** [bufio.Scanner] with its default split function [bufio.ScanLines] *)

(** [bufio.MaxScanTokenSize]. *)
Definition MaxScanTokenSize : Z := 64 * 1024.

(** The text between line feeds; a last line without line feed counts, an
    empty remainder after the last line feed does not. *)
Fixpoint rawLines (data : bytes) : list bytes :=
  match data with
  | [] => []
  | c :: data' =>
      if Ascii.eqb c nl then [] :: rawLines data'
      else match rawLines data' with
           | [] => [[c]]
           | l :: ls => (c :: l) :: ls
           end
  end.

(** [dropCR]: one carriage return at the end of a line is not part of it. *)
Fixpoint dropCR (data : bytes) : bytes :=
  match data with
  | [] => []
  | [c] => if Ascii.eqb c cr then [] else [c]
  | c :: data' => c :: dropCR data'
  end.

(** The tokens successive calls of [Scan] deliver.  A line has to fit the
    scanner's buffer, which grows to [MaxScanTokenSize] and holds the line up
    to its line feed (or up to the byte that would tell the end of input);
    at the first line that does not, [Scan] returns false for good
    ([bufio.ErrTooLong], which neither caller looks at). *)
Fixpoint scanTokens (lines : list bytes) : list bytes :=
  match lines with
  | [] => []
  | l :: lines' =>
      if (len l <? MaxScanTokenSize)%Z then dropCR l :: scanTokens lines' else []
  end.

Definition scanLines (data : bytes) : list bytes := scanTokens (rawLines data).

(** ** [bytes.TrimSpace] *)

Definition asciiSpace (c : ascii) : bool :=
  Ascii.eqb c tab || Ascii.eqb c nl || Ascii.eqb c vt || Ascii.eqb c ff
  || Ascii.eqb c cr || Ascii.eqb c " ".

(** The UTF-8 encodings of the code points outside ASCII that
    [unicode.IsSpace] accepts: U+0085, U+00A0 (two bytes) and U+1680,
    U+2000..U+200A, U+2028, U+2029, U+202F, U+205F, U+3000 (three). *)
Definition isSpace2 (c1 c2 : ascii) : bool :=
  Ascii.eqb c1 "194" && (Ascii.eqb c2 "133" || Ascii.eqb c2 "160").

Definition isSpace3 (c1 c2 c3 : ascii) : bool :=
  (Ascii.eqb c1 "225" && Ascii.eqb c2 "154" && Ascii.eqb c3 "128")
  || (Ascii.eqb c1 "226" && Ascii.eqb c2 "128"
      && (((128 <=? nat_of_ascii c3) && (nat_of_ascii c3 <=? 138))%nat
          || Ascii.eqb c3 "168" || Ascii.eqb c3 "169" || Ascii.eqb c3 "175"))
  || (Ascii.eqb c1 "226" && Ascii.eqb c2 "129" && Ascii.eqb c3 "159")
  || (Ascii.eqb c1 "227" && Ascii.eqb c2 "128" && Ascii.eqb c3 "128").

Fixpoint trimLeftSpace (s : bytes) : bytes :=
  match s with
  | [] => []
  | c1 :: s1 =>
      if asciiSpace c1 then trimLeftSpace s1 else
      match s1 with
      | [] => s
      | c2 :: s2 =>
          if isSpace2 c1 c2 then trimLeftSpace s2 else
          match s2 with
          | [] => s
          | c3 :: s3 => if isSpace3 c1 c2 c3 then trimLeftSpace s3 else s
          end
      end
  end.

(** The same from the end, on the reversed slice (the last rune is found by
    stepping back to its first byte). *)
Fixpoint trimLeftSpaceRev (r : bytes) : bytes :=
  match r with
  | [] => []
  | c1 :: r1 =>
      if asciiSpace c1 then trimLeftSpaceRev r1 else
      match r1 with
      | [] => r
      | c2 :: r2 =>
          if isSpace2 c2 c1 then trimLeftSpaceRev r2 else
          match r2 with
          | [] => r
          | c3 :: r3 => if isSpace3 c3 c2 c1 then trimLeftSpaceRev r3 else r
          end
      end
  end.

Definition TrimSpace (s : bytes) : bytes :=
  rev' (trimLeftSpaceRev (rev' (trimLeftSpace s))).

(** ** The regular expressions of the two source-file rewriters *)

(** [\s] of Go's [regexp]: tab, line feed, form feed, carriage return, space. *)
Definition reSpace (c : ascii) : bool :=
  Ascii.eqb c tab || Ascii.eqb c nl || Ascii.eqb c ff || Ascii.eqb c cr
  || Ascii.eqb c " ".

(** [\w]: an ASCII letter, digit or underscore. *)
Definition isWordChar (c : ascii) : bool :=
  let n := nat_of_ascii c in
  ((48 <=? n) && (n <=? 57) || (65 <=? n) && (n <=? 90)
   || (97 <=? n) && (n <=? 122) || (n =? 95))%nat.

Definition isWord (c : option ascii) : bool :=
  match c with
  | Some c => isWordChar c
  | None => false
  end.

(** [\b] between the byte [before] and the byte [after] ([None] at either
    end of the text). *)
Definition wordBoundary (before after : option ascii) : bool :=
  xorb (isWord before) (isWord after).

(** A regular expression that never matches the empty string, as the
    search at one position: [re before s] is the match starting at the
    first byte of [s], when the text goes on as [s] after the byte
    [before]. *)
Definition Regexp := option ascii -> bytes -> option bytes.

(** [commentLine = regexp.MustCompile(`^\s*\#`)], as [commentLine.Match]. *)
Fixpoint commentLine_Match (line : bytes) : bool :=
  match line with
  | [] => false
  | c :: line' =>
      if Ascii.eqb c "#" then true
      else if reSpace c then commentLine_Match line'
      else false
  end.

(** [pkgsURL = regexp.MustCompile(`\bhttps://pkgs\.tailscale\.com/((un)?stable)/`)]. *)
Definition pkgsURL : Regexp := fun before s =>
  if wordBoundary before (hd_error s) then
    if HasPrefix s (b "https://pkgs.tailscale.com/unstable/")
    then Some (b "https://pkgs.tailscale.com/unstable/")
    else if HasPrefix s (b "https://pkgs.tailscale.com/stable/")
    then Some (b "https://pkgs.tailscale.com/stable/")
    else None
  else None.

(** [re.ReplaceAllFunc(src, repl)]: the matches are found from left to
    right without overlap, each is handed to [repl], whose result takes its
    place.  [repl] is a closure over the caller's variables, here a state
    of type [St] that it reads and updates.  [skip] counts the bytes of
    the current match still to pass over. *)
Fixpoint replaceAllFrom {St : Type} (re : Regexp)
    (repl : bytes -> St -> bytes * St)
    (before : option ascii) (skip : nat) (src : bytes) (st : St)
    : bytes * St :=
  match src with
  | [] => ([], st)
  | c :: rest =>
      match skip with
      | S k => replaceAllFrom re repl (Some c) k rest st
      | O =>
          match re before src with
          | Some m =>
              let (r, st1) := repl m st in
              let (out, st2) := replaceAllFrom re repl (Some c) (length m - 1) rest st1 in
              (r ++ out, st2)
          | None =>
              let (out, st1) := replaceAllFrom re repl (Some c) 0 rest st in
              (c :: out, st1)
          end
      end
  end.

Definition ReplaceAllFunc {St : Type} (re : Regexp)
    (src : bytes) (repl : bytes -> St -> bytes * St) (st : St) : bytes * St :=
  replaceAllFrom re repl None 0 src st.

(** [re.FindAll(src, -1)], with the same search. *)
Fixpoint findAllFrom (re : Regexp) (before : option ascii) (skip : nat)
    (src : bytes) : list bytes :=
  match src with
  | [] => []
  | c :: rest =>
      match skip with
      | S k => findAllFrom re (Some c) k rest
      | O =>
          match re before src with
          | Some m => m :: findAllFrom re (Some c) (length m - 1) rest
          | None => findAllFrom re (Some c) 0 rest
          end
      end
  end.

Definition FindAll (re : Regexp) (src : bytes) : list bytes :=
  findAllFrom re None 0 src.

(** ** The apt sources list: [updateDebianAptSourcesListBytes] *)

Definition aptSourcesFile : string := "/etc/apt/sources.list.d/tailscale.list".

(** The two variables the replacement closure writes.  [changes] is a Go
    [int]; it counts matches in a slice held in memory, far below the
    range of [int], so it is kept as a plain integer. *)
Record aptVars : Type := mkAptVars { hadCorrect : bool; changes : Z }.

Definition aptRepl (trackURLPrefix : bytes) (m : bytes) (v : aptVars)
    : bytes * aptVars :=
  if beq m trackURLPrefix
  then (trackURLPrefix, mkAptVars true (changes v))
  else (trackURLPrefix, mkAptVars (hadCorrect v) (changes v + 1)).

(** One round of the [for bs.Scan()] loop: the text written to [buf]. *)
Definition aptLine (trackURLPrefix line : bytes) (v : aptVars) : bytes * aptVars :=
  let (line', v') :=
    if negb (commentLine_Match line)
    then ReplaceAllFunc pkgsURL line (aptRepl trackURLPrefix) v
    else (line, v) in
  (line' ++ [nl], v').

Fixpoint aptLoop (trackURLPrefix : bytes) (tokens : list bytes)
    (buf : bytes) (v : aptVars) : bytes * aptVars :=
  match tokens with
  | [] => (buf, v)
  | line :: tokens' =>
      let (out, v') := aptLine trackURLPrefix line v in
      aptLoop trackURLPrefix tokens' (buf ++ out) v'
  end.

Definition updateDebianAptSourcesListBytes (was dstTrack : bytes) : result bytes :=
  let trackURLPrefix := b "https://pkgs.tailscale.com/" ++ dstTrack ++ b "/" in
  let (buf, v) := aptLoop trackURLPrefix (scanLines was) [] (mkAptVars false 0) in
  if hadCorrect v || ((changes v =? 1)%Z && beq (TrimSpace was) (TrimSpace buf)) then
    (* Unchanged or close enough. *)
    Ok was
  else if negb (changes v =? 1)%Z then
    Err (Errorf "unexpected/unsupported %s contents" [argS (b aptSourcesFile)])
  else Ok buf.

(** ** The yum repository file: the rewriting loop of [updateYUMRepoTrack] *)

(** [urlRe = regexp.MustCompile(`^(baseurl|gpgkey)=https://pkgs\.tailscale\.com/(un)?stable/`)]:
    the text of group 1 and the text after the match.  The match can only
    start at the first byte.  [alts] lists what the pattern can match, in
    the order the alternatives are tried. *)
Fixpoint urlRe_try (line : bytes) (alts : list (bytes * bytes)) : option (bytes * bytes) :=
  match alts with
  | [] => None
  | (g, t) :: alts' =>
      let m := g ++ b "=https://pkgs.tailscale.com/" ++ t ++ b "/" in
      if HasPrefix line m then Some (g, skipn (length m) line)
      else urlRe_try line alts'
  end.

Definition urlRe_match (line : bytes) : option (bytes * bytes) :=
  urlRe_try line
    [(b "baseurl", b "unstable"); (b "baseurl", b "stable");
     (b "gpgkey", b "unstable"); (b "gpgkey", b "stable")].

(** [urlRe.ReplaceAllString(line, urlReplacement)] with
    [urlReplacement = fmt.Sprintf("$1=https://pkgs.tailscale.com/%s/", dstTrack)];
    [$1] stands for the text of group 1. *)
Definition urlRe_ReplaceAllString (line : bytes) (dstTrack : Track) : bytes :=
  match urlRe_match line with
  | Some (g1, rest) =>
      g1 ++ b "=https://pkgs.tailscale.com/" ++ trackName dstTrack ++ b "/" ++ rest
  | None => line
  end.

(** One round of the [for s.Scan()] loop: the text written to
    [newContent], or the error the function returns with. *)
Definition yumLine (repoFile : bytes) (dstTrack : Track) (line : bytes) : result bytes :=
  if (0 <? len line)%Z && HasPrefix line (b "[") then
    (* Handle repo section name, like "[tailscale-stable]". *)
    if negb (HasPrefix line (b "[tailscale-")) then
      Err (Errorf "%q does not look like a tailscale repo file, it contains an unexpected %q section"
                  [argS repoFile; argS line])
    else Ok (b "[tailscale-" ++ trackName dstTrack ++ b "]" ++ [nl])
  else if HasPrefix line (b "name=") then
    (* Update the track mentioned in repo name. *)
    Ok (b "name=Tailscale " ++ trackName dstTrack ++ [nl])
  else if HasPrefix line (b "baseurl=") || HasPrefix line (b "gpgkey=") then
    (* Update the actual repo URLs. *)
    Ok (urlRe_ReplaceAllString line dstTrack ++ [nl])
  else Ok (line ++ [nl]).

Fixpoint yumLoop (repoFile : bytes) (dstTrack : Track) (tokens : list bytes)
    (newContent : bytes) : result bytes :=
  match tokens with
  | [] => Ok newContent
  | line :: tokens' =>
      match yumLine repoFile dstTrack line with
      | Err e => Err e
      | Ok out => yumLoop repoFile dstTrack tokens' (newContent ++ out)
      end
  end.

(** The content [updateYUMRepoTrack] computes from the content [was] it
    read: [newContent] after the loop, or the error the loop returns with. *)
Definition yumNewContent (repoFile : bytes) (was : bytes) (dstTrack : Track) : result bytes :=
  yumLoop repoFile dstTrack (scanLines was) [].

(** ** More of the Go library *)

(** [strings.Split(s, sep)] for a one-byte separator. *)
Fixpoint splitByte (sep : ascii) (s : bytes) : list bytes :=
  match s with
  | [] => [[]]
  | c :: s' =>
      if Ascii.eqb c sep then [] :: splitByte sep s'
      else match splitByte sep s' with
           | f :: fs => (c :: f) :: fs
           | [] => [[c]]
           end
  end.

(** [strings.HasSuffix]. *)
Definition HasSuffix (s suffix : bytes) : bool :=
  HasPrefix (rev' s) (rev' suffix).

Definition isASCII (s : bytes) : bool :=
  forallb (fun c => (nat_of_ascii c <? 128)%nat) s.

Definition lowerASCII (c : ascii) : ascii :=
  let n := nat_of_ascii c in
  if ((65 <=? n) && (n <=? 90))%nat then ascii_of_nat (n + 32) else c.

Definition upperASCII (c : ascii) : ascii :=
  let n := nat_of_ascii c in
  if ((97 <=? n) && (n <=? 122))%nat then ascii_of_nat (n - 32) else c.

(** [encoding/hex]: the value of a hexadecimal digit. *)
Definition fromHexChar (c : ascii) : option nat :=
  let n := nat_of_ascii c in
  if ((48 <=? n) && (n <=? 57))%nat then Some (n - 48)%nat
  else if ((97 <=? n) && (n <=? 102))%nat then Some (n - 87)%nat
  else if ((65 <=? n) && (n <=? 70))%nat then Some (n - 55)%nat
  else None.

(** [hex.DecodeString]: two digits a byte; any other byte, or a digit left
    over at the end, is an error. *)
Fixpoint hex_DecodeString (s : bytes) : result bytes :=
  match s with
  | [] => Ok []
  | [c] =>
      match fromHexChar c with
      | None => Err (Errorf "encoding/hex: invalid byte: %#U" [argS [c]])
      | Some _ => Err (errorsNew "encoding/hex: odd length hex string")
      end
  | c1 :: c2 :: s' =>
      match fromHexChar c1, fromHexChar c2 with
      | None, _ => Err (Errorf "encoding/hex: invalid byte: %#U" [argS [c1]])
      | Some _, None => Err (Errorf "encoding/hex: invalid byte: %#U" [argS [c2]])
      | Some h, Some l =>
          match hex_DecodeString s' with
          | Ok out => Ok (ascii_of_nat (16 * h + l) :: out)
          | Err e => Err e
          end
      end
  end.

(** An [io.Reader] with all it will deliver: the bytes [rData], then the
    end of the stream ([None], [io.EOF]) or the error [rErr], reported by
    the read that follows the last byte. *)
Record Reader : Type := mkReader { rData : bytes; rErr : option error }.

(** [io.LimitReader(r, n)]: stops with [io.EOF] after [n] bytes. *)
Definition io_LimitReader (r : Reader) (n : Z) : Reader :=
  mkReader (firstn (Z.to_nat n) (rData r))
           (if (len (rData r) <? n)%Z then rErr r else None).

(** [io.ReadAll]. *)
Definition io_ReadAll (r : Reader) : bytes * option error := (rData r, rErr r).

(** ** [fmt.Scanln] into a string

    [fmt.Scanln(&resp)] reads standard input rune by rune: it passes the
    spaces in front, stores the runes up to the next space as the word,
    and then wants nothing but spaces up to the line feed.  Each failure
    ends the call: a line feed or the end of input before any word (nothing
    is stored), a failed read (nothing is stored if the word was not
    complete), another word after the first ("expected newline", the first
    word is stored).  [confirm] does not look at the error. *)

(** [first] and [acceptRanges] of package [utf8]: the size of the encoding
    a byte begins and the range of its second byte; size 0 for a byte that
    begins none. *)
Definition utf8Lead (c : ascii) : nat * nat * nat :=
  let n := nat_of_ascii c in
  (if n <? 128 then (1, 0, 0)
   else if n <? 194 then (0, 0, 0)
   else if n <? 224 then (2, 128, 191)
   else if n =? 224 then (3, 160, 191)
   else if n =? 237 then (3, 128, 159)
   else if n <? 240 then (3, 128, 191)
   else if n =? 240 then (4, 144, 191)
   else if n <? 244 then (4, 128, 191)
   else if n =? 244 then (4, 128, 143)
   else (0, 0, 0))%nat.

Definition inRange (lo hi : nat) (c : ascii) : bool :=
  ((lo <=? nat_of_ascii c) && (nat_of_ascii c <=? hi))%nat.

(** What reading one rune gives: the rune -- its UTF-8 text as it is
    written to the word, whether [isSpace] holds of it, the bytes it takes
    and the bytes the reader took from the file to tell --, the end of
    input, or the error of the read. *)
Inductive read : Type :=
| rune (text : bytes) (space : bool) (size look : nat)
| atEOF
| readErr (e : error).

(** U+FFFD, which stands for a byte that begins no valid encoding. *)
Definition runeError : bytes := ["239"; "191"; "189"].

(** The input ends inside an encoding, [look] bytes in. *)
Definition cutShort (look : nat) (err : option error) : read :=
  match err with
  | None => rune runeError false 1 look
  | Some e => readErr e
  end.

(** [readRune.ReadRune] on the bytes to come, [err] being what a read
    after them meets.  [isSpace] of package [fmt] is [unicode.IsSpace];
    no rune of four bytes is a space. *)
Definition readRune (s : bytes) (err : option error) : read :=
  match s with
  | [] =>
      match err with
      | None => atEOF
      | Some e => readErr e
      end
  | c :: r =>
      let '(size, lo, hi) := utf8Lead c in
      match size with
      | O => rune runeError false 1 1
      | S O => rune [c] (asciiSpace c) 1 1
      | _ =>
          match r with
          | [] => cutShort 1 err
          | c1 :: r1 =>
              if negb (inRange lo hi c1) then rune runeError false 1 2
              else if (size =? 2)%nat then rune [c; c1] (isSpace2 c c1) 2 2
              else
                match r1 with
                | [] => cutShort 2 err
                | c2 :: r2 =>
                    if negb (inRange 128 191 c2) then rune runeError false 1 3
                    else if (size =? 3)%nat then rune [c; c1; c2] (isSpace3 c c1 c2) 3 3
                    else
                      match r2 with
                      | [] => cutShort 3 err
                      | c3 :: _ =>
                          if negb (inRange 128 191 c3) then rune runeError false 1 4
                          else rune [c; c1; c2; c3] false 4 4
                      end
                end
          end
      end
  end.

(** The three loops below go through the input byte by byte: [skip] counts
    the bytes of the current rune still to pass, [pend] the bytes from here
    on that the reader has taken from the file already.  They return the
    input that is left in the file when the call ends; what the reader took
    and did not use is lost. *)

(** After the word ([doScan] with [nlIsEnd]): spaces up to the line feed
    or the end of input; any other rune is the error "expected newline". *)
Fixpoint scanNewline (s : bytes) (err : option error) (skip pend : nat) : bytes :=
  match s with
  | [] => []
  | c :: r =>
      match skip with
      | S k => scanNewline r err k (pend - 1)
      | O =>
          match readRune s err with
          | rune text space size look =>
              if beq text [nl] then skipn (Nat.max pend look - 1) r
              else if space then scanNewline r err (size - 1) (Nat.max pend look - 1)
              else skipn (Nat.max pend look - 1) r
          | atEOF => []
          | readErr _ => []
          end
      end
  end.

(** The word ([token] with [notSpace]): the runes up to the first space,
    which is left to be read again, or up to the end of input.  [None]
    when a read fails: nothing is stored then. *)
Fixpoint scanWord (s : bytes) (err : option error) (skip pend : nat) (word : bytes)
    : option bytes * bytes :=
  match s with
  | [] =>
      match err with
      | None => (Some word, [])
      | Some _ => (None, [])
      end
  | c :: r =>
      match skip with
      | S k => scanWord r err k (pend - 1) word
      | O =>
          match readRune s err with
          | rune text space size look =>
              if space then (Some word, scanNewline s err 0 (Nat.max pend look))
              else scanWord r err (size - 1) (Nat.max pend look - 1) (word ++ text)
          | atEOF => (Some word, [])
          | readErr _ => (None, [])
          end
      end
  end.

(** The spaces in front ([SkipSpace], then [notEOF]): a line feed among
    them is the error "unexpected newline", the end of input [io.EOF];
    a carriage return counts as a space, whatever follows it. *)
Fixpoint scanSpaces (s : bytes) (err : option error) (skip pend : nat)
    : option bytes * bytes :=
  match s with
  | [] => (None, [])
  | c :: r =>
      match skip with
      | S k => scanSpaces r err k (pend - 1)
      | O =>
          match readRune s err with
          | rune text space size look =>
              if beq text [nl] then (None, skipn (Nat.max pend look - 1) r)
              else if space then scanSpaces r err (size - 1) (Nat.max pend look - 1)
              else scanWord s err 0 (Nat.max pend look) []
          | atEOF => (None, [])
          | readErr _ => (None, [])
          end
      end
  end.

(** [fmt.Scanln(&resp)] with [resp] empty before: what [resp] holds after
    the call, and the input that is left. *)
Definition fmt_Scanln (input : Reader) : bytes * Reader :=
  let (word, rest) := scanSpaces (rData input) (rErr input) 0 0 in
  (match word with
   | Some resp => resp
   | None => []
   end,
   mkReader rest (rErr input)).

(** ** [crypto/sha256] (FIPS 180-4), on 32-bit words kept in [Z] *)

Section SHA256.
Local Open Scope Z_scope.

Definition w32 (x : Z) : Z := x mod 2 ^ 32.
Definition rotr (n x : Z) : Z := Z.lor (Z.shiftr x n) (w32 (Z.shiftl x (32 - n))).
Definition Ch (x y z : Z) : Z := Z.lxor (Z.land x y) (Z.land (Z.lnot x) z).
Definition Maj (x y z : Z) : Z := Z.lxor (Z.lxor (Z.land x y) (Z.land x z)) (Z.land y z).
Definition bigSigma0 (x : Z) : Z := Z.lxor (Z.lxor (rotr 2 x) (rotr 13 x)) (rotr 22 x).
Definition bigSigma1 (x : Z) : Z := Z.lxor (Z.lxor (rotr 6 x) (rotr 11 x)) (rotr 25 x).
Definition smallSigma0 (x : Z) : Z := Z.lxor (Z.lxor (rotr 7 x) (rotr 18 x)) (Z.shiftr x 3).
Definition smallSigma1 (x : Z) : Z := Z.lxor (Z.lxor (rotr 17 x) (rotr 19 x)) (Z.shiftr x 10).

(** The constants, as FIPS 180-4 defines them: the first 32 bits of the
    fractional parts of the cube roots of the first 64 primes for the
    rounds, and of the square roots of the first 8 primes for the initial
    hash value. *)
Definition firstPrimes : list Z :=
  [2; 3; 5; 7; 11; 13; 17; 19; 23; 29; 31; 37; 41; 43; 47; 53; 59; 61; 67; 71; 73; 79; 83;
   89; 97; 101; 103; 107; 109; 113; 127; 131; 137; 139; 149; 151; 157; 163; 167; 173; 179;
   181; 191; 193; 197; 199; 211; 223; 227; 229; 233; 239; 241; 251; 257; 263; 269; 271; 277;
   281; 283; 293; 307; 311].

(** The cube root of [x], rounded down, bit by bit from bit [n - 1]. *)
Fixpoint cubeRoot (n : nat) (x r : Z) : Z :=
  match n with
  | O => r
  | S n' =>
      let r' := r + 2 ^ Z.of_nat n' in
      cubeRoot n' x (if r' * r' * r' <=? x then r' else r)
  end.

Definition fracCubeRoot (p : Z) : Z := cubeRoot 36 (p * 2 ^ 96) 0 mod 2 ^ 32.

Definition fracSquareRoot (p : Z) : Z := Z.sqrt (p * 2 ^ 64) mod 2 ^ 32.

Definition sha256_K : list Z := Eval vm_compute in map fracCubeRoot firstPrimes.

Definition sha256_init : list Z :=
  Eval vm_compute in map fracSquareRoot (firstn 8 firstPrimes).

Definition byteZ (c : ascii) : Z := Z.of_nat (nat_of_ascii c).
Definition Zbyte (x : Z) : ascii := ascii_of_nat (Z.to_nat (x mod 256)).

(** Big-endian bytes of a word of [n] bytes. *)
Fixpoint beBytes (n : nat) (x : Z) : bytes :=
  match n with
  | O => []
  | S n' => Zbyte (Z.shiftr x (8 * Z.of_nat n')) :: beBytes n' x
  end.

(** The message, the bit 1, zeros up to 56 modulo 64, and the length in
    bits on eight bytes. *)
Definition sha256_pad (msg : bytes) : bytes :=
  let l := Z.of_nat (length msg) in
  let zeros := Z.to_nat ((55 - l) mod 64) in
  msg ++ [Zbyte 128] ++ repeat (Zbyte 0) zeros ++ beBytes 8 (8 * l).

(** The big-endian words of a block. *)
Fixpoint beWords (n : nat) (block : bytes) : list Z :=
  match n with
  | O => []
  | S n' =>
      match block with
      | c0 :: c1 :: c2 :: c3 :: rest =>
          (byteZ c0 * 2 ^ 24 + byteZ c1 * 2 ^ 16 + byteZ c2 * 2 ^ 8 + byteZ c3)
          :: beWords n' rest
      | _ => []
      end
  end.

(** The message schedule, latest word first: [n] more words. *)
Fixpoint schedule (n : nat) (rev_w : list Z) : list Z :=
  match n with
  | O => rev_w
  | S n' =>
      let x := w32 (smallSigma1 (nth 1 rev_w 0) + nth 6 rev_w 0
                    + smallSigma0 (nth 14 rev_w 0) + nth 15 rev_w 0) in
      schedule n' (x :: rev_w)
  end.

Definition sha256_round (st : list Z) (kw : Z * Z) : list Z :=
  match st with
  | [a; b0; c; d; e; f; g; h] =>
      let t1 := h + bigSigma1 e + Ch e f g + fst kw + snd kw in
      let t2 := bigSigma0 a + Maj a b0 c in
      [w32 (t1 + t2); a; b0; c; w32 (d + t1); e; f; g]
  | _ => st
  end.

Definition sha256_block (h : list Z) (block : bytes) : list Z :=
  let ws := rev (schedule 48 (rev (beWords 16 block))) in
  let st := fold_left sha256_round (combine sha256_K ws) h in
  map (fun p => w32 (fst p + snd p)) (combine h st).

Fixpoint sha256_blocks (n : nat) (h : list Z) (data : bytes) : list Z :=
  match n with
  | O => h
  | S n' => sha256_blocks n' (sha256_block h (firstn 64 data)) (skipn 64 data)
  end.

(** [sha256.Sum256], as a slice. *)
Definition sha256_Sum (msg : bytes) : bytes :=
  let data := sha256_pad msg in
  flat_map (beBytes 4) (sha256_blocks (length data / 64) sha256_init data).

End SHA256.

(** ** The world outside the program *)

(** [*http.Response], the fields in use. *)
Record Response : Type := mkResponse {
  StatusCode : Z;
  Status : bytes;
  ContentLength : Z;
  Body : Reader
}.

(** [*exec.Cmd]: the program, its arguments, the directory it runs in and
    its environment (empty for the one of the parent). *)
Record Cmd : Type := mkCmd {
  Path : bytes;
  Args : list bytes;
  Dir : bytes;
  Env : list bytes
}.

(** What a run does to the outside, in order. *)
Inductive Event : Type :=
| EvLookPath (file : bytes)
| EvHTTP (method url : bytes)
| EvExec (c : Cmd)
| EvStart (c : Cmd)
| EvReadFile (name : bytes)
| EvWriteFile (name data : bytes)
| EvCreate (name : bytes)
| EvOpen (name : bytes)
| EvCreateTemp (pattern : bytes)
| EvStat (name : bytes)
| EvMkdirAll (name : bytes)
| EvRemove (name : bytes)
| EvScanln.

(** [distro.Distro], a string type; the three constants [newUpdater]
    names, and all other values. *)
Inductive Distro : Type :=
| Debian
| Arch
| Synology
| otherDistro (name : bytes).

(** [var updateArgs struct {...}], as the flag parser left it. *)
Record UpdateArgs : Type := mkUpdateArgs {
  yes : bool;
  dryRun : bool;
  appStore : bool;
  track : bytes;     (* explicit track; empty means same as current *)
  version : bytes    (* explicit version; empty means auto *)
}.

(** All the program reads but does not own.  What the network, child
    processes and the file system answer may depend on what happened
    before, so these take the events so far.  The last fields are library
    functions whose result is a value and not an effect; they are kept
    abstract. *)
Record World : Type := mkWorld {
  updateArgs : UpdateArgs;
  GOOS : bytes;                              (* runtime.GOOS *)
  GOARCH : bytes;                            (* runtime.GOARCH *)
  intSize : Z;                               (* strconv.IntSize *)
  Getenv : bytes -> bytes;                   (* os.Getenv *)
  Environ : list bytes;                      (* os.Environ *)
  Geteuid : Z;                               (* os.Geteuid *)
  winutil_IsCurrentProcessElevated : bool;
  distro_Get : Distro;                       (* distro.Get *)
  version_Short : bytes;                     (* version.Short *)
  version_IsUnstableBuild : bool;
  version_IsSandboxedMacOS : bool;
  LookPath : list Event -> bytes -> result bytes;                (* exec.LookPath *)
  http_Do : list Event -> bytes -> bytes -> result Response;     (* the client's Do *)
  cmd_Run : list Event -> Cmd -> bytes * result unit;
    (* Run and CombinedOutput of a command: the output and the error *)
  cmd_Start : list Event -> Cmd -> option error;
  os_WriteFile_err : list Event -> bytes -> option error;
  os_Create_err : list Event -> bytes -> option error;
  os_Open_err : list Event -> bytes -> option error;
  os_CreateTemp : list Event -> bytes -> result bytes;           (* the name of the file *)
  os_Stat_res : list Event -> bytes -> result (bool * bytes);        (* IsDir and Mode *)
  os_MkdirAll_err : list Event -> bytes -> option error;
  os_Executable : result bytes;
  verifyAuthenticode : option (list Event -> bytes -> option error);   (* nil off Windows *)
  markTempFileFunc : option (list Event -> bytes -> option error);     (* nil off Windows *)
  file_Write_err : list Event -> bytes -> option error;          (* Write on an open file *)
  file_Close_err : list Event -> bytes -> option error;          (* Close of an open file *)
  url_Parse_ok : bytes -> bool;
    (* whether http.NewRequestWithContext accepts the URL *)
  json_Version : Reader -> result bytes;
    (* json.NewDecoder(body).Decode(&latest): the error, or latest.Version *)
  unicode_ToLower : bytes -> bytes;
    (* strings.Map(unicode.ToLower, s), for [s] not all ASCII *)
  unicode_ToUpper : bytes -> bytes;
  filepath_Base : bytes -> bytes;
  filepath_Dir : bytes -> bytes;
  filepath_Join : list bytes -> bytes;
  path_Base : bytes -> bytes;
  uuid_NewSHA1_URL : bytes -> bytes
    (* uuid.NewSHA1(uuid.NameSpaceURL, name).String() *)
}.

(** What the program changes: the files, what is still to come on standard
    input (the bytes, and what a read after them meets), and the events so
    far. *)
Record State : Type := mkState {
  files : bytes -> result bytes;   (* what os.ReadFile returns for a name *)
  stdin : Reader;
  trace : list Event
}.

(** How a call ends: it returns, it panics, or the process exits. *)
Inductive outcome (A : Type) : Type :=
| Returned (a : A)
| Panicked
| Exited (code : Z).
Arguments Returned {A} a.
Arguments Panicked {A}.
Arguments Exited {A} code.

Definition M (A : Type) : Type := State -> State * outcome A.

Definition ret {A : Type} (a : A) : M A := fun s => (s, Returned a).

Definition bind {A B : Type} (m : M A) (k : A -> M B) : M B :=
  fun s =>
    match m s with
    | (s', Returned a) => k a s'
    | (s', Panicked) => (s', Panicked)
    | (s', Exited code) => (s', Exited code)
    end.

(** [x, err := f(); if err != nil { return err }]. *)
Definition try {A B : Type} (m : M (result A)) (k : A -> M (result B)) : M (result B) :=
  bind m (fun r => match r with
                   | Ok a => k a
                   | Err e => ret (Err e)
                   end).

Notation "x <- m ;; k" := (bind m (fun x => k))
  (at level 61, m at next level, right associativity).
Notation "x <-! m ;; k" := (try m (fun x => k))
  (at level 61, m at next level, right associativity).
Notation "m ;;! k" := (try m (fun _ => k))
  (at level 61, right associativity).

Definition fail {A : Type} (e : error) : M (result A) := ret (Err e).

Definition record (e : Event) (s : State) : State :=
  mkState (files s) (stdin s) (trace s ++ [e]).

Definition setFile (name data : bytes) (s : State) : State :=
  mkState (fun n => if beq n name then Ok data else files s n) (stdin s) (trace s).

Definition dquote : string := String "034" EmptyString.

(** The executors [up.update] can be set to. *)
Module Strategy.
Inductive t : Type :=
| Windows                              (* up.updateWindows *)
| Synology                             (* up.updateSynology *)
| DebLike                              (* up.updateDebLike *)
| ArchLike                             (* up.updateArchLike *)
| FedoraLike (packageManager : bytes)  (* up.updateFedoraLike(packageManager) *)
| MacSys                               (* up.updateMacSys *)
| MacAppStore.                         (* up.updateMacAppStore *)
End Strategy.

(** [type updater struct].  [newUpdater] lets only "stable" and "unstable"
    through as [track]; [update] is [None] for a nil func. *)
Module updater.
Record t : Type := mk { track : Track; update : option Strategy.t }.
End updater.

Section Program.

Variable w : World.

(** *** The operating system, the network, child processes *)

Definition os_ReadFile (name : bytes) : M (result bytes) :=
  fun s => (record (EvReadFile name) s, Returned (files s name)).

(** [os.WriteFile(name, data, 0644)]. *)
Definition os_WriteFile (name data : bytes) : M (result unit) :=
  fun s =>
    match os_WriteFile_err w (trace s) name with
    | Some e => (record (EvWriteFile name data) s, Returned (Err e))
    | None => (record (EvWriteFile name data) (setFile name data s), Returned (Ok tt))
    end.

(** [must.Get(http.NewRequestWithContext(ctx, method, url, nil))]. *)
Definition must_NewRequest (method url : bytes) : M (bytes * bytes) :=
  fun s => if url_Parse_ok w url then (s, Returned (method, url)) else (s, Panicked).

(** [c.Do(req)]. *)
Definition c_Do (req : bytes * bytes) : M (result Response) :=
  fun s => (record (EvHTTP (fst req) (snd req)) s,
            Returned (http_Do w (trace s) (fst req) (snd req))).

(** [http.Get(url)]. *)
Definition http_Get (url : bytes) : M (result Response) :=
  fun s => (record (EvHTTP (b "GET") url) s, Returned (http_Do w (trace s) (b "GET") url)).

(** [cmd.CombinedOutput()]. *)
Definition CombinedOutput (c : Cmd) : M (bytes * result unit) :=
  fun s => (record (EvExec c) s, Returned (cmd_Run w (trace s) c)).

(** [cmd.Run()], the output going to the terminal. *)
Definition Run (c : Cmd) : M (result unit) :=
  fun s => (record (EvExec c) s, Returned (snd (cmd_Run w (trace s) c))).

(** [exec.Command(name, arg...)]. *)
Definition Command (name : bytes) (args : list bytes) : Cmd :=
  mkCmd name args [] [].

(** [fmt.Scanln(&resp)] with [resp] empty before; the error is dropped. *)
Definition Scanln : M bytes :=
  fun s =>
    let (resp, rest) := fmt_Scanln (stdin s) in
    (record EvScanln (mkState (files s) rest (trace s)), Returned resp).

(** [strings.ToLower], [strings.ToUpper]. *)
Definition ToLower (s : bytes) : bytes :=
  if isASCII s then map lowerASCII s else unicode_ToLower w s.

Definition ToUpper (s : bytes) : bytes :=
  if isASCII s then map upperASCII s else unicode_ToUpper w s.

Definition haveExecutable (name : string) : M bool :=
  fun s =>
    (record (EvLookPath (b name)) s,
     Returned match LookPath w (trace s) (b name) with
              | Ok path => negb (beq path [])
              | Err _ => false
              end).

(** *** Small steps of every executor *)

Definition requireRoot : M (result unit) :=
  if (Geteuid w =? 0)%Z then ret (Ok tt)
  else if beq (GOOS w) (b "linux") then fail (errorsNew "must be root; use sudo")
  else if beq (GOOS w) (b "freebsd") || beq (GOOS w) (b "openbsd")
  then fail (errorsNew "must be root; use doas")
  else fail (errorsNew "must be root").

Definition latestTailscaleVersion (track : bytes) : M (result bytes) :=
  let url := b "https://pkgs.tailscale.com/" ++ track ++ b "/?mode=json&os=" ++ GOOS w in
  r <- http_Get url ;;
  match r with
  | Err err => fail (ErrorfW "fetching latest tailscale version: %w" [] err)
  | Ok res =>
      match json_Version w (Body res) with
      | Err err => fail (ErrorfW "decoding JSON: %v: %w" [argS (Status res)] err)
      | Ok latest =>
          if beq latest [] then fail (Errorf "no version found at %q" [argS url])
          else ret (Ok latest)
      end
  end.

Definition requestedTailscaleVersion (ver track : bytes) : M (result bytes) :=
  if negb (beq ver []) then ret (Ok ver) else latestTailscaleVersion track.

(** The messages go to standard output, which is not part of the state. *)
Definition currentOrDryRun (ver : bytes) : bool :=
  if beq (version_Short w) ver then true
  else if dryRun (updateArgs w) then true
  else false.

Definition confirm (ver : bytes) : M (result unit) :=
  if yes (updateArgs w) then ret (Ok tt)
  else
    resp <- Scanln ;;
    let resp := ToLower resp in
    if beq resp (b "y") || beq resp (b "yes") || beq resp (b "sure") then ret (Ok tt)
    else fail errUserAborted.

(** *** Debian and its kin *)

Definition updateDebianAptSourcesList (dstTrack : bytes) : M (result bool) :=
  was <-! os_ReadFile (b aptSourcesFile) ;;
  match updateDebianAptSourcesListBytes was dstTrack with
  | Err err => fail err
  | Ok newContent =>
      if beq was newContent then ret (Ok false)
      else os_WriteFile (b aptSourcesFile) newContent ;;! ret (Ok true)
  end.

Definition updateDebLike (up_track : Track) : M (result unit) :=
  ver <-! requestedTailscaleVersion (version (updateArgs w)) (trackName up_track) ;;
  if currentOrDryRun ver then ret (Ok tt) else
  requireRoot ;;!
  updated <-! updateDebianAptSourcesList (trackName up_track) ;;
  Run (Command (b "apt-get")
         [b "update";
          (* Only update the tailscale repo, not the other ones. *)
          b "-o"; b "Dir::Etc::SourceList=sources.list.d/tailscale.list";
          (* Disable the "sources.list.d" directory: *)
          b "-o"; b "Dir::Etc::SourceParts=-";
          b "-o"; b "APT::Get::List-Cleanup=0"]) ;;!
  Run (Command (b "apt-get")
         [b "install"; b "--yes"; b "--allow-downgrades"; b "tailscale=" ++ ver]).

(** *** Arch *)

Definition pacmanMalformed (line : bytes) : error :=
  Errorf "version output from pacman is malformed: %q, cannot determine upgrade version"
         [argS line].

Fixpoint parsePacmanVersion_lines (lines : list bytes) : result bytes :=
  match lines with
  | [] => Err (Errorf "could not find latest version of tailscale via pacman" [])
  | line :: lines' =>
      if negb (HasPrefix line (b "Version")) then parsePacmanVersion_lines lines'
      else
        (* parts := strings.SplitN(line, ":", 2) *)
        let '(_, after, found) := Cut line (b ":") in
        if negb found then Err (pacmanMalformed line)
        else
          let ver := TrimSpace after in
          (* Trim the Arch patch version: strings.Split(ver, "-")[0]. *)
          let ver := fst (fst (Cut ver (b "-"))) in
          if beq ver [] then Err (pacmanMalformed line) else Ok ver
  end.

Definition parsePacmanVersion (out : bytes) : result bytes :=
  parsePacmanVersion_lines (splitByte nl out).

Definition archHint : string :=
  ("%w; you can try updating using " ++ dquote ++ "pacman --sync --refresh tailscale"
   ++ dquote)%string.

Definition updateArchLike (up_track : Track) : M (result unit) :=
  requireRoot ;;!
  r <- (o <- CombinedOutput (Command (b "pacman")
                               [b "--sync"; b "--refresh"; b "--info"; b "tailscale"]) ;;
        match snd o with
        | Err err =>
            fail (ErrorfW "failed checking pacman for latest tailscale version: %w, output: %q"
                          [argS (fst o)] err)
        | Ok _ =>
            match parsePacmanVersion (fst o) with
            | Err err => fail err
            | Ok ver =>
                if currentOrDryRun ver then ret (Ok tt) else
                confirm ver ;;!
                r <- Run (Command (b "pacman") [b "--sync"; b "--noconfirm"; b "tailscale"]) ;;
                match r with
                | Err err => fail (ErrorfW "failed tailscale update using pacman: %w" [] err)
                | Ok _ => ret (Ok tt)
                end
            end
        end) ;;
  (* the deferred function *)
  match r with
  | Err err => if negb (isUserAborted err) then fail (ErrorfW archHint [] err) else fail err
  | Ok _ => ret r
  end.

(** *** Fedora and its kin *)

Definition yumRepoConfigFile : string := "/etc/yum.repos.d/tailscale.repo".

Definition updateYUMRepoTrack (repoFile : bytes) (dstTrack : Track) : M (result bool) :=
  was <-! os_ReadFile repoFile ;;
  match yumNewContent repoFile was dstTrack with
  | Err err => fail err
  | Ok newContent =>
      if beq was newContent then ret (Ok false)
      else os_WriteFile repoFile newContent ;;! ret (Ok true)
  end.

Definition fedoraHint : string :=
  ("%w; you can try updating using " ++ dquote ++ "%s upgrade tailscale" ++ dquote)%string.

Definition updateFedoraLike (up_track : Track) (packageManager : bytes) : M (result unit) :=
  requireRoot ;;!
  r <- (ver <-! requestedTailscaleVersion (version (updateArgs w)) (trackName up_track) ;;
        if currentOrDryRun ver then ret (Ok tt) else
        confirm ver ;;!
        updated <-! updateYUMRepoTrack (b yumRepoConfigFile) up_track ;;
        Run (Command packageManager
               [b "install"; b "--assumeyes"; b "tailscale-" ++ ver ++ b "-1"])) ;;
  (* the deferred function *)
  match r with
  | Err err =>
      if negb (isUserAborted err)
      then fail (ErrorfW fedoraHint [argS packageManager] err)
      else fail err
  | Ok _ => ret r
  end.

(** *** Two executors that only report *)

Definition updateSynology : M (result unit) :=
  fail (errorsNew "The 'update' command is not yet implemented on Synology.").

Definition updateMacSys : M (result unit) :=
  fail (errorsNew "The 'update' command is not yet implemented on macOS.").

(** *** Windows: installing the package that was handed over *)

Definition winMSIEnv : string := "TS_UPDATE_WIN_MSI".

Definition msiUUIDForVersion (ver : bytes) : bytes :=
  let arch := if beq (GOARCH w) (b "386") then b "x86" else GOARCH w in
  let '(isStable, ok) := versionIsStable (intSize w) ver in
  let track := if ok && isStable then b "stable" else b "unstable" in
  let msiURL := b "https://pkgs.tailscale.com/" ++ track ++ b "/tailscale-setup-" ++ ver
                ++ b "-" ++ arch ++ b ".msi" in
  b "{" ++ ToUpper (uuid_NewSHA1_URL w msiURL) ++ b "}".

(** The [for tries := 0; tries < 2; tries++] loop, [tries] rounds to go. *)
Fixpoint installMSI_loop (tries : nat) (msi : bytes) (err : result unit) : M (result unit) :=
  match tries with
  | O => ret err
  | S tries' =>
      err <- Run (mkCmd (b "msiexec.exe")
                        [b "/i"; filepath_Base w msi; b "/quiet"; b "/promptrestart"; b "/qn"]
                        (filepath_Dir w msi) []) ;;
      match err with
      | Ok _ => ret err
      | Err _ =>
          let uninstallVersion :=
            if negb (beq (Getenv w (b "TS_DEBUG_UNINSTALL_VERSION")) [])
            then Getenv w (b "TS_DEBUG_UNINSTALL_VERSION")
            else version_Short w in
          (* Assume it's a downgrade, which msiexec won't permit. *)
          err <- Run (Command (b "msiexec.exe")
                        [b "/x"; msiUUIDForVersion uninstallVersion; b "/norestart"; b "/qn"]) ;;
          installMSI_loop tries' msi err
      end
  end.

Definition installMSI (msi : bytes) : M (result unit) :=
  installMSI_loop 2 msi (Ok tt).

(** *** Download and verification *)

Definition errHashMismatch : error :=
  Errorf "SHA-256 of downloaded MSI didn't match expected value" [].

(** From [os.Create] on: the body of [dlRes] goes, up to the length the
    HEAD response [res] declared, through the hash and into the file; then
    the length and the digest are checked.  The progress lines go to the
    log, which is not part of the state; the deferred function closes the
    file on an error and changes nothing here. *)
Definition downloadBody (urlSrc fileDst : bytes) (res : Response) (wantHash : bytes)
    (dlRes : Response) : M (result unit) :=
  fun s =>
    let s := record (EvCreate fileDst) s in
    match os_Create_err w (trace s) fileDst with
    | Some err => (s, Returned (Err err))
    | None =>
        let s := setFile fileDst [] s in
        (* n, err := io.Copy(io.MultiWriter(hash, of, pw),
                             io.LimitReader(dlRes.Body, res.ContentLength)) *)
        let src := io_LimitReader (Body dlRes) (ContentLength res) in
        match (if beq (rData src) [] then None else file_Write_err w (trace s) fileDst) with
        | Some err => (s, Returned (Err err))
        | None =>
            let s := setFile fileDst (rData src) s in
            match rErr src with
            | Some err => (s, Returned (Err err))
            | None =>
                let n := len (rData src) in
                if negb (n =? ContentLength res)%Z then
                  (s, Returned (Err (Errorf "downloaded %v; want %v"
                                            [argI n; argI (ContentLength res)])))
                else
                  match file_Close_err w (trace s) fileDst with
                  | Some err => (s, Returned (Err err))
                  | None =>
                      if negb (beq (sha256_Sum (rData src)) wantHash)
                      then (s, Returned (Err errHashMismatch))
                      else (s, Returned (Ok tt))
                  end
            end
        end
    end.

Definition downloadURLToFile (urlSrc fileDst : bytes) : M (result unit) :=
  headReq <- must_NewRequest (b "HEAD") urlSrc ;;
  res <-! c_Do headReq ;;
  if negb (StatusCode res =? 200)%Z then
    fail (Errorf "HEAD %s: %v" [argS urlSrc; argS (Status res)])
  else if (ContentLength res <=? 0)%Z then
    fail (Errorf "HEAD %s: unexpected Content-Length %v" [argS urlSrc; argI (ContentLength res)])
  else
  hashReq <- must_NewRequest (b "GET") (urlSrc ++ b ".sha256") ;;
  hashRes <-! c_Do hashReq ;;
  let (hashHex, err) := io_ReadAll (io_LimitReader (Body hashRes) 100) in
  (* the source reads [res.StatusCode] and [res.Status] here, not [hashRes] *)
  if negb (StatusCode res =? 200)%Z then
    fail (Errorf "GET %s.sha256: %v" [argS urlSrc; argS (Status res)])
  else
  match err with
  | Some err => fail err
  | None =>
      match hex_DecodeString (TrimSpace hashHex) with
      | Err err => fail err
      | Ok wantHash =>
          dlReq <- must_NewRequest (b "GET") urlSrc ;;
          dlRes <-! c_Do dlReq ;;
          if negb (StatusCode dlRes =? 200)%Z then
            fail (Errorf "GET %s: %v" [argS urlSrc; argS (Status dlRes)])
          else downloadBody urlSrc fileDst res wantHash dlRes
      end
  end.

(** *** The Mac App Store *)

(** [macOSAppStoreListPattern =
     regexp.MustCompile(`(?m)^\s+\*\s+Label:\s*(Tailscale-\d[\d\.]+)`)].
    No piece of the pattern can start where the piece before it could go
    on, so each repetition takes all it can. *)
Fixpoint dropSpaces (s : bytes) : bytes :=
  match s with
  | c :: s' => if reSpace c then dropSpaces s' else s
  | [] => []
  end.

(** [\s+] *)
Definition someSpaces (s : bytes) : option bytes :=
  match s with
  | c :: s' => if reSpace c then Some (dropSpaces s') else None
  | [] => None
  end.

Definition literally (p s : bytes) : option bytes :=
  if HasPrefix s p then Some (skipn (length p) s) else None.

(** [[\d\.]*], the text matched. *)
Fixpoint digitsAndDots (s : bytes) : bytes :=
  match s with
  | c :: s' => if isDigit c || Ascii.eqb c "." then c :: digitsAndDots s' else []
  | [] => []
  end.

(** The match that starts at the first byte of [s], a start of line: the
    text of group 1. *)
Definition macOSAppStoreListPattern_at (s : bytes) : option bytes :=
  match someSpaces s with
  | None => None
  | Some s1 =>
  match literally (b "*") s1 with
  | None => None
  | Some s2 =>
  match someSpaces s2 with
  | None => None
  | Some s3 =>
  match literally (b "Label:") s3 with
  | None => None
  | Some s4 =>
  match literally (b "Tailscale-") (dropSpaces s4) with
  | None => None
  | Some s5 =>
  match s5 with
  | d :: s6 =>
      if isDigit d then
        match digitsAndDots s6 with
        | [] => None
        | more => Some (b "Tailscale-" ++ d :: more)
        end
      else None
  | [] => None
  end end end end end end.

(** [macOSAppStoreListPattern.FindSubmatch(stdout)], group 1 of the
    leftmost match. *)
Fixpoint findLabel (atLineStart : bool) (s : bytes) : option bytes :=
  match (if atLineStart then macOSAppStoreListPattern_at s else None) with
  | Some label => Some label
  | None =>
      match s with
      | [] => None
      | c :: s' => findLabel (Ascii.eqb c nl) s'
      end
  end.

Definition parseSoftwareupdateList (stdout : bytes) : bytes :=
  match findLabel true stdout with
  | Some label => label
  | None => []
  end.

(** [strings.TrimPrefix]. *)
Definition TrimPrefix (s prefix : bytes) : bytes :=
  if HasPrefix s prefix then skipn (length prefix) s else s.

Definition updateMacAppStore : M (result unit) :=
  o <- CombinedOutput (Command (b "defaults")
         [b "read"; b "/Library/Preferences/com.apple.commerce.plist"; b "AutoUpdate"]) ;;
  match snd o with
  | Err err =>
      fail (ErrorfW "can't check App Store auto-update setting: %w, output: %q"
                    [argS (fst o)] err)
  | Ok _ =>
      o <- CombinedOutput (Command (b "softwareupdate") [b "--list"]) ;;
      match snd o with
      | Err err =>
          fail (ErrorfW "can't check App Store for available updates: %w, output: %q"
                        [argS (fst o)] err)
      | Ok _ =>
          let newTailscale := parseSoftwareupdateList (fst o) in
          if beq newTailscale [] then ret (Ok tt) else
          let newTailscaleVer := TrimPrefix newTailscale (b "Tailscale-") in
          if currentOrDryRun newTailscaleVer then ret (Ok tt) else
          confirm newTailscaleVer ;;!
          r <- Run (Command (b "sudo") [b "softwareupdate"; b "--install"; newTailscale]) ;;
          match r with
          | Err err => fail (ErrorfW "can't install App Store update for Tailscale: %w" [] err)
          | Ok _ => ret (Ok tt)
          end
      end
  end.

(** *** Windows: download, check, hand over *)

Definition makeSelfCopy : M (result bytes) :=
  match os_Executable w with
  | Err err => fail err
  | Ok selfExe =>
      fun s =>
        (* f, err := os.Open(selfExe) *)
        let s := record (EvOpen selfExe) s in
        match os_Open_err w (trace s) selfExe with
        | Some err => (s, Returned (Err err))
        | None =>
            (* f2, err := os.CreateTemp("", "tailscale-updater-*.exe") *)
            let s := record (EvCreateTemp (b "tailscale-updater-*.exe")) s in
            match os_CreateTemp w (trace s) (b "tailscale-updater-*.exe") with
            | Err err => (s, Returned (Err err))
            | Ok f2 =>
                let s := setFile f2 [] s in
                match match markTempFileFunc w with
                      | Some f => f (trace s) f2
                      | None => None
                      end with
                | Some err => (s, Returned (Err err))
                | None =>
                    (* io.Copy(f2, f) *)
                    match files s selfExe with
                    | Err err => (s, Returned (Err err))
                    | Ok data =>
                        match (if beq data [] then None else file_Write_err w (trace s) f2) with
                        | Some err => (s, Returned (Err err))
                        | None =>
                            let s := setFile f2 data s in
                            (* return f2.Name(), f2.Close() *)
                            match file_Close_err w (trace s) f2 with
                            | Some err => (s, Returned (Err err))
                            | None => (s, Returned (Ok f2))
                            end
                        end
                    end
                end
            end
        end
  end.

Definition os_Stat (name : bytes) : M (result (bool * bytes)) :=
  fun s => (record (EvStat name) s, Returned (os_Stat_res w (trace s) name)).

Definition os_MkdirAll (name : bytes) : M (result unit) :=
  fun s => (record (EvMkdirAll name) s,
            Returned match os_MkdirAll_err w (trace s) name with
                     | Some err => Err err
                     | None => Ok tt
                     end).

Definition os_Remove (name : bytes) : M unit :=
  fun s => (record (EvRemove name)
              (mkState (fun n => if beq n name
                                 then Err (extError "The system cannot find the file specified.")
                                 else files s n)
                       (stdin s) (trace s)),
            Returned tt).

(** [cmd.Start()]. *)
Definition Start (c : Cmd) : M (result unit) :=
  fun s => (record (EvStart c) s,
            Returned match cmd_Start w (trace s) c with
                     | Some err => Err err
                     | None => Ok tt
                     end).

(** [os.Exit(code)]. *)
Definition os_Exit {A : Type} (code : Z) : M A := fun s => (s, Exited code).

(** A call of the hook [verifyAuthenticode]; it is nil off Windows. *)
Definition call_verifyAuthenticode (file : bytes) : M (result unit) :=
  fun s =>
    match verifyAuthenticode w with
    | None => (s, Panicked)
    | Some f => (s, Returned match f (trace s) file with
                             | Some err => Err err
                             | None => Ok tt
                             end)
    end.

Definition updateWindows (up_track : Track) : M (result unit) :=
  ver <-! requestedTailscaleVersion (version (updateArgs w)) (trackName up_track) ;;
  let arch := if beq (GOARCH w) (b "386") then b "x86" else GOARCH w in
  let url := b "https://pkgs.tailscale.com/" ++ trackName up_track ++ b "/tailscale-setup-"
             ++ ver ++ b "-" ++ arch ++ b ".msi" in
  if currentOrDryRun ver then ret (Ok tt) else
  if negb (winutil_IsCurrentProcessElevated w)
  then fail (errorsNew "must be run as Administrator") else
  let tsDir := filepath_Join w [Getenv w (b "ProgramData"); b "Tailscale"] in
  let msiDir := filepath_Join w [tsDir; b "MSICache"] in
  fi <- os_Stat tsDir ;;
  match fi with
  | Err err => fail (ErrorfW "expected %s to exist, got stat error: %w" [argS tsDir] err)
  | Ok (isDir, mode) =>
      if negb isDir
      then fail (Errorf "expected %s to be a directory; got %v" [argS tsDir; argS mode])
      else
        os_MkdirAll msiDir ;;!
        confirm ver ;;!
        let msiTarget := filepath_Join w [msiDir; path_Base w url] in
        downloadURLToFile url msiTarget ;;!
        r <- call_verifyAuthenticode msiTarget ;;
        match r with
        | Err err =>
            fail (ErrorfW "authenticode verification of %s failed: %w" [argS msiTarget] err)
        | Ok _ =>
            selfCopy <-! makeSelfCopy ;;
            (* defer os.Remove(selfCopy) *)
            r <- Start (mkCmd selfCopy [b "update"] []
                              (Environ w ++ [b winMSIEnv ++ b "=" ++ msiTarget])) ;;
            match r with
            | Err err => _ <- os_Remove selfCopy ;; fail err
            | Ok _ =>
                (* Once it's started, exit ourselves, so the binary is free
                   to be replaced. *)
                os_Exit 0
            end
        end
  end.

(** *** Choosing the executor: [newUpdater] *)

(** The track [up.track] ends up with, or the error of the first switch. *)
Definition resolveTrack : result Track :=
  let args := updateArgs w in
  if beq (track args) (b "stable") then Ok stable
  else if beq (track args) (b "unstable") then Ok unstable
  else if beq (track args) [] then
    if negb (beq (version args) []) then
      let '(isStable, ok) := versionIsStable (intSize w) (version args) in
      if negb ok then Err (Errorf "malformed version %q" [argS (version args)])
      else if isStable then Ok stable else Ok unstable
    else if version_IsUnstableBuild w then Ok unstable else Ok stable
  else Err (Errorf "unknown track %q; must be 'stable' or 'unstable'" [argS (track args)]).

(** The value of [up.update] after [switch runtime.GOOS], or the error the
    darwin case returns with. *)
Definition chooseUpdate : M (result (option Strategy.t)) :=
  if beq (GOOS w) (b "windows") then ret (Ok (Some Strategy.Windows))
  else if beq (GOOS w) (b "linux") then
    let update :=
      match distro_Get w with
      | Synology => Some Strategy.Synology
      | Debian => Some Strategy.DebLike   (* includes Ubuntu *)
      | Arch => Some Strategy.ArchLike
      | otherDistro _ => None
      end in
    pacman <- haveExecutable "pacman" ;;
    if pacman then ret (Ok (Some Strategy.ArchLike)) else
    aptGet <- haveExecutable "apt-get" ;;
    if aptGet then ret (Ok (Some Strategy.DebLike)) else
    dnf <- haveExecutable "dnf" ;;
    if dnf then ret (Ok (Some (Strategy.FedoraLike (b "dnf")))) else
    yum <- haveExecutable "yum" ;;
    if yum then ret (Ok (Some (Strategy.FedoraLike (b "yum")))) else
    ret (Ok update)
  else if beq (GOOS w) (b "darwin") then
    if negb (appStore (updateArgs w)) && negb (version_IsSandboxedMacOS w) then
      fail (errorsNew "The 'update' command is not yet supported on this platform; see https://github.com/tailscale/tailscale/wiki/Tailscaled-on-macOS/ for now")
    else if negb (appStore (updateArgs w))
            && HasSuffix (Getenv w (b "HOME")) (b "/io.tailscale.ipn.macsys/Data")
    then ret (Ok (Some Strategy.MacSys))
    else ret (Ok (Some Strategy.MacAppStore))
  else ret (Ok None).

Definition newUpdater : M (result updater.t) :=
  match resolveTrack with
  | Err err => fail err
  | Ok t =>
      update <-! chooseUpdate ;;
      match update with
      | None =>
          fail (errorsNew "The 'update' command is not supported on this platform; see https://tailscale.com/s/client-updates")
      | Some u => ret (Ok (updater.mk t (Some u)))
      end
  end.

(** *** The command *)

(** [up.update()]. *)
Definition callUpdate (up : updater.t) : M (result unit) :=
  match updater.update up with
  | Some Strategy.Windows => updateWindows (updater.track up)
  | Some Strategy.Synology => updateSynology
  | Some Strategy.DebLike => updateDebLike (updater.track up)
  | Some Strategy.ArchLike => updateArchLike (updater.track up)
  | Some (Strategy.FedoraLike packageManager) =>
      updateFedoraLike (updater.track up) packageManager
  | Some Strategy.MacSys => updateMacSys
  | Some Strategy.MacAppStore => updateMacAppStore
  | None => fun s => (s, Panicked)   (* a call through a nil func value *)
  end.

Definition runUpdate (args : list bytes) : M (result unit) :=
  let msi := Getenv w (b winMSIEnv) in
  if negb (beq msi []) then installMSI msi
  else if (0 <? Z.of_nat (length args))%Z then fail ErrHelp
  else if negb (beq (version (updateArgs w)) []) && negb (beq (track (updateArgs w)) [])
  then fail (errorsNew "cannot specify both --version and --track")
  else
    up <-! newUpdater ;;
    callUpdate up.

End Program.

(** ** Notions the statements below are phrased with *)

(** A line of text with its line feed. *)
Definition ln (s : string) : bytes := b s ++ [nl].

(** The track-scoped URL a rewriter looks for. *)
Definition trackURL (dstTrack : bytes) : bytes :=
  b "https://pkgs.tailscale.com/" ++ dstTrack ++ b "/".

(** The occurrences of the URL pattern in a line, none in a comment. *)
Definition lineOccurrences (line : bytes) : list bytes :=
  if commentLine_Match line then [] else FindAll pkgsURL line.

(** The occurrences on the lines of [was] that are not comments, in order. *)
Definition aptOccurrences (was : bytes) : list bytes :=
  flat_map lineOccurrences (scanLines was).

(** Those of them that are not on the track wanted. *)
Definition aptToChange (was dstTrack : bytes) : list bytes :=
  filter (fun m => negb (beq m (trackURL dstTrack))) (aptOccurrences was).

(** What the replacement closure does to the caller's variables at one
    occurrence. *)
Definition aptStep (trackURLPrefix : bytes) (v : aptVars) (m : bytes) : aptVars :=
  snd (aptRepl trackURLPrefix m v).

Definition unsupportedAptContents : error :=
  Errorf "unexpected/unsupported %s contents" [argS (b aptSourcesFile)].

(** The byte before the position that follows [m], when [before] was the
    byte before [m]. *)
Definition lastOr (m : bytes) (before : option ascii) : option ascii :=
  match m with
  | [] => before
  | c :: m' => Some (last m' c)
  end.

(** The two forms of the track-scoped URL. *)
Definition stableURL : bytes := b "https://pkgs.tailscale.com/stable/".
Definition unstableURL : bytes := b "https://pkgs.tailscale.com/unstable/".

(** The text [ReplaceAllFunc] returns for a line, whatever the closure's
    variables hold. *)
Definition aptRewrite (p : bytes) (before : option ascii) (src : bytes) : bytes :=
  fst (replaceAllFrom pkgsURL (aptRepl p) before 0 src (mkAptVars false 0)).

(** The line the apt loop writes for a line it read. *)
Definition aptOut (p line : bytes) : bytes :=
  if commentLine_Match line then line else aptRewrite p None line.

(** The scanner reads [data] to its end: no line is too long for its
    buffer. *)
Definition fitsScanner (data : bytes) : Prop :=
  Forall (fun l => (len l < MaxScanTokenSize)%Z) (rawLines data).

(** No line of [data] ends in a carriage return. *)
Definition noTrailingCR (data : bytes) : Prop :=
  Forall (fun l => dropCR l = l) (rawLines data).

(** The state [s] after the events [evs]. *)
Definition after (s : State) (evs : list Event) : State :=
  mkState (files s) (stdin s) (trace s ++ evs).

(** A space other than the line feed, and a byte of a word, both in
    ASCII. *)
Definition blank (c : ascii) : Prop := asciiSpace c = true /\ c <> nl.

Definition plain (c : ascii) : Prop :=
  (nat_of_ascii c < 128)%nat /\ asciiSpace c = false.

(** The answers the confirmation gate takes for a yes. *)
Definition affirmative (resp : bytes) : Prop :=
  resp = b "y" \/ resp = b "yes" \/ resp = b "sure".

(** What the next call of [fmt.Scanln] stores: the first word of the input
    to come, nothing when there is none. *)
Definition nextResponse (s : State) : bytes := fst (fmt_Scanln (stdin s)).




(** The directory [updateWindows] expects to find. *)
Definition tsDir (w : World) : bytes :=
  filepath_Join w [Getenv w (b "ProgramData"); b "Tailscale"].

Definition msiDir (w : World) : bytes := filepath_Join w [tsDir w; b "MSICache"].

(** The bytes of the body of [dlRes] that are streamed when the HEAD
    response [res] declared the length. *)
Definition streamed (res dlRes : Response) : bytes :=
  rData (io_LimitReader (Body dlRes) (ContentLength res)).

(** The three requests of [downloadURLToFile], in order. *)
Definition downloadRequests (urlSrc : bytes) : list Event :=
  [EvHTTP (b "HEAD") urlSrc;
   EvHTTP (b "GET") (urlSrc ++ b ".sha256");
   EvHTTP (b "GET") urlSrc].

(** The answers to the three requests of a download that starts in state
    [s] and gets as far as the transfer: [res] to the HEAD request, with
    the length; [hashRes] with the checksum, of which [wantHash] is what the
    first 100 bytes decode to; [dlRes] with the package. *)
Definition answered (w : World) (urlSrc : bytes) (s : State)
    (res hashRes dlRes : Response) (wantHash : bytes) : Prop :=
  url_Parse_ok w urlSrc = true /\
  url_Parse_ok w (urlSrc ++ b ".sha256") = true /\
  http_Do w (trace s) (b "HEAD") urlSrc = Ok res /\
  StatusCode res = 200%Z /\ (0 < ContentLength res)%Z /\
  http_Do w (trace s ++ firstn 1 (downloadRequests urlSrc)) (b "GET") (urlSrc ++ b ".sha256")
  = Ok hashRes /\
  rErr (io_LimitReader (Body hashRes) 100) = None /\
  hex_DecodeString (TrimSpace (rData (io_LimitReader (Body hashRes) 100))) = Ok wantHash /\
  http_Do w (trace s ++ firstn 2 (downloadRequests urlSrc)) (b "GET") urlSrc = Ok dlRes /\
  StatusCode dlRes = 200%Z.

(** Neither the file nor the connection fails during the transfer into
    [fileDst] that starts in state [s]. *)
Definition transferUndisturbed (w : World) (fileDst : bytes) (res dlRes : Response)
    (s : State) : Prop :=
  let tr := trace s ++ [EvCreate fileDst] in
  os_Create_err w tr fileDst = None /\
  file_Write_err w tr fileDst = None /\
  rErr (io_LimitReader (Body dlRes) (ContentLength res)) = None /\
  file_Close_err w tr fileDst = None.

Definition lengthMismatch (n want : Z) : error :=
  Errorf "downloaded %v; want %v" [argI n; argI want].

Definition bothGiven : error := errorsNew "cannot specify both --version and --track".

(** The world [w], but with the server giving the checksum of [urlSrc]
    under the status [code], [status]. *)
Definition withChecksumStatus (w : World) (urlSrc : bytes) (code : Z) (status : bytes)
    : World :=
  mkWorld (updateArgs w) (GOOS w) (GOARCH w) (intSize w) (Getenv w) (Environ w)
    (Geteuid w) (winutil_IsCurrentProcessElevated w)
    (distro_Get w) (version_Short w) (version_IsUnstableBuild w)
    (version_IsSandboxedMacOS w) (LookPath w)
    (fun tr method url =>
       if beq url (urlSrc ++ b ".sha256") then
         match http_Do w tr method url with
         | Ok r => Ok (mkResponse code status (ContentLength r) (Body r))
         | Err e => Err e
         end
       else http_Do w tr method url)
    (cmd_Run w) (cmd_Start w) (os_WriteFile_err w) (os_Create_err w) (os_Open_err w)
    (os_CreateTemp w) (os_Stat_res w) (os_MkdirAll_err w) (os_Executable w)
    (verifyAuthenticode w) (markTempFileFunc w) (file_Write_err w)
    (file_Close_err w) (url_Parse_ok w) (json_Version w) (unicode_ToLower w)
    (unicode_ToUpper w) (filepath_Base w) (filepath_Dir w) (filepath_Join w)
    (path_Base w) (uuid_NewSHA1_URL w).

(** ** Inputs of the examples *)

Definition aptMixed : bytes :=
  ln "deb https://pkgs.tailscale.com/stable/ focal main"
  ++ ln "deb https://pkgs.tailscale.com/unstable/ focal main"
  ++ ln "deb https://pkgs.tailscale.com/unstable/ jammy main".

(** A repository file with one line that ends in two carriage returns. *)
Definition yumTwoCR : bytes :=
  ln "[tailscale-stable]" ++ b "enabled=1" ++ [cr; cr; nl].

Definition yumOneCR : bytes :=
  ln "[tailscale-stable]" ++ b "enabled=1" ++ [cr; nl].

Definition yumNoCR : bytes :=
  ln "[tailscale-stable]" ++ ln "enabled=1".

(** A list with one line of 65535 bytes, the longest the scanner delivers,
    and the same line on the unstable track, two bytes longer. *)
Definition aptLongLine : bytes :=
  b "deb https://pkgs.tailscale.com/stable/ " ++ repeat "x" (Z.to_nat 65496) ++ [nl].

Definition aptLongLineUnstable : bytes :=
  b "deb https://pkgs.tailscale.com/unstable/ " ++ repeat "x" (Z.to_nat 65496) ++ [nl].

(** A 64-bit machine running version 1.44.0 as root (with elevation, on
    Windows), where no file operation fails and the two Windows hooks are
    set.  The paths of the examples have no directory part. *)
Definition exampleWorld (args : UpdateArgs) (goos : bytes) (env : bytes -> bytes)
    (dist : Distro) (look : bytes -> result bytes)
    (http : bytes -> bytes -> result Response) (run : Cmd -> bytes * result unit)
    : World :=
  mkWorld args goos (b "amd64") 64 env [] 0 true dist (b "1.44.0") false false
    (fun _ => look) (fun _ => http) (fun _ => run) (fun _ _ => None)
    (fun _ _ => None) (fun _ _ => None) (fun _ _ => None)
    (fun _ _ => Ok (b "tailscale-updater-1.exe")) (fun _ _ => Ok (true, b "drwxrwxrwx"))
    (fun _ _ => None) (Ok (b "tailscale.exe"))
    (Some (fun _ _ => None)) (Some (fun _ _ => None))
    (fun _ _ => None) (fun _ _ => None)
    (fun _ => true) (fun _ => Err (extError "unexpected end of JSON input"))
    (fun s => s) (fun s => s) (fun p => p) (fun _ => b ".")
    (fun parts => last parts []) (fun p => p) (fun u => u).

(** Every command succeeds without output. *)
Definition quietRun : Cmd -> bytes * result unit := fun _ => ([], Ok tt).

Definition notOnPath : bytes -> result bytes :=
  fun _ => Err (extError "executable file not found in $PATH").

Definition noEnv : bytes -> bytes := fun _ => [].

Definition noNetwork : bytes -> bytes -> result Response :=
  fun _ _ => Err (extError "dial tcp: no route to host").

(** No file can be read; the operator types [input], and the input ends
    there. *)
Definition emptyState (input : bytes) : State :=
  mkState (fun _ => Err (extError "no such file or directory")) (mkReader input None) [].

(** A Debian machine with, besides apt-get, a program called pacman on the
    search path. *)
Definition debianWithPacman : World :=
  exampleWorld (mkUpdateArgs false false false [] []) (b "linux") noEnv Debian
    (fun file =>
       if beq file (b "pacman") then Ok (b "/usr/games/pacman")
       else if beq file (b "apt-get") then Ok (b "/usr/bin/apt-get")
       else Err (extError "executable file not found in $PATH"))
    noNetwork quietRun.

(** [tailscale update --version=1.45.3 --track=stable] ... *)
Definition bothFlags : UpdateArgs :=
  mkUpdateArgs false false false (b "stable") (b "1.45.3").

(** ... on a Debian machine, *)
Definition worldBothFlags : World :=
  exampleWorld bothFlags (b "linux") noEnv Debian notOnPath noNetwork quietRun.

(** ... and on Windows with [TS_UPDATE_WIN_MSI] naming a package. *)
Definition worldBothFlagsHandoff : World :=
  exampleWorld bothFlags (b "windows")
    (fun name => if beq name (b winMSIEnv) then b "tailscale-setup-1.45.3-amd64.msi" else [])
    (otherDistro []) notOnPath noNetwork quietRun.

(** A Fedora machine asked for 1.46.0, the operator at the terminal; the
    same asked for the latest version, without network. *)
Definition fedoraWorld (version : bytes) : World :=
  exampleWorld (mkUpdateArgs false false false [] version) (b "linux") noEnv
    (otherDistro (b "fedora"))
    (fun file => if beq file (b "dnf") then Ok (b "/usr/bin/dnf")
                 else Err (extError "executable file not found in $PATH"))
    noNetwork quietRun.


Definition pacmanOutput : bytes :=
  ln "Repository      : community" ++ ln "Name            : tailscale"
  ++ ln "Version         : 1.46.0-1".







(** A server with a three-byte package and its checksum, the latter under
    the status [code], [status]. *)
Definition msiURL : bytes := b "https://pkgs.tailscale.com/stable/tailscale-setup-1.46.0-amd64.msi".

Definition artifactServer (code : Z) (status : bytes) (body : bytes)
    : bytes -> bytes -> result Response :=
  fun method url =>
    if beq url msiURL then
      if beq method (b "HEAD") then Ok (mkResponse 200 (b "200 OK") 3 (mkReader [] None))
      else Ok (mkResponse 200 (b "200 OK") (len body) (mkReader body None))
    else if beq url (msiURL ++ b ".sha256") then
      Ok (mkResponse code status 65
            (mkReader (ln "ba7816bf8f01cfea414140de5dae2223b00361a396177a9cb410ff61f20015ad")
                      None))
    else Err (extError "dial tcp: no route to host").

Definition windowsWorld (code : Z) (status : bytes) (body : bytes) : World :=
  exampleWorld (mkUpdateArgs true false false [] (b "1.46.0")) (b "windows") noEnv
    (otherDistro []) notOnPath (artifactServer code status body) quietRun.

(** The same machine with the operator at the terminal. *)
Definition windowsPromptWorld : World :=
  exampleWorld (mkUpdateArgs false false false [] (b "1.46.0")) (b "windows") noEnv
    (otherDistro []) notOnPath (artifactServer 200 (b "200 OK") (b "abc")) quietRun.

(** The answers of that server to the requests for the checksum and for
    the package. *)
Definition resHash : Response :=
  mkResponse 200 (b "200 OK") 65
    (mkReader (ln "ba7816bf8f01cfea414140de5dae2223b00361a396177a9cb410ff61f20015ad") None).

Definition resBody (body : bytes) : Response :=
  mkResponse 200 (b "200 OK") (len body) (mkReader body None).

(** A repository file with a line of 65536 bytes in front of its name
    line. *)
Definition yumLongLine : bytes :=
  ln "[tailscale-stable]" ++ (repeat "x" (Z.to_nat 65536) ++ [nl])
  ++ ln "name=My own mirror".

(** The state in which the file [name] holds [data], no other file can be
    read, and nothing comes on standard input. *)
Definition oneFile (name : string) (data : bytes) : State :=
  setFile (b name) data (emptyState []).

(** The HEAD response of that server. *)
Definition resHead : Response := mkResponse 200 (b "200 OK") 3 (mkReader [] None).

Definition wantABC : bytes := sha256_Sum (b "abc").

(** ** Notions of the further properties *)

(** What [haveExecutable name] answers after the events [tr]. *)
Definition onPath (w : World) (tr : list Event) (name : string) : bool :=
  match LookPath w tr (b name) with
  | Ok path => negb (beq path [])
  | Err _ => false
  end.

(** The events of looking for [names] on the search path, in order. *)
Definition probes (names : list string) : list Event :=
  map (fun name => EvLookPath (b name)) names.

(** None of [names] is found when they are looked for in order after the
    events [tr]. *)
Fixpoint allMissing (w : World) (tr : list Event) (names : list string) : Prop :=
  match names with
  | [] => True
  | name :: names' =>
      onPath w tr name = false /\ allMissing w (tr ++ [EvLookPath (b name)]) names'
  end.

(** The package managers [newUpdater] looks for on Linux, each with the
    executor it stands for. *)
Definition linuxProbeOrder : list (string * Strategy.t) :=
  [("pacman"%string, Strategy.ArchLike);
   ("apt-get"%string, Strategy.DebLike);
   ("dnf"%string, Strategy.FedoraLike (b "dnf"));
   ("yum"%string, Strategy.FedoraLike (b "yum"))].

Definition unsupportedPlatform : error :=
  errorsNew "The 'update' command is not supported on this platform; see https://tailscale.com/s/client-updates".

Definition unknownTrack (track : bytes) : error :=
  Errorf "unknown track %q; must be 'stable' or 'unstable'" [argS track].

Definition malformedVersion (version : bytes) : error :=
  Errorf "malformed version %q" [argS version].

Definition unsupportedMac : error :=
  errorsNew "The 'update' command is not yet supported on this platform; see https://github.com/tailscale/tailscale/wiki/Tailscaled-on-macOS/ for now".

(** ** More inputs of the examples *)

(** A Debian machine with no package manager on the search path. *)
Definition debianBare : World :=
  exampleWorld (mkUpdateArgs false false false [] []) (b "linux") noEnv Debian
    notOnPath noNetwork quietRun.

(** Machines asked for a track "beta", and for the version "1.x.0". *)
Definition betaWorld : World :=
  exampleWorld (mkUpdateArgs false false false (b "beta") []) (b "linux") noEnv Debian
    notOnPath noNetwork quietRun.

Definition badVersionWorld : World :=
  exampleWorld (mkUpdateArgs false false false [] (b "1.x.0")) (b "linux") noEnv Debian
    notOnPath noNetwork quietRun.

(** A machine running FreeBSD, and a Mac with the standalone build. *)
Definition freebsdWorld : World :=
  exampleWorld (mkUpdateArgs false false false [] []) (b "freebsd") noEnv (otherDistro [])
    notOnPath noNetwork quietRun.

Definition macStandaloneWorld : World :=
  exampleWorld (mkUpdateArgs false false false [] []) (b "darwin") noEnv (otherDistro [])
    notOnPath noNetwork quietRun.

(** ** Notions of the further properties: what a run leaves behind *)







(** The file made of the lines [ls], each with its line feed. *)
Definition linesOf (ls : list bytes) : bytes :=
  concat (map (fun l => l ++ [nl]) ls).

(** A line of a file with Unix line endings. *)
Definition unixLine (l : bytes) : Prop := ~ In nl l /\ ~ In cr l.

(** An apt list of two lines, a comment and the repository. *)
Definition aptStableLines : list bytes :=
  [b "# Tailscale packages for ubuntu jammy";
   b "deb https://pkgs.tailscale.com/stable/ubuntu jammy main"].

Definition aptUnstableLines : list bytes :=
  [b "# Tailscale packages for ubuntu jammy";
   b "deb https://pkgs.tailscale.com/unstable/ubuntu jammy main"].

(** A repository file as the installer writes it, and the same on the
    unstable track. *)
Definition yumStable : bytes :=
  ln "[tailscale-stable]" ++ ln "name=Tailscale stable"
  ++ ln "baseurl=https://pkgs.tailscale.com/stable/fedora/$basearch"
  ++ ln "enabled=1" ++ ln "type=rpm" ++ ln "repo_gpgcheck=1" ++ ln "gpgcheck=0"
  ++ ln "gpgkey=https://pkgs.tailscale.com/stable/fedora/repo.gpg".

Definition yumUnstable : bytes :=
  ln "[tailscale-unstable]" ++ ln "name=Tailscale unstable"
  ++ ln "baseurl=https://pkgs.tailscale.com/unstable/fedora/$basearch"
  ++ ln "enabled=1" ++ ln "type=rpm" ++ ln "repo_gpgcheck=1" ++ ln "gpgcheck=0"
  ++ ln "gpgkey=https://pkgs.tailscale.com/unstable/fedora/repo.gpg".

(** A section of a repository file that is not Tailscale's. *)
Definition foreignSection (line : bytes) : Prop :=
  HasPrefix line (b "[") = true /\ HasPrefix line (b "[tailscale-") = false.

Definition unexpectedSection (repoFile line : bytes) : error :=
  Errorf "%q does not look like a tailscale repo file, it contains an unexpected %q section"
         [argS repoFile; argS line].

(** A repository file with a second section, of another vendor. *)
Definition yumTwoVendors : bytes :=
  ln "[tailscale-stable]" ++ ln "name=Tailscale stable" ++ ln "[epel]" ++ ln "name=EPEL".

(** What a rewriter that read [was] from [name] and computed [new] leaves
    behind when it reports [rewrote]: the file holds [new], no other
    file changed, and the file was written only if [new] differs. *)
Definition rewritten (name was new : bytes) (rewrote : bool) (s s' : State) : Prop :=
  files s name = Ok was /\
  rewrote = negb (beq was new) /\
  files s' name = Ok new /\
  (forall other, other <> name -> files s' other = files s other) /\
  trace s' = trace s ++ EvReadFile name :: (if rewrote then [EvWriteFile name new] else []).

(** The two commands of [installMSI]: installing the package [msi], and
    removing the version that is installed. *)
Definition msiInstall (w : World) (msi : bytes) : Cmd :=
  mkCmd (b "msiexec.exe")
        [b "/i"; filepath_Base w msi; b "/quiet"; b "/promptrestart"; b "/qn"]
        (filepath_Dir w msi) [].

Definition msiUninstall (w : World) : Cmd :=
  Command (b "msiexec.exe")
    [b "/x";
     msiUUIDForVersion w
       (if negb (beq (Getenv w (b "TS_DEBUG_UNINSTALL_VERSION")) [])
        then Getenv w (b "TS_DEBUG_UNINSTALL_VERSION")
        else version_Short w);
     b "/norestart"; b "/qn"].

(** A Windows machine where msiexec refuses to install and agrees to
    remove. *)
Definition downgradeRefused : World :=
  exampleWorld (mkUpdateArgs false false false [] []) (b "windows")
    (fun name => if beq name (b winMSIEnv) then b "tailscale-setup-1.42.0-amd64.msi" else [])
    (otherDistro []) notOnPath noNetwork
    (fun c => if beq (hd [] (Args c)) (b "/i")
              then ([], Err (extError "exit status 1603"))
              else ([], Ok tt)).

Definition pacmanNoVersion : error :=
  Errorf "could not find latest version of tailscale via pacman" [].

(** A digit or a dot. *)
Definition digitOrDot (c : ascii) : Prop := isDigit c = true \/ c = ".".


(* ================================================================= *)
(** * Properties *)

#[local] Arguments Ascii.eqb : simpl never.
#[local] Arguments b : simpl never.

(** ** Bytes and lists *)

Lemma beq_eq x y : beq x y = true <-> x = y.
Proof.
  revert y; induction x as [|c x IH]; intros [|d y]; simpl;
    try (split; (discriminate || reflexivity)).
  rewrite andb_true_iff, Ascii.eqb_eq, IH.
  split; [intros [-> ->]; reflexivity | intros [= -> ->]; auto].
Qed.

Lemma beq_refl x : beq x x = true.
Proof. apply beq_eq; reflexivity. Qed.

Lemma beq_neq x y : beq x y = false <-> x <> y.
Proof.
  rewrite <- beq_eq. destruct (beq x y); split; congruence.
Qed.

Lemma beq_nil_false x : x <> [] -> beq x [] = false.
Proof. intros H. now apply beq_neq. Qed.

Lemma beq_app_self_false (x y : bytes) : y <> [] -> beq x (x ++ y) = false.
Proof.
  intros Hy. apply beq_neq. intros H.
  apply (f_equal (@length ascii)) in H. rewrite length_app in H.
  destruct y; [congruence | simpl in H; lia].
Qed.

Lemma Ok_by_beq (r : result bytes) (x : bytes) :
  match r with Ok y => beq y x | Err _ => false end = true -> r = Ok x.
Proof.
  destruct r as [y|e]; [|discriminate]. intros H. apply beq_eq in H. now subst.
Qed.

Lemma HasPrefix_app s p : HasPrefix (p ++ s) p = true.
Proof. induction p as [|c p IH]; simpl; [reflexivity|]. now rewrite Ascii.eqb_refl. Qed.

Lemma HasPrefix_iff s p : HasPrefix s p = true <-> exists r, s = p ++ r.
Proof.
  revert s; induction p as [|c p IH]; intros s; simpl.
  - split; eauto.
  - destruct s as [|d s].
    + split; [discriminate | intros [r Hr]; discriminate].
    + rewrite andb_true_iff, Ascii.eqb_eq, IH. split.
      * intros [-> [r ->]]; eauto.
      * intros [r [= -> ->]]; eauto.
Qed.

(** A carriage return at the end of a line changes neither what the URL
    pattern finds in it nor whether it is a comment. *)
Lemma HasPrefix_snoc z w : ~ In z w ->
  forall s, HasPrefix (s ++ [z]) w = HasPrefix s w.
Proof.
  induction w as [|d w IH]; intros Hw s; [reflexivity|].
  destruct s as [|c s]; simpl.
  - destruct (Ascii.eqb z d) eqn:E; [|reflexivity].
    apply Ascii.eqb_eq in E. exfalso. apply Hw. now left.
  - rewrite IH by (intros Hin; apply Hw; now right). reflexivity.
Qed.

Lemma forallb_notIn (z : ascii) w :
  forallb (fun x => negb (Ascii.eqb x z)) w = true -> ~ In z w.
Proof.
  intros Hw Hin. rewrite forallb_forall in Hw. specialize (Hw _ Hin).
  now rewrite Ascii.eqb_refl in Hw.
Qed.

Lemma existsb_beq_In p occ : existsb (fun m => beq m p) occ = true <-> In p occ.
Proof.
  rewrite existsb_exists. split.
  - intros (m & Hin & E). apply beq_eq in E. now subst.
  - intros Hin. exists p. split; [assumption | apply beq_refl].
Qed.

Lemma last_cons (m : bytes) : forall a d, last (a :: m) d = last m a.
Proof.
  induction m as [|x m IH]; intros a d; [reflexivity|].
  change (last (a :: x :: m) d) with (last (x :: m) d).
  rewrite (IH x d), (IH x a). reflexivity.
Qed.

(** ** Cutting a version string at its dots *)

Lemma splitDots_nonempty s : splitDots s <> [].
Proof.
  destruct s as [|c s]; simpl; [discriminate|].
  destruct (Ascii.eqb c "."); [discriminate|].
  destruct (splitDots s); discriminate.
Qed.

Lemma Cut_dot s :
  match Cut s (b ".") with
  | (before, after, true) => splitDots s = before :: splitDots after
  | (before, after, false) => splitDots s = [s] /\ before = s /\ after = []
  end.
Proof.
  change (b ".") with ["."] in *.
  induction s as [|c s IH]; simpl; [auto|].
  destruct (Ascii.eqb c ".") eqn:E; simpl.
  - reflexivity.
  - destruct (Cut s ["."]) as [[before after] [|]].
    + rewrite IH. reflexivity.
    + destruct IH as (-> & _ & _). auto.
Qed.

Lemma rem2_even n : (Z.rem n 2 =? 0)%Z = Z.even n.
Proof.
  rewrite Zeven_mod. apply eq_true_iff_eq.
  rewrite !Z.eqb_eq. apply Z.rem_mod_eq_0. discriminate.
Qed.

Section VersionFacts.

Variable intSize : Z.

Lemma versionIsStable_components v :
  versionIsStable intSize v =
  match splitDots v with
  | _ :: minorStr :: _ :: _ =>
      match Atoi intSize minorStr with
      | Some minor => (Z.even minor, true)
      | None => (false, false)
      end
  | _ => (false, false)
  end.
Proof.
  unfold versionIsStable.
  pose proof (Cut_dot v) as H1.
  destruct (Cut v (b ".")) as [[major rest] [|]]; cbv beta iota; simpl negb; cbv iota.
  - rewrite H1.
    pose proof (Cut_dot rest) as H2.
    destruct (Cut rest (b ".")) as [[minorStr rest2] [|]]; cbv beta iota; simpl negb; cbv iota.
    + rewrite H2. pose proof (splitDots_nonempty rest2).
      destruct (splitDots rest2); [congruence|].
      destruct (Atoi intSize minorStr) as [minor|]; [|reflexivity].
      f_equal. apply rem2_even.
    + destruct H2 as (-> & _ & _). reflexivity.
  - destruct H1 as (-> & _ & _). reflexivity.
Qed.

End VersionFacts.

(** ** The scanner *)

Lemma rawLines_concat ls :
  Forall (fun l => ~ In nl l) ls ->
  rawLines (concat (map (fun l => l ++ [nl]) ls)) = ls.
Proof.
  induction 1 as [|l ls Hl HF IH]; simpl; [reflexivity|].
  induction l as [|c l IHl]; simpl.
  - rewrite IH. reflexivity.
  - destruct (Ascii.eqb c nl) eqn:E.
    + apply Ascii.eqb_eq in E. subst c. exfalso. apply Hl. now left.
    + rewrite IHl by (intros Hin; apply Hl; now right). reflexivity.
Qed.

Lemma rawLines_no_nl data : Forall (fun l => ~ In nl l) (rawLines data).
Proof.
  induction data as [|c data IH]; simpl; [constructor|].
  destruct (Ascii.eqb c nl) eqn:E.
  - constructor; [intros []| exact IH].
  - destruct (rawLines data) as [|l ls].
    + constructor; [|constructor]. intros [->|[]]. now rewrite Ascii.eqb_refl in E.
    + inversion IH as [|? ? Hl Hls]; subst. constructor; [|exact Hls].
      intros [->|Hin]; [now rewrite Ascii.eqb_refl in E | auto].
Qed.

Lemma dropCR_cases l : dropCR l = l \/ l = dropCR l ++ [cr].
Proof.
  induction l as [|c l IH]; [now left|].
  destruct l as [|d l].
  - simpl. destruct (Ascii.eqb c cr) eqn:E; [|now left].
    apply Ascii.eqb_eq in E. subst. now right.
  - change (dropCR (c :: d :: l)) with (c :: dropCR (d :: l)).
    destruct IH as [IH|IH]; [left; now rewrite IH | right].
    rewrite <- app_comm_cons. f_equal. exact IH.
Qed.

Lemma dropCR_In x l : In x (dropCR l) -> In x l.
Proof.
  destruct (dropCR_cases l) as [->| H]; [auto|].
  intros Hin. rewrite H. apply in_or_app. now left.
Qed.

Lemma scanTokens_fit ls :
  Forall (fun l => (len l < MaxScanTokenSize)%Z) ls ->
  scanTokens ls = map dropCR ls.
Proof.
  induction 1 as [|l ls Hl HF IH]; simpl; [reflexivity|].
  apply Z.ltb_lt in Hl. rewrite Hl, IH. reflexivity.
Qed.

Lemma scanTokens_no_nl ls :
  Forall (fun l => ~ In nl l) ls -> Forall (fun l => ~ In nl l) (scanTokens ls).
Proof.
  induction 1 as [|l ls Hl HF IH]; simpl; [constructor|].
  destruct (len l <? MaxScanTokenSize)%Z; constructor; [|exact IH].
  intros Hin. apply Hl. now apply dropCR_In.
Qed.

Lemma scanLines_no_nl data : Forall (fun l => ~ In nl l) (scanLines data).
Proof. apply scanTokens_no_nl, rawLines_no_nl. Qed.

(** ** Search at successive positions *)

Lemma replaceAllFrom_state {St} re (repl : bytes -> St -> bytes * St) src :
  forall before skip st,
    snd (replaceAllFrom re repl before skip src st) =
    fold_left (fun st m => snd (repl m st)) (findAllFrom re before skip src) st.
Proof.
  induction src as [|c rest IH]; intros before skip st; simpl; [reflexivity|].
  destruct skip as [|k]; [|apply IH].
  destruct (re before (c :: rest)) as [m|].
  - simpl. destruct (repl m st) as [r st1] eqn:E.
    specialize (IH (Some c) (length m - 1)%nat st1).
    destruct (replaceAllFrom re repl (Some c) (length m - 1) rest st1) as [out st2].
    simpl in *. exact IH.
  - specialize (IH (Some c) 0%nat st).
    destruct (replaceAllFrom re repl (Some c) 0 rest st) as [out st1].
    simpl in *. exact IH.
Qed.

Lemma lastOr_cons c m before : lastOr (c :: m) before = lastOr m (Some c).
Proof. destruct m as [|a m]; [reflexivity|]. simpl lastOr. f_equal. apply last_cons. Qed.

Lemma replaceAllFrom_skip {St} re (repl : bytes -> St -> bytes * St) m :
  forall before rest st,
    replaceAllFrom re repl before (length m) (m ++ rest) st =
    replaceAllFrom re repl (lastOr m before) 0 rest st.
Proof.
  induction m as [|c m IH]; intros before rest st; [reflexivity|].
  simpl app. simpl length. cbn [replaceAllFrom]. rewrite IH.
  now rewrite lastOr_cons.
Qed.

Lemma findAllFrom_skip re m :
  forall before rest,
    findAllFrom re before (length m) (m ++ rest) = findAllFrom re (lastOr m before) 0 rest.
Proof.
  induction m as [|c m IH]; intros before rest; [reflexivity|].
  simpl app. simpl length. cbn [findAllFrom]. rewrite IH.
  now rewrite lastOr_cons.
Qed.

(** ** The URL pattern in a line of the apt list *)

Lemma trackURL_cases t :
  trackURL (trackName t) = stableURL \/ trackURL (trackName t) = unstableURL.
Proof. destruct t; [left | right]; reflexivity. Qed.

Lemma pkgsURL_inv before s m :
  pkgsURL before s = Some m ->
  (m = stableURL \/ m = unstableURL) /\
  (exists rest, s = m ++ rest) /\
  wordBoundary before (Some "h") = true.
Proof.
  unfold pkgsURL. intros H.
  destruct (wordBoundary before (hd_error s)) eqn:Hb; [|discriminate].
  destruct (HasPrefix s (b "https://pkgs.tailscale.com/unstable/")) eqn:Hu.
  - injection H as <-. apply HasPrefix_iff in Hu. destruct Hu as [r ->].
    repeat split; [now right | now exists r | exact Hb].
  - destruct (HasPrefix s (b "https://pkgs.tailscale.com/stable/")) eqn:Hs; [|discriminate].
    injection H as <-. apply HasPrefix_iff in Hs. destruct Hs as [r ->].
    repeat split; [now left | now exists r | exact Hb].
Qed.

Lemma pkgsURL_at_track p X before :
  p = stableURL \/ p = unstableURL ->
  wordBoundary before (Some "h") = true ->
  pkgsURL before (p ++ X) = Some p.
Proof.
  intros [-> | ->] Hb; unfold pkgsURL; simpl hd_error; rewrite Hb; reflexivity.
Qed.

Lemma apt_fst_indep p src : forall before skip v v',
  fst (replaceAllFrom pkgsURL (aptRepl p) before skip src v) =
  fst (replaceAllFrom pkgsURL (aptRepl p) before skip src v').
Proof.
  induction src as [|c rest IH]; intros before skip v v'; [reflexivity|].
  cbn [replaceAllFrom]. destruct skip as [|k]; [|apply IH].
  destruct (pkgsURL before (c :: rest)) as [m|].
  - unfold aptRepl. 
    destruct (beq m p).
    all: repeat match goal with
         | |- context [replaceAllFrom ?a ?b ?c ?d ?e ?f] =>
             let o := fresh "o" in let w := fresh "w" in let E := fresh "E" in
             destruct (replaceAllFrom a b c d e f) as [o w] eqn:E
         end; simpl.
    all: f_equal.
    all: match goal with
         | E1 : replaceAllFrom _ _ _ _ _ ?v1 = (?o1, _),
           E2 : replaceAllFrom _ _ _ _ _ ?v2 = (?o2, _) |- ?o1 = ?o2 =>
             change o1 with (fst (o1, w)); rewrite <- E1;
             change o2 with (fst (o2, w0)); rewrite <- E2; apply IH
         end.
  - specialize (IH (Some c) 0%nat v v').
    destruct (replaceAllFrom pkgsURL (aptRepl p) (Some c) 0 rest v);
    destruct (replaceAllFrom pkgsURL (aptRepl p) (Some c) 0 rest v'); simpl in *.
    now f_equal.
Qed.

Lemma lastOr_URL m before :
  m = stableURL \/ m = unstableURL -> lastOr m before = Some "/".
Proof. intros [-> | ->]; reflexivity. Qed.

Lemma URL_head m :
  m = stableURL \/ m = unstableURL -> exists m', m = "h" :: m'.
Proof. intros [-> | ->]; eexists; reflexivity. Qed.

Lemma aptRewrite_match p before m rest :
  pkgsURL before (m ++ rest) = Some m ->
  aptRewrite p before (m ++ rest) = p ++ aptRewrite p (Some "/") rest.
Proof.
  intros H. destruct (pkgsURL_inv _ _ _ H) as (Hm & _ & _).
  destruct (URL_head _ Hm) as [m' ->].
  unfold aptRewrite. simpl app in *. cbn [replaceAllFrom]. rewrite H.
  replace (length ("h" :: m') - 1)%nat with (length m') by (simpl; lia).
  unfold aptRepl.
  destruct (beq ("h" :: m') p); cbv beta iota;
    rewrite replaceAllFrom_skip, <- (lastOr_cons "h" m' before), (lastOr_URL _ _ Hm);
    rewrite (surjective_pairing (replaceAllFrom _ _ _ _ _ _)); simpl;
    f_equal; apply apt_fst_indep.
Qed.

Lemma aptRewrite_nomatch p before c rest :
  pkgsURL before (c :: rest) = None ->
  aptRewrite p before (c :: rest) = c :: aptRewrite p (Some c) rest.
Proof.
  intros H. unfold aptRewrite. cbn [replaceAllFrom]. rewrite H.
  rewrite (surjective_pairing (replaceAllFrom _ _ _ _ _ _)). reflexivity.
Qed.

Lemma findAllFrom_match before m rest :
  pkgsURL before (m ++ rest) = Some m ->
  findAllFrom pkgsURL before 0 (m ++ rest) = m :: findAllFrom pkgsURL (Some "/") 0 rest.
Proof.
  intros H. destruct (pkgsURL_inv _ _ _ H) as (Hm & _ & _).
  destruct (URL_head _ Hm) as [m' ->].
  simpl app in *. cbn [findAllFrom]. rewrite H.
  replace (length ("h" :: m') - 1)%nat with (length m') by (simpl; lia).
  rewrite findAllFrom_skip, <- (lastOr_cons "h" m' before), (lastOr_URL _ _ Hm).
  reflexivity.
Qed.

Lemma findAllFrom_nomatch before c rest :
  pkgsURL before (c :: rest) = None ->
  findAllFrom pkgsURL before 0 (c :: rest) = findAllFrom pkgsURL (Some c) 0 rest.
Proof. intros H. cbn [findAllFrom]. now rewrite H. Qed.

(** A text without the letter h that the rewritten line starts with was
    there before the rewriting: what the rewriting puts in starts with h. *)
Lemma aptRewrite_prefix p' w :
  ~ In "h" w ->
  forall src before,
    HasPrefix (aptRewrite ("h" :: p') before src) w = true -> HasPrefix src w = true.
Proof.
  induction w as [|d w IH]; intros Hw src before H; [reflexivity|].
  destruct src as [|c rest]; [discriminate H|].
  destruct (pkgsURL before (c :: rest)) as [m|] eqn:E.
  - destruct (pkgsURL_inv _ _ _ E) as (_ & [r Hr] & _).
    rewrite Hr in E, H. rewrite (aptRewrite_match _ _ _ _ E) in H.
    simpl in H. apply andb_true_iff in H. destruct H as [H _].
    apply Ascii.eqb_eq in H. exfalso. apply Hw. now left.
  - rewrite (aptRewrite_nomatch _ _ _ _ E) in H. simpl in H |- *.
    apply andb_true_iff in H. destruct H as [H1 H2]. rewrite H1. simpl.
    apply (IH (fun Hin => Hw (or_intror Hin)) _ _ H2).
Qed.

Lemma pkgsURL_none_after p before c rest :
  p = stableURL \/ p = unstableURL ->
  pkgsURL before (c :: rest) = None ->
  pkgsURL before (c :: aptRewrite p (Some c) rest) = None.
Proof.
  intros Hp H. destruct (URL_head _ Hp) as [p' Ep].
  unfold pkgsURL in *. simpl hd_error in *.
  destruct (wordBoundary before (Some c)); [|reflexivity].
  assert (Hpre : forall w, ~ In "h" w ->
            HasPrefix (c :: rest) ("h" :: w) = false ->
            HasPrefix (c :: aptRewrite p (Some c) rest) ("h" :: w) = false).
  { intros w Hw Hf. simpl in *. destruct (Ascii.eqb c "h"); [|reflexivity].
    simpl in *. apply not_true_is_false. intros Ht. rewrite Ep in Ht.
    apply (aptRewrite_prefix _ _ Hw) in Ht. congruence. }
  assert (Hnoh : forall w, forallb (fun x => negb (Ascii.eqb x "h")) w = true -> ~ In "h" w).
  { intros w Hw Hin. rewrite forallb_forall in Hw. specialize (Hw _ Hin).
    now rewrite Ascii.eqb_refl in Hw. }
  destruct (HasPrefix (c :: rest) (b "https://pkgs.tailscale.com/unstable/")) eqn:Hu;
    [discriminate|].
  destruct (HasPrefix (c :: rest) (b "https://pkgs.tailscale.com/stable/")) eqn:Hs;
    [discriminate|].
  change (b "https://pkgs.tailscale.com/unstable/")
    with ("h" :: b "ttps://pkgs.tailscale.com/unstable/") in *.
  change (b "https://pkgs.tailscale.com/stable/")
    with ("h" :: b "ttps://pkgs.tailscale.com/stable/") in *.
  rewrite (Hpre (b "ttps://pkgs.tailscale.com/unstable/")) by (apply Hnoh || exact Hu; reflexivity).
  rewrite (Hpre (b "ttps://pkgs.tailscale.com/stable/")) by (apply Hnoh || exact Hs; reflexivity).
  reflexivity.
Qed.

(** The occurrences in a rewritten line: as many as before, each on the
    wanted track. *)
Lemma findAll_aptRewrite p :
  p = stableURL \/ p = unstableURL ->
  forall n src before, (length src <= n)%nat ->
    findAllFrom pkgsURL before 0 (aptRewrite p before src) =
    map (fun _ => p) (findAllFrom pkgsURL before 0 src).
Proof.
  intros Hp. induction n as [|n IH]; intros src before Hn.
  - destruct src; [reflexivity | simpl in Hn; lia].
  - destruct src as [|c rest]; [reflexivity|].
    destruct (pkgsURL before (c :: rest)) as [m|] eqn:E.
    + destruct (pkgsURL_inv _ _ _ E) as (Hm & [r Hr] & Hb).
      rewrite Hr in E |- *.
      rewrite (aptRewrite_match _ _ _ _ E), (findAllFrom_match _ _ _ E).
      rewrite (findAllFrom_match _ _ _ (pkgsURL_at_track _ _ _ Hp Hb)).
      simpl. f_equal. apply IH.
      destruct (URL_head _ Hm) as [m' ->].
      rewrite Hr in Hn. simpl in Hn. rewrite length_app in Hn. lia.
    + rewrite (aptRewrite_nomatch _ _ _ _ E), (findAllFrom_nomatch _ _ _ E).
      rewrite (findAllFrom_nomatch _ _ _ (pkgsURL_none_after _ _ _ _ Hp E)).
      apply IH. simpl in Hn. lia.
Qed.

Lemma commentLine_aptRewrite p' src : forall before,
  commentLine_Match (aptRewrite ("h" :: p') before src) = commentLine_Match src.
Proof.
  induction src as [|c rest IH]; intros before; [reflexivity|].
  destruct (pkgsURL before (c :: rest)) as [m|] eqn:E.
  - destruct (pkgsURL_inv _ _ _ E) as (Hm & [r Hr] & _).
    rewrite Hr in E |- *. rewrite (aptRewrite_match _ _ _ _ E).
    destruct (URL_head _ Hm) as [m' ->]. reflexivity.
  - rewrite (aptRewrite_nomatch _ _ _ _ E). simpl. now rewrite IH.
Qed.

Lemma aptRewrite_In p x src : forall before skip v,
  In x (fst (replaceAllFrom pkgsURL (aptRepl p) before skip src v)) ->
  In x src \/ In x p.
Proof.
  induction src as [|c rest IH]; intros before skip v H; [now left|].
  cbn [replaceAllFrom] in H. destruct skip as [|k].
  - destruct (pkgsURL before (c :: rest)) as [m|].
    + assert (E : exists v1, aptRepl p m v = (p, v1))
        by (unfold aptRepl; destruct (beq m p); eauto).
      destruct E as [v1 E]. rewrite E in H.
      rewrite (surjective_pairing (replaceAllFrom _ _ _ _ _ _)) in H. simpl in H.
      apply in_app_or in H. destruct H as [H|H]; [now right|].
      apply IH in H. destruct H; [left; now right | now right].
    + rewrite (surjective_pairing (replaceAllFrom _ _ _ _ _ _)) in H. simpl in H.
      destruct H as [->|H]; [left; now left|].
      apply IH in H. destruct H; [left; now right | now right].
  - apply IH in H. destruct H; [left; now right | now right].
Qed.

Lemma pkgsURL_snoc_cr before c rest :
  pkgsURL before ((c :: rest) ++ [cr]) = pkgsURL before (c :: rest).
Proof.
  assert (Hno : forall w, forallb (fun x => negb (Ascii.eqb x cr)) w = true -> ~ In cr w).
  { intros w Hw Hin. rewrite forallb_forall in Hw. specialize (Hw _ Hin).
    now rewrite Ascii.eqb_refl in Hw. }
  unfold pkgsURL. simpl hd_error.
  rewrite !HasPrefix_snoc by (apply Hno; reflexivity). reflexivity.
Qed.

Lemma findAllFrom_snoc_cr src : forall before skip,
  findAllFrom pkgsURL before skip (src ++ [cr]) = findAllFrom pkgsURL before skip src.
Proof.
  induction src as [|c rest IH]; intros before skip.
  - destruct skip; [|reflexivity]. simpl.
    unfold pkgsURL. destruct (wordBoundary before (hd_error [cr])); reflexivity.
  - change ((c :: rest) ++ [cr]) with (c :: (rest ++ [cr])).
    cbn [findAllFrom]. destruct skip; [|apply IH].
    change (c :: (rest ++ [cr])) with ((c :: rest) ++ [cr]).
    rewrite pkgsURL_snoc_cr. destruct (pkgsURL before (c :: rest)); now rewrite IH.
Qed.

Lemma commentLine_snoc_cr src :
  commentLine_Match (src ++ [cr]) = commentLine_Match src.
Proof.
  induction src as [|c rest IH]; [reflexivity|]. simpl. now rewrite IH.
Qed.

Lemma FindAll_dropCR l : FindAll pkgsURL (dropCR l) = FindAll pkgsURL l.
Proof.
  destruct (dropCR_cases l) as [-> | H]; [reflexivity|].
  rewrite H at 2. unfold FindAll. now rewrite findAllFrom_snoc_cr.
Qed.

Lemma commentLine_dropCR l : commentLine_Match (dropCR l) = commentLine_Match l.
Proof.
  destruct (dropCR_cases l) as [-> | H]; [reflexivity|].
  rewrite H at 2. now rewrite commentLine_snoc_cr.
Qed.

(** ** The loop over the lines of the apt list *)

Section Apt.

Variable p : bytes.   (* trackURLPrefix *)

Lemma aptLine_vars line v :
  snd (aptLine p line v) =
  fold_left (aptStep p) (lineOccurrences line) v.
Proof.
  unfold aptLine, lineOccurrences. destruct (commentLine_Match line); simpl; [reflexivity|].
  unfold ReplaceAllFunc, FindAll.
  pose proof (replaceAllFrom_state pkgsURL (aptRepl p) line None 0 v) as H.
  destruct (replaceAllFrom pkgsURL (aptRepl p) None 0 line v); simpl in *. exact H.
Qed.

Lemma aptLoop_vars tokens : forall buf v,
  snd (aptLoop p tokens buf v) =
  fold_left (aptStep p)
    (flat_map lineOccurrences tokens) v.
Proof.
  induction tokens as [|line tokens IH]; intros buf v; simpl; [reflexivity|].
  pose proof (aptLine_vars line v) as H.
  destruct (aptLine p line v) as [out v']. simpl in H.
  rewrite IH, fold_left_app, H. reflexivity.
Qed.

Lemma aptStep_fold occ : forall v,
  let v' := fold_left (aptStep p) occ v in
  hadCorrect v' = hadCorrect v || existsb (fun m => beq m p) occ /\
  changes v' = (changes v + Z.of_nat (length (filter (fun m => negb (beq m p)) occ)))%Z.
Proof.
  induction occ as [|m occ IH]; intros v; simpl.
  - rewrite orb_false_r. split; [reflexivity | lia].
  - destruct (IH (aptStep p v m)) as [H1 H2]. rewrite H1, H2.
    unfold aptStep, aptRepl. destruct (beq m p); simpl.
    + split; [destruct (hadCorrect v); reflexivity | lia].
    + split; [reflexivity | lia].
Qed.

End Apt.

Lemma apt_vars was dstTrack :
  let r := aptLoop (trackURL dstTrack) (scanLines was) [] (mkAptVars false 0) in
  hadCorrect (snd r) = existsb (fun m => beq m (trackURL dstTrack)) (aptOccurrences was) /\
  changes (snd r) = Z.of_nat (length (aptToChange was dstTrack)).
Proof.
  intros r. unfold r. rewrite aptLoop_vars.
  destruct (aptStep_fold (trackURL dstTrack) (aptOccurrences was) (mkAptVars false 0))
    as [H1 H2].
  split; [exact H1 | exact H2].
Qed.

Lemma aptLine_fst p line v : fst (aptLine p line v) = aptOut p line ++ [nl].
Proof.
  unfold aptLine, aptOut, aptRewrite, ReplaceAllFunc.
  destruct (commentLine_Match line); simpl; [reflexivity|].
  rewrite (surjective_pairing (replaceAllFrom _ _ _ _ _ _)). simpl.
  f_equal. apply apt_fst_indep.
Qed.

Lemma aptLoop_fst p tokens : forall buf v,
  fst (aptLoop p tokens buf v) = buf ++ concat (map (fun l => aptOut p l ++ [nl]) tokens).
Proof.
  induction tokens as [|line tokens IH]; intros buf v; simpl.
  - now rewrite app_nil_r.
  - pose proof (aptLine_fst p line v) as H.
    destruct (aptLine p line v) as [out v']. simpl in H.
    rewrite IH, H. simpl. now rewrite <- !app_assoc.
Qed.

Lemma aptOut_no_nl p line : ~ In nl p -> ~ In nl line -> ~ In nl (aptOut p line).
Proof.
  intros Hp Hl. unfold aptOut, aptRewrite.
  destruct (commentLine_Match line); [exact Hl|].
  intros Hin. apply aptRewrite_In in Hin. tauto.
Qed.

Lemma lineOccurrences_aptOut p line :
  p = stableURL \/ p = unstableURL ->
  lineOccurrences (dropCR (aptOut p line)) = map (fun _ => p) (lineOccurrences line).
Proof.
  intros Hp. unfold lineOccurrences, aptOut.
  rewrite commentLine_dropCR, FindAll_dropCR.
  destruct (commentLine_Match line) eqn:E; [now rewrite E|].
  destruct (URL_head _ Hp) as [p' Ep].
  rewrite Ep at 1. rewrite commentLine_aptRewrite, E.
  unfold FindAll. apply (findAll_aptRewrite _ Hp (length line)). lia.
Qed.

Lemma aptOccurrences_rewritten p tokens :
  p = stableURL \/ p = unstableURL ->
  Forall (fun l => ~ In nl l) tokens ->
  let buf := concat (map (fun l => aptOut p l ++ [nl]) tokens) in
  fitsScanner buf ->
  aptOccurrences buf = map (fun _ => p) (flat_map lineOccurrences tokens).
Proof.
  intros Hp Hnl buf Hfit. unfold fitsScanner in Hfit.
  assert (Hraw : rawLines buf = map (aptOut p) tokens).
  { unfold buf. rewrite <- (map_map (aptOut p) (fun l => l ++ [nl])).
    apply rawLines_concat. rewrite Forall_map.
    eapply Forall_impl; [|exact Hnl]. intros l Hl.
    apply aptOut_no_nl; [|exact Hl].
    destruct Hp as [-> | ->]; apply forallb_notIn; reflexivity. }
  unfold aptOccurrences, scanLines. rewrite Hraw in Hfit |- *.
  rewrite (scanTokens_fit _ Hfit), map_map.
  clear - Hp. induction tokens as [|l tokens IH]; [reflexivity|].
  simpl. rewrite map_app, <- IH. f_equal.
  apply (lineOccurrences_aptOut p l Hp).
Qed.

(** The apt rewriter, applied to what it returned, returns it again. *)
Lemma apt_idempotent (t : Track) (was out : bytes) :
  fitsScanner out ->
  updateDebianAptSourcesListBytes was (trackName t) = Ok out ->
  updateDebianAptSourcesListBytes out (trackName t) = Ok out.
Proof.
  intros Hfit H. pose proof H as H0.
  unfold updateDebianAptSourcesListBytes in H.
  fold (trackURL (trackName t)) in H.
  destruct (apt_vars was (trackName t)) as [Hc Hn]. cbv zeta in Hc, Hn.
  pose proof (aptLoop_fst (trackURL (trackName t)) (scanLines was) []
                (mkAptVars false 0)) as Hbuf.
  destruct (aptLoop (trackURL (trackName t)) (scanLines was) [] (mkAptVars false 0))
    as [buf v]. simpl in Hc, Hn, Hbuf.
  destruct (hadCorrect v || ((changes v =? 1)%Z && beq (TrimSpace was) (TrimSpace buf))).
  - (* the input came back: the second call is the first one *)
    injection H as <-. exact H0.
  - destruct (changes v =? 1)%Z eqn:E1; simpl in H; [|discriminate].
    injection H as <-. apply Z.eqb_eq in E1.
    (* the one occurrence is now on the wanted track *)
    assert (Hocc : aptOccurrences buf =
                   map (fun _ => trackURL (trackName t)) (aptOccurrences was)).
    { rewrite Hbuf. apply aptOccurrences_rewritten.
      - apply trackURL_cases.
      - apply scanLines_no_nl.
      - rewrite <- Hbuf. exact Hfit. }
    assert (Hin : In (trackURL (trackName t)) (aptOccurrences buf)).
    { rewrite Hocc. unfold aptToChange in Hn.
      destruct (aptOccurrences was) as [|m occ]; [simpl in Hn; lia | now left]. }
    unfold updateDebianAptSourcesListBytes. fold (trackURL (trackName t)).
    destruct (apt_vars buf (trackName t)) as [Hc2 _]. cbv zeta in Hc2.
    destruct (aptLoop (trackURL (trackName t)) (scanLines buf) [] (mkAptVars false 0))
      as [buf2 v2]. simpl in Hc2.
    apply existsb_beq_In in Hin. rewrite Hc2, Hin. reflexivity.
Qed.

(** ** The loop over the lines of the yum repository file *)

Lemma yumLoop_outs repoFile t tokens : forall acc out,
  yumLoop repoFile t tokens acc = Ok out ->
  exists outs,
    Forall2 (fun line o => yumLine repoFile t line = Ok o) tokens outs /\
    out = acc ++ concat outs.
Proof.
  induction tokens as [|line tokens IH]; intros acc out H; simpl in H.
  - injection H as <-. exists []. split; [constructor | now rewrite app_nil_r].
  - destruct (yumLine repoFile t line) as [o|e] eqn:E; [|discriminate].
    destruct (IH _ _ H) as (outs & HF & ->).
    exists (o :: outs). split; [constructor; assumption|].
    simpl. now rewrite app_assoc.
Qed.

Lemma yumLoop_of_outs repoFile t tokens outs : forall acc,
  Forall2 (fun line o => yumLine repoFile t line = Ok o) tokens outs ->
  yumLoop repoFile t tokens acc = Ok (acc ++ concat outs).
Proof.
  intros acc H. revert acc.
  induction H as [|line o tokens outs Hl HF IH]; intros acc; simpl.
  - now rewrite app_nil_r.
  - rewrite Hl, IH, app_assoc. reflexivity.
Qed.

Lemma yumLine_name repoFile t line :
  HasPrefix line (b "name=") = true ->
  yumLine repoFile t line = Ok (b "name=Tailscale " ++ trackName t ++ [nl]).
Proof.
  intros H. unfold yumLine. rewrite H.
  apply HasPrefix_iff in H. destruct H as [r ->]. reflexivity.
Qed.

Lemma urlRe_match_rewritten g tr t rest :
  In (g, tr) [(b "baseurl", b "unstable"); (b "baseurl", b "stable");
              (b "gpgkey", b "unstable"); (b "gpgkey", b "stable")] ->
  urlRe_match (g ++ b "=https://pkgs.tailscale.com/" ++ trackName t ++ b "/" ++ rest)
  = Some (g, rest).
Proof.
  intros H. simpl in H.
  destruct H as [H|[H|[H|[H|[]]]]]; injection H as <- <-; destruct t; reflexivity.
Qed.

Lemma urlRe_try_inv line alts g rest :
  urlRe_try line alts = Some (g, rest) ->
  exists tr, In (g, tr) alts /\
             line = g ++ b "=https://pkgs.tailscale.com/" ++ tr ++ b "/" ++ rest.
Proof.
  induction alts as [|[g' tr'] alts IH]; cbn [urlRe_try]; [discriminate|].
  destruct (HasPrefix line (g' ++ b "=https://pkgs.tailscale.com/" ++ tr' ++ b "/")) eqn:E.
  - intros H. assert (Hg : g' = g) by congruence.
    assert (Hr : skipn (length (g' ++ b "=https://pkgs.tailscale.com/" ++ tr' ++ b "/")) line
                 = rest) by congruence.
    subst g'. exists tr'. split; [now left|].
    apply HasPrefix_iff in E. destruct E as [r ->].
    rewrite skipn_app, skipn_all, Nat.sub_diag in Hr. simpl in Hr. subst r.
    now rewrite <- !app_assoc.
  - intros H. destruct (IH H) as (tr & Hin & ->). exists tr. split; [now right | reflexivity].
Qed.

Lemma urlRe_ReplaceAllString_idempotent t line :
  ~ In nl line ->
  HasPrefix line (b "baseurl=") || HasPrefix line (b "gpgkey=") = true ->
  let o' := urlRe_ReplaceAllString line t in
  ~ In nl o' /\
  ((0 <? len o')%Z && HasPrefix o' (b "[") = false) /\
  HasPrefix o' (b "name=") = false /\
  HasPrefix o' (b "baseurl=") || HasPrefix o' (b "gpgkey=") = true /\
  urlRe_ReplaceAllString o' t = o'.
Proof.
  intros Hnl Hpre o'. unfold o', urlRe_ReplaceAllString.
  destruct (urlRe_match line) as [[g rest]|] eqn:E.
  - destruct (urlRe_try_inv _ _ _ _ E) as (tr & Hin & Hline).
    assert (Hrest : ~ In nl rest).
    { intros Hr. apply Hnl. rewrite Hline. rewrite !in_app_iff. tauto. }
    rewrite (urlRe_match_rewritten g tr t rest Hin).
    simpl in Hin.
    destruct Hin as [H|[H|[H|[H|[]]]]]; injection H as <- <-;
      (split; [destruct t; simpl; intros Hx;
               repeat (destruct Hx as [Hx|Hx]; [discriminate Hx|]); auto|]);
      destruct t; repeat split; reflexivity.
  - rewrite E. split; [exact Hnl|].
    apply orb_true_iff in Hpre.
    destruct Hpre as [H|H]; apply HasPrefix_iff in H; destruct H as [r ->];
      repeat split; reflexivity.
Qed.

(** The lines the loop goes through are those of the file when each is
    short enough for the scanner. *)
Lemma yumLoop_lines repoFile t was out :
  fitsScanner was ->
  yumNewContent repoFile was t = Ok out ->
  exists outs,
    out = concat outs /\
    Forall2 (fun line o => yumLine repoFile t (dropCR line) = Ok o) (rawLines was) outs.
Proof.
  intros Hfit H. unfold yumNewContent, scanLines in H.
  rewrite (scanTokens_fit _ Hfit) in H.
  apply yumLoop_outs in H. destruct H as (outs & HF & ->).
  exists outs. split; [reflexivity|].
  revert outs HF. generalize (rawLines was) as ls.
  induction ls as [|l ls IH]; intros outs HF; inversion HF; subst; constructor; auto.
Qed.

Lemma HasPrefix_dropCR l w :
  ~ In cr w -> HasPrefix (dropCR l) w = HasPrefix l w.
Proof.
  intros Hw. destruct (dropCR_cases l) as [-> | H]; [reflexivity|].
  rewrite H at 2. symmetry. now apply HasPrefix_snoc.
Qed.

(** What the loop writes for a line is a line that it would write back
    as it is. *)
Lemma yumLine_idempotent repoFile t line o :
  ~ In nl line ->
  yumLine repoFile t line = Ok o ->
  exists o', o = o' ++ [nl] /\ ~ In nl o' /\ yumLine repoFile t o' = Ok o.
Proof.
  intros Hnl H. pose proof H as H0. unfold yumLine in H.
  destruct ((0 <? len line)%Z && HasPrefix line (b "[")).
  { destruct (negb (HasPrefix line (b "[tailscale-"))); [discriminate|].
    injection H as <-. exists (b "[tailscale-" ++ trackName t ++ b "]").
    split; [now rewrite <- !app_assoc|].
    split; [destruct t; apply forallb_notIn; reflexivity | destruct t; reflexivity]. }
  destruct (HasPrefix line (b "name=")).
  { injection H as <-. exists (b "name=Tailscale " ++ trackName t).
    split; [reflexivity|].
    split; [destruct t; apply forallb_notIn; reflexivity | destruct t; reflexivity]. }
  destruct (HasPrefix line (b "baseurl=") || HasPrefix line (b "gpgkey=")) eqn:E.
  { injection H as <-. exists (urlRe_ReplaceAllString line t).
    destruct (urlRe_ReplaceAllString_idempotent t line Hnl E) as (H1 & H2 & H3 & H4 & H5).
    split; [reflexivity|]. split; [exact H1|].
    unfold yumLine. rewrite H2, H3, H4, H5. reflexivity. }
  injection H as <-. exists line. auto.
Qed.

(** The yum rewriting loop, applied to what it returned, returns it again
    when the scanner reads that back line for line. *)
Lemma yum_idempotent (repoFile : bytes) (t : Track) (was out : bytes) :
  fitsScanner out -> noTrailingCR out ->
  yumNewContent repoFile was t = Ok out ->
  yumNewContent repoFile out t = Ok out.
Proof.
  intros Hfit Hcr H. unfold yumNewContent in *.
  apply yumLoop_outs in H. destruct H as (outs & HF & ->). simpl in *.
  assert (Hlines : exists ls,
             outs = map (fun l => l ++ [nl]) ls /\
             Forall (fun l => ~ In nl l) ls /\
             Forall2 (fun line o => yumLine repoFile t line = Ok o) ls outs).
  { pose proof (scanLines_no_nl was) as Hnl. clear Hfit Hcr.
    induction HF as [|line o tokens outs' Hl HF IH].
    - exists []. repeat split; constructor.
    - inversion Hnl as [|? ? Hnl1 Hnl2]; subst.
      destruct (IH Hnl2) as (ls & -> & Hls & HF2).
      destruct (yumLine_idempotent _ _ _ _ Hnl1 Hl) as (o' & -> & Ho' & Hy).
      exists (o' :: ls). repeat split; constructor; assumption. }
  destruct Hlines as (ls & -> & Hls & HF2).
  unfold fitsScanner, noTrailingCR in *. unfold scanLines.
  rewrite (rawLines_concat _ Hls) in *.
  rewrite (scanTokens_fit _ Hfit).
  replace (map dropCR ls) with ls.
  - apply (yumLoop_of_outs _ _ _ _ [] HF2).
  - clear - Hcr. induction Hcr as [|l ls Hl _ IH]; simpl; congruence.
Qed.

(** ** Reading the operator's answer *)

Lemma asciiSpace_cases c :
  asciiSpace c = true ->
  c = tab \/ c = nl \/ c = vt \/ c = ff \/ c = cr \/ c = " ".
Proof.
  unfold asciiSpace. rewrite !orb_true_iff, !Ascii.eqb_eq. tauto.
Qed.

Lemma asciiSpace_ascii c : asciiSpace c = true -> (nat_of_ascii c < 128)%nat.
Proof.
  intros H. apply asciiSpace_cases in H.
  destruct H as [-> | [-> | [-> | [-> | [-> | ->]]]]]; vm_compute; lia.
Qed.

Lemma readRune_ascii c r err :
  (nat_of_ascii c < 128)%nat -> readRune (c :: r) err = rune [c] (asciiSpace c) 1 1.
Proof.
  intros H. unfold readRune, utf8Lead. apply Nat.ltb_lt in H. now rewrite H.
Qed.

Lemma beq_one c d : beq [c] [d] = Ascii.eqb c d.
Proof. simpl. apply andb_true_r. Qed.

Lemma scanSpaces_blank err lead : forall x,
  Forall blank lead -> scanSpaces (lead ++ x) err 0 0 = scanSpaces x err 0 0.
Proof.
  induction lead as [|c lead IH]; intros x H; [reflexivity|].
  inversion H as [|? ? [Hc Hn] Hl]; subst.
  simpl app. cbn [scanSpaces]. rewrite (readRune_ascii _ _ _ (asciiSpace_ascii _ Hc)).
  rewrite beq_one, Hc.
  replace (Ascii.eqb c nl) with false
    by (symmetry; apply Ascii.eqb_neq; exact Hn).
  cbn [Nat.max Nat.sub]. now apply IH.
Qed.




Lemma scanSpaces_plain err c x :
  plain c -> scanSpaces (c :: x) err 0 0 = scanWord (c :: x) err 0 1 [].
Proof.
  intros [Hc Hn]. cbn [scanSpaces]. rewrite (readRune_ascii _ _ _ Hc), Hn, beq_one.
  replace (Ascii.eqb c nl) with false; [reflexivity|].
  symmetry. apply Ascii.eqb_neq. intros ->. discriminate Hn.
Qed.



(** ** The dispatcher, the confirmation gate, two executors *)

(** On Linux a program called pacman on the search path decides for the
    Arch executor, whatever [distro.Get] says. *)
Lemma newUpdater_pacman_wins (w : World) (s : State) (t : Track) (path : bytes) :
  GOOS w = b "linux" ->
  resolveTrack w = Ok t ->
  LookPath w (trace s) (b "pacman") = Ok path ->
  path <> [] ->
  snd (newUpdater w s) = Returned (Ok (updater.mk t (Some Strategy.ArchLike))).
Proof.
  intros Hos Ht Hp Hne. unfold newUpdater, chooseUpdate. rewrite Ht, Hos.
  change (beq (b "linux") (b "windows")) with false.
  change (beq (b "linux") (b "linux")) with true. cbv iota.
  unfold try, bind, haveExecutable. rewrite Hp, (beq_nil_false _ Hne). reflexivity.
Qed.















(** ** The download *)

Lemma downloadBody_Ok (w : World) urlSrc fileDst res wantHash dlRes s s' :
  downloadBody w urlSrc fileDst res wantHash dlRes s = (s', Returned (Ok tt)) ->
  len (streamed res dlRes) = ContentLength res /\
  sha256_Sum (streamed res dlRes) = wantHash /\
  files s' fileDst = Ok (streamed res dlRes).
Proof.
  unfold downloadBody, streamed.
  set (src := io_LimitReader (Body dlRes) (ContentLength res)).
  destruct (os_Create_err w _ fileDst); [discriminate|].
  destruct (if beq (rData src) [] then None else _); [discriminate|].
  destruct (rErr src); [discriminate|].
  destruct (len (rData src) =? ContentLength res)%Z eqn:En; [|discriminate].
  destruct (file_Close_err w _ fileDst); [discriminate|].
  destruct (beq (sha256_Sum (rData src)) wantHash) eqn:Eh; [|discriminate].
  simpl. intros [= <-]. apply Z.eqb_eq in En. apply beq_eq in Eh.
  repeat split; [exact En | exact Eh|].
  simpl. now rewrite beq_refl.
Qed.

Lemma downloadBody_undisturbed (w : World) urlSrc fileDst res wantHash dlRes s :
  transferUndisturbed w fileDst res dlRes s ->
  snd (downloadBody w urlSrc fileDst res wantHash dlRes s) =
  Returned
    (if negb (len (streamed res dlRes) =? ContentLength res)%Z
     then Err (lengthMismatch (len (streamed res dlRes)) (ContentLength res))
     else if negb (beq (sha256_Sum (streamed res dlRes)) wantHash)
          then Err errHashMismatch
          else Ok tt).
Proof.
  intros (Hc & Hw & Hr & Hcl). unfold downloadBody, streamed in *.
  set (src := io_LimitReader (Body dlRes) (ContentLength res)) in *.
  simpl trace. rewrite Hc, Hw, Hr, Hcl.
  destruct (beq (rData src) []);
    destruct (negb (len (rData src) =? ContentLength res)%Z);
    destruct (negb (beq (sha256_Sum (rData src)) wantHash)); reflexivity.
Qed.

Lemma downloadBody_Err_or_Ok (w : World) urlSrc fileDst res wantHash dlRes s :
  (exists e, snd (downloadBody w urlSrc fileDst res wantHash dlRes s) = Returned (Err e)) \/
  snd (downloadBody w urlSrc fileDst res wantHash dlRes s) = Returned (Ok tt).
Proof.
  unfold downloadBody.
  set (src := io_LimitReader (Body dlRes) (ContentLength res)).
  destruct (os_Create_err w _ fileDst); [left; eexists; reflexivity|].
  destruct (if beq (rData src) [] then None else _); [left; eexists; reflexivity|].
  destruct (rErr src); [left; eexists; reflexivity|].
  destruct (negb (len (rData src) =? ContentLength res)%Z); [left; eexists; reflexivity|].
  destruct (file_Close_err w _ fileDst); [left; eexists; reflexivity|].
  destruct (negb (beq (sha256_Sum (rData src)) wantHash)); [left; eexists; reflexivity|].
  now right.
Qed.

Lemma downloadURLToFile_answered (w : World) urlSrc fileDst s res hashRes dlRes wantHash :
  answered w urlSrc s res hashRes dlRes wantHash ->
  downloadURLToFile w urlSrc fileDst s
  = downloadBody w urlSrc fileDst res wantHash dlRes (after s (downloadRequests urlSrc)).
Proof.
  intros (P1 & P2 & Hhead & Hs & Hl & Hhash & Hr & Hhex & Hdl & Hd).
  cbn [firstn downloadRequests] in Hhash, Hdl.
  unfold downloadURLToFile, try, bind, must_NewRequest, c_Do, fail, ret.
  rewrite P1. cbn [fst snd]. rewrite Hhead. cbv beta iota.
  apply Z.eqb_eq in Hs. apply Z.leb_gt in Hl. rewrite Hs, Hl. cbn [negb].
  rewrite P2. cbn [fst snd trace record]. rewrite Hhash. cbv beta iota.
  unfold io_ReadAll. rewrite Hr, Hhex. cbn [fst snd trace record].
  rewrite <- app_assoc. cbn [app]. rewrite Hdl. cbv beta iota.
  apply Z.eqb_eq in Hd. rewrite Hd. cbn [negb].
  unfold after, record, downloadRequests. cbn [files stdin trace].
  rewrite <- !app_assoc. reflexivity.
Qed.

(** A download either stops before the transfer, without success and
    with the files as they were, or has its three requests answered. *)
Lemma downloadURLToFile_cases (w : World) (urlSrc fileDst : bytes) (s : State) :
  (files (fst (downloadURLToFile w urlSrc fileDst s)) = files s /\
   snd (downloadURLToFile w urlSrc fileDst s) <> Returned (Ok tt)) \/
  exists res hashRes dlRes wantHash, answered w urlSrc s res hashRes dlRes wantHash.
Proof.
  unfold downloadURLToFile, try, bind, must_NewRequest, c_Do, fail, ret.
  destruct (url_Parse_ok w urlSrc) eqn:P1; [|left; split; [reflexivity | discriminate]].
  cbn [fst snd].
  destruct (http_Do w (trace s) (b "HEAD") urlSrc) as [res|e] eqn:Ehead;
    cbv beta iota; [|left; split; [reflexivity | discriminate]].
  destruct (StatusCode res =? 200)%Z eqn:Es; cbn [negb];
    [|left; split; [reflexivity | discriminate]].
  destruct (ContentLength res <=? 0)%Z eqn:El; [left; split; [reflexivity | discriminate]|].
  destruct (url_Parse_ok w (urlSrc ++ b ".sha256")) eqn:P2;
    [|left; split; [reflexivity | discriminate]].
  cbn [fst snd trace record].
  destruct (http_Do w _ (b "GET") (urlSrc ++ b ".sha256")) as [hashRes|e] eqn:Ehash;
    cbv beta iota; [|left; split; [reflexivity | discriminate]].
  unfold io_ReadAll.
  destruct (rErr (io_LimitReader (Body hashRes) 100)) eqn:Er;
    [left; split; [reflexivity | discriminate]|].
  destruct (hex_DecodeString _) as [wantHash|e] eqn:Ehex;
    [|left; split; [reflexivity | discriminate]].
  cbn [fst snd trace record].
  destruct (http_Do w _ (b "GET") urlSrc) as [dlRes|e] eqn:Edl; cbv beta iota;
    [|left; split; [reflexivity | discriminate]].
  destruct (StatusCode dlRes =? 200)%Z eqn:Ed; cbn [negb];
    [|left; split; [reflexivity | discriminate]].
  right. exists res, hashRes, dlRes, wantHash.
  unfold answered. cbn [firstn downloadRequests].
  rewrite <- app_assoc in Edl. cbn [app] in Edl.
  apply Z.eqb_eq in Es, Ed. apply Z.leb_gt in El.
  repeat split; assumption.
Qed.

Lemma checksum_status_unused (w : World) (urlSrc fileDst : bytes) (s : State)
    (code : Z) (status : bytes) :
  downloadURLToFile (withChecksumStatus w urlSrc code status) urlSrc fileDst s
  = downloadURLToFile w urlSrc fileDst s.
Proof.
  pose proof (beq_app_self_false urlSrc (b ".sha256")) as Hne.
  assert (Hbody : forall res wantHash dlRes,
             downloadBody (withChecksumStatus w urlSrc code status) urlSrc fileDst
                          res wantHash dlRes
             = downloadBody w urlSrc fileDst res wantHash dlRes) by reflexivity.
  unfold downloadURLToFile, try, bind, must_NewRequest, c_Do, fail, ret.
  change (url_Parse_ok (withChecksumStatus w urlSrc code status)) with (url_Parse_ok w).
  destruct (url_Parse_ok w urlSrc); [|reflexivity]. cbn [fst snd].
  unfold withChecksumStatus at 1. cbn [http_Do]. rewrite Hne by discriminate.
  destruct (http_Do w (trace s) (b "HEAD") urlSrc) as [res|e]; cbv beta iota; [|reflexivity].
  destruct (negb (StatusCode res =? 200)%Z); [reflexivity|].
  destruct (ContentLength res <=? 0)%Z; [reflexivity|].
  destruct (url_Parse_ok w (urlSrc ++ b ".sha256")); [|reflexivity]. cbn [fst snd].
  unfold withChecksumStatus at 1. cbn [http_Do]. rewrite beq_refl.
  destruct (http_Do w _ (b "GET") (urlSrc ++ b ".sha256")) as [hashRes|e];
    cbv beta iota; [|reflexivity].
  cbn [Body]. unfold io_ReadAll.
  destruct (rErr (io_LimitReader (Body hashRes) 100)); [reflexivity|].
  destruct (hex_DecodeString _) as [wantHash|e]; [|reflexivity].
  cbn [fst snd].
  unfold withChecksumStatus at 1. cbn [http_Do]. rewrite Hne by discriminate.
  destruct (http_Do w _ (b "GET") urlSrc) as [dlRes|e]; cbv beta iota; [|reflexivity].
  destruct (negb (StatusCode dlRes =? 200)%Z); [reflexivity|].
  now rewrite Hbody.
Qed.

(* ================================================================= *)
(** * The claims *)

(** ** C1: rewriting twice *)

(** C1 (as amended).  For either track [t]: when one application of a
    rewriter with target [t] succeeds with output [out], and the scanner
    reads [out] back to its end (no line of it reaches
    [bufio.MaxScanTokenSize]), then the apt rewriter applied to [out] with
    target [t] returns [out] unchanged; so does the rewriting loop of the
    yum variant when, in addition, no line of [out] ends in a carriage
    return. *)
Theorem rewriters_idempotent (t : Track) (was out : bytes) :
  fitsScanner out ->
  (updateDebianAptSourcesListBytes was (trackName t) = Ok out ->
   updateDebianAptSourcesListBytes out (trackName t) = Ok out) /\
  (forall repoFile,
      noTrailingCR out ->
      yumNewContent repoFile was t = Ok out ->
      yumNewContent repoFile out t = Ok out).
Proof.
  intros Hfit. split.
  - apply apt_idempotent. exact Hfit.
  - intros repoFile Hcr. apply yum_idempotent; assumption.
Qed.

Lemma rewriters_idempotent_witness :
  (fitsScanner (ln "deb https://pkgs.tailscale.com/unstable/ tailscale main") /\
   updateDebianAptSourcesListBytes
     (ln "deb https://pkgs.tailscale.com/stable/ tailscale main") (trackName unstable)
   = Ok (ln "deb https://pkgs.tailscale.com/unstable/ tailscale main") /\
   updateDebianAptSourcesListBytes
     (ln "deb https://pkgs.tailscale.com/unstable/ tailscale main") (trackName unstable)
   = Ok (ln "deb https://pkgs.tailscale.com/unstable/ tailscale main")) /\
  (fitsScanner (ln "[tailscale-unstable]" ++ ln "name=Tailscale unstable") /\
   noTrailingCR (ln "[tailscale-unstable]" ++ ln "name=Tailscale unstable") /\
   yumNewContent (b "/etc/yum.repos.d/tailscale.repo")
     (ln "[tailscale-stable]" ++ ln "name=Tailscale stable") unstable
   = Ok (ln "[tailscale-unstable]" ++ ln "name=Tailscale unstable") /\
   yumNewContent (b "/etc/yum.repos.d/tailscale.repo")
     (ln "[tailscale-unstable]" ++ ln "name=Tailscale unstable") unstable
   = Ok (ln "[tailscale-unstable]" ++ ln "name=Tailscale unstable")).
Proof.
  assert (F1 : fitsScanner (ln "deb https://pkgs.tailscale.com/unstable/ tailscale main"))
    by (vm_compute; repeat constructor).
  assert (A1 : updateDebianAptSourcesListBytes
     (ln "deb https://pkgs.tailscale.com/stable/ tailscale main") (trackName unstable)
   = Ok (ln "deb https://pkgs.tailscale.com/unstable/ tailscale main"))
    by (vm_compute; reflexivity).
  assert (F2 : fitsScanner (ln "[tailscale-unstable]" ++ ln "name=Tailscale unstable"))
    by (vm_compute; repeat constructor).
  assert (C2 : noTrailingCR (ln "[tailscale-unstable]" ++ ln "name=Tailscale unstable"))
    by (vm_compute; repeat constructor).
  assert (Y1 : yumNewContent (b "/etc/yum.repos.d/tailscale.repo")
     (ln "[tailscale-stable]" ++ ln "name=Tailscale stable") unstable
   = Ok (ln "[tailscale-unstable]" ++ ln "name=Tailscale unstable"))
    by (vm_compute; reflexivity).
  split.
  - split; [exact F1 | split; [exact A1|]].
    exact (proj1 (rewriters_idempotent unstable _ _ F1) A1).
  - split; [exact F2 | split; [exact C2 | split; [exact Y1|]]].
    exact (proj2 (rewriters_idempotent unstable _ _ F2) _ C2 Y1).
Defined.

(** C1 as the spec states it fails for the yum variant: of a line that ends
    in two carriage returns the scanner drops one at each pass, so the
    second pass over the output of the first changes it again. *)
Lemma yum_second_pass_rewrites_again :
  yumNewContent (b "/etc/yum.repos.d/tailscale.repo") yumTwoCR stable = Ok yumOneCR /\
  yumNewContent (b "/etc/yum.repos.d/tailscale.repo") yumOneCR stable = Ok yumNoCR /\
  yumNoCR <> yumOneCR.
Proof.
  split; [vm_compute; reflexivity|]. split; [vm_compute; reflexivity|].
  intros H. apply beq_eq in H. vm_compute in H. discriminate.
Qed.

(** Why the output has to fit the scanner: rewriting a line of 65535
    bytes to the unstable track makes it two bytes longer, the second pass
    stops in front of it, finds nothing and fails. *)
Lemma apt_long_line_second_pass_fails :
  updateDebianAptSourcesListBytes aptLongLine (trackName unstable) = Ok aptLongLineUnstable /\
  updateDebianAptSourcesListBytes aptLongLineUnstable (trackName unstable)
  = Err unsupportedAptContents.
Proof.
  split; [apply Ok_by_beq|]; vm_compute; reflexivity.
Qed.

(** ** C2: what the apt rewriter rejects *)

(** C2 (as amended).  When the scan finds no occurrence of the URL pattern
    on a non-comment line, or finds more than one occurrence off the wanted
    track and none on it, [updateDebianAptSourcesListBytes] returns the
    "unexpected/unsupported contents" error, and with it no content at all. *)
Theorem apt_rejects_unsupported_contents (was dstTrack : bytes) :
  aptOccurrences was = [] \/
  ((1 < length (aptToChange was dstTrack))%nat /\
   ~ In (trackURL dstTrack) (aptOccurrences was)) ->
  updateDebianAptSourcesListBytes was dstTrack = Err unsupportedAptContents.
Proof.
  intros H. unfold updateDebianAptSourcesListBytes.
  fold (trackURL dstTrack).
  destruct (apt_vars was dstTrack) as [Hc Hn]. cbv zeta in Hc, Hn.
  destruct (aptLoop (trackURL dstTrack) (scanLines was) [] (mkAptVars false 0))
    as [buf v]. simpl in Hc, Hn.
  assert (Hcorrect : hadCorrect v = false).
  { rewrite Hc. apply not_true_is_false. rewrite existsb_beq_In.
    destruct H as [H | [_ H]]; [rewrite H; simpl; tauto | exact H]. }
  assert (Hchanges : (changes v =? 1)%Z = false).
  { apply Z.eqb_neq. rewrite Hn.
    destruct H as [H | [H _]]; [|lia].
    unfold aptToChange. rewrite H. simpl. lia. }
  rewrite Hcorrect, Hchanges. reflexivity.
Qed.

Lemma apt_rejects_unsupported_contents_witness :
  (aptOccurrences (ln "deb https://pkgs.tailscale.com/unstable/ focal main"
                   ++ ln "deb https://pkgs.tailscale.com/unstable/ jammy main") = [] \/
   ((1 < length (aptToChange
                   (ln "deb https://pkgs.tailscale.com/unstable/ focal main"
                    ++ ln "deb https://pkgs.tailscale.com/unstable/ jammy main")
                   (b "stable")))%nat /\
    ~ In (trackURL (b "stable"))
         (aptOccurrences (ln "deb https://pkgs.tailscale.com/unstable/ focal main"
                          ++ ln "deb https://pkgs.tailscale.com/unstable/ jammy main")))) /\
  updateDebianAptSourcesListBytes
    (ln "deb https://pkgs.tailscale.com/unstable/ focal main"
     ++ ln "deb https://pkgs.tailscale.com/unstable/ jammy main") (b "stable")
  = Err unsupportedAptContents.
Proof.
  assert (H : (1 < length (aptToChange
                   (ln "deb https://pkgs.tailscale.com/unstable/ focal main"
                    ++ ln "deb https://pkgs.tailscale.com/unstable/ jammy main")
                   (b "stable")))%nat /\
    ~ In (trackURL (b "stable"))
         (aptOccurrences (ln "deb https://pkgs.tailscale.com/unstable/ focal main"
                          ++ ln "deb https://pkgs.tailscale.com/unstable/ jammy main"))).
  { split; [vm_compute; lia|].
    intros Hin. apply existsb_beq_In in Hin. vm_compute in Hin. discriminate. }
  split; [right; exact H|].
  apply apt_rejects_unsupported_contents. right; exact H.
Defined.

(** C2 as the spec states it fails: a list with two occurrences off the
    wanted track and one on it is returned as it is, without error. *)
Lemma apt_two_to_change_accepted :
  length (aptToChange aptMixed (b "stable")) = 2%nat /\
  updateDebianAptSourcesListBytes aptMixed (b "stable") = Ok aptMixed.
Proof. split; vm_compute; reflexivity. Qed.

(** ** C3: the track a version string stands for *)

(** C3 (as amended).  On a build with 32- or 64-bit [int], a version string
    is well formed exactly when it has at least three dot-separated
    components (a second dot ends the minor one) and [strconv.Atoi] accepts
    the second component; it is then stable when that number is even and
    unstable when it is odd.  "1.44.0" and "1.46.2" are stable, "1.45.3" and
    "1.47.1" unstable, "1" and "abc.def" malformed. *)
Theorem versionIsStable_rule (intSize : Z) :
  intSize = 32%Z \/ intSize = 64%Z ->
  (forall v,
      versionIsStable intSize v =
      match splitDots v with
      | _ :: minorStr :: _ :: _ =>
          match Atoi intSize minorStr with
          | Some minor => (Z.even minor, true)
          | None => (false, false)
          end
      | _ => (false, false)
      end) /\
  versionIsStable intSize (b "1.44.0") = (true, true) /\
  versionIsStable intSize (b "1.46.2") = (true, true) /\
  versionIsStable intSize (b "1.45.3") = (false, true) /\
  versionIsStable intSize (b "1.47.1") = (false, true) /\
  versionIsStable intSize (b "1") = (false, false) /\
  versionIsStable intSize (b "abc.def") = (false, false).
Proof.
  intros H. split; [apply versionIsStable_components|].
  destruct H as [-> | ->]; repeat split; reflexivity.
Qed.

Lemma versionIsStable_rule_witness :
  (64 = 32 \/ 64 = 64)%Z /\
  versionIsStable 64 (b "1.44.0") = (true, true) /\
  versionIsStable 64 (b "1.45.3") = (false, true) /\
  versionIsStable 64 (b "1.2") = (false, false).
Proof.
  assert (H : (64 = 32 \/ 64 = 64)%Z) by (right; reflexivity).
  split; [exact H|].
  destruct (versionIsStable_rule 64 H) as (Hall & H1 & _ & H3 & _).
  split; [exact H1 | split; [exact H3 | rewrite Hall; reflexivity]].
Defined.

(** C3 as the spec states it fails: "1.44" has two dot-separated
    components, the second one numeric and even, and is reported
    malformed. *)
Lemma versionIsStable_two_components_malformed :
  splitDots (b "1.44") = [b "1"; b "44"] /\
  Atoi 64 (b "44") = Some 44%Z /\
  versionIsStable 64 (b "1.44") = (false, false).
Proof. repeat split; reflexivity. Qed.

(** ** C4: the dispatcher on Linux *)

(** C4: the code at the failing input.  On a Debian machine that has a
    program called pacman on its search path, next to apt-get,
    [newUpdater] chooses the Arch executor, not the one for Debian. *)
Theorem newUpdater_debian_with_pacman :
  GOOS debianWithPacman = b "linux" /\
  distro_Get debianWithPacman = Debian /\
  snd (newUpdater debianWithPacman (emptyState []))
  = Returned (Ok (updater.mk stable (Some Strategy.ArchLike))).
Proof.
  split; [reflexivity | split; [reflexivity|]].
  apply (newUpdater_pacman_wins debianWithPacman (emptyState []) stable
           (b "/usr/games/pacman")); [reflexivity | reflexivity | reflexivity | discriminate].
Qed.

(** ** C5: a version and a track in one request *)

(** C5 (as amended).  When the environment does not hand over a package
    ([TS_UPDATE_WIN_MSI] is empty), a request with both a version and a
    track makes [runUpdate] return an error, whatever the two values are,
    and the state is as before: no event took place.  The error is "cannot
    specify both --version and --track", or [flag.ErrHelp] when the command
    line has a positional argument. *)
Theorem runUpdate_rejects_version_and_track (w : World) (args : list bytes) (s : State) :
  Getenv w (b winMSIEnv) = [] ->
  version (updateArgs w) <> [] ->
  track (updateArgs w) <> [] ->
  runUpdate w args s
  = (s, Returned (Err match args with
                      | [] => bothGiven
                      | _ :: _ => ErrHelp
                      end)).
Proof.
  intros Henv Hv Ht. unfold runUpdate.
  rewrite Henv, (beq_nil_false _ Hv), (beq_nil_false _ Ht).
  destruct args; reflexivity.
Qed.

Lemma runUpdate_rejects_version_and_track_witness :
  Getenv worldBothFlags (b winMSIEnv) = [] /\
  version (updateArgs worldBothFlags) <> [] /\
  track (updateArgs worldBothFlags) <> [] /\
  runUpdate worldBothFlags [] (emptyState [])
  = (emptyState [], Returned (Err bothGiven)).
Proof.
  assert (H1 : Getenv worldBothFlags (b winMSIEnv) = []) by reflexivity.
  assert (H2 : version (updateArgs worldBothFlags) <> []) by discriminate.
  assert (H3 : track (updateArgs worldBothFlags) <> []) by discriminate.
  split; [exact H1 | split; [exact H2 | split; [exact H3|]]].
  exact (runUpdate_rejects_version_and_track worldBothFlags [] (emptyState [])
           H1 H2 H3).
Defined.

(** C5 as the spec states it fails: with [TS_UPDATE_WIN_MSI] set, the
    request with both a version and a track is not looked at; [runUpdate]
    runs msiexec on the package and returns its result. *)
Lemma runUpdate_handoff_before_validation :
  version (updateArgs worldBothFlagsHandoff) = b "1.45.3" /\
  track (updateArgs worldBothFlagsHandoff) = b "stable" /\
  snd (runUpdate worldBothFlagsHandoff [] (emptyState [])) = Returned (Ok tt) /\
  trace (fst (runUpdate worldBothFlagsHandoff [] (emptyState [])))
  = [EvExec (mkCmd (b "msiexec.exe")
               [b "/i"; b "tailscale-setup-1.45.3-amd64.msi"; b "/quiet";
                b "/promptrestart"; b "/qn"]
               (b ".") [])].
Proof. repeat split; vm_compute; reflexivity. Qed.

(** ** C6: the checks of the download *)

(** C6.  For every download whose three requests are answered -- the HEAD
    request with the length, the request for <url>.sha256 with the
    checksum, of which the first 100 bytes decode to the digest expected,
    the GET request with the package --: when the number of bytes streamed
    differs from the length declared, or the SHA-256 digest of the bytes
    streamed differs from the digest decoded from the checksum,
    [downloadURLToFile] returns an error; these are "downloaded n; want m"
    and "SHA-256 of downloaded MSI didn't match expected value" (with the
    length right) unless the file or the connection fails first, and
    without such a failure a transfer of the right length and digest
    succeeds.  A download that succeeds had its three requests answered,
    the length is the declared one, the digest of the bytes streamed is the
    one decoded from the checksum, and the file holds the bytes streamed. *)
Theorem download_verification (w : World) (urlSrc fileDst : bytes) (s : State) :
  let r := snd (downloadURLToFile w urlSrc fileDst s) in
  (forall res hashRes dlRes wantHash,
      answered w urlSrc s res hashRes dlRes wantHash ->
      let data := streamed res dlRes in
      (len data <> ContentLength res -> exists e, r = Returned (Err e)) /\
      (sha256_Sum data <> wantHash -> exists e, r = Returned (Err e)) /\
      (transferUndisturbed w fileDst res dlRes (after s (downloadRequests urlSrc)) ->
       (len data <> ContentLength res ->
        r = Returned (Err (lengthMismatch (len data) (ContentLength res)))) /\
       (len data = ContentLength res -> sha256_Sum data <> wantHash ->
        r = Returned (Err errHashMismatch)) /\
       (len data = ContentLength res -> sha256_Sum data = wantHash ->
        r = Returned (Ok tt)))) /\
  (r = Returned (Ok tt) ->
   exists res hashRes dlRes wantHash,
     answered w urlSrc s res hashRes dlRes wantHash /\
     len (streamed res dlRes) = ContentLength res /\
     sha256_Sum (streamed res dlRes) = wantHash /\
     files (fst (downloadURLToFile w urlSrc fileDst s)) fileDst = Ok (streamed res dlRes)).
Proof.
  intros r. split.
  - intros res hashRes dlRes wantHash Hans data.
    unfold r. rewrite (downloadURLToFile_answered _ _ fileDst _ _ _ _ _ Hans).
    set (s1 := after s (downloadRequests urlSrc)).
    set (r1 := snd (downloadBody w urlSrc fileDst res wantHash dlRes s1)).
    assert (Hok : r1 = Returned (Ok tt) ->
                  len data = ContentLength res /\ sha256_Sum data = wantHash).
    { intros Hr. unfold r1 in Hr.
      destruct (downloadBody w urlSrc fileDst res wantHash dlRes s1) as [s' r'] eqn:E.
      simpl in Hr. subst r'. apply downloadBody_Ok in E. tauto. }
    assert (Hcases : (exists e, r1 = Returned (Err e)) \/ r1 = Returned (Ok tt))
      by apply downloadBody_Err_or_Ok.
    split; [|split].
    + intros Hn. destruct Hcases as [H|H]; [exact H | apply Hok in H; tauto].
    + intros Hh. destruct Hcases as [H|H]; [exact H | apply Hok in H; tauto].
    + intros Hu. unfold r1. rewrite (downloadBody_undisturbed _ _ _ _ _ _ _ Hu).
      fold data. split; [|split].
      * intros Hn. apply Z.eqb_neq in Hn. now rewrite Hn.
      * intros Hn Hh. apply Z.eqb_eq in Hn. apply beq_neq in Hh. now rewrite Hn, Hh.
      * intros Hn Hh. apply Z.eqb_eq in Hn. apply beq_eq in Hh. now rewrite Hn, Hh.
  - intros H. unfold r in H.
    destruct (downloadURLToFile_cases w urlSrc fileDst s)
      as [[_ Hno] | (res & hashRes & dlRes & wantHash & Hans)]; [congruence|].
    exists res, hashRes, dlRes, wantHash. split; [exact Hans|].
    rewrite (downloadURLToFile_answered _ _ fileDst _ _ _ _ _ Hans) in H |- *.
    destruct (downloadBody w urlSrc fileDst res wantHash dlRes
                (after s (downloadRequests urlSrc))) as [s' r'] eqn:E.
    simpl in H. subst r'. apply downloadBody_Ok in E. simpl. tauto.
Qed.

Lemma answered_by_example (body : bytes) :
  answered (windowsWorld 200 (b "200 OK") body) msiURL (emptyState [])
           resHead resHash (resBody body) wantABC.
Proof.
  unfold answered. repeat split; reflexivity.
Qed.

Lemma download_verification_witness :
  (* the package arrives whole: the download succeeds *)
  (snd (downloadURLToFile (windowsWorld 200 (b "200 OK") (b "abc")) msiURL
          (b "tailscale-setup-1.46.0-amd64.msi") (emptyState []))
   = Returned (Ok tt) /\
   exists res hashRes dlRes wantHash,
     answered (windowsWorld 200 (b "200 OK") (b "abc")) msiURL (emptyState [])
              res hashRes dlRes wantHash /\
     len (streamed res dlRes) = ContentLength res /\
     sha256_Sum (streamed res dlRes) = wantHash /\
     files (fst (downloadURLToFile (windowsWorld 200 (b "200 OK") (b "abc")) msiURL
                   (b "tailscale-setup-1.46.0-amd64.msi") (emptyState [])))
           (b "tailscale-setup-1.46.0-amd64.msi")
     = Ok (streamed res dlRes)) /\
  (* one byte short *)
  (answered (windowsWorld 200 (b "200 OK") (b "ab")) msiURL (emptyState [])
            resHead resHash (resBody (b "ab")) wantABC /\
   len (streamed resHead (resBody (b "ab"))) <> ContentLength resHead /\
   snd (downloadURLToFile (windowsWorld 200 (b "200 OK") (b "ab")) msiURL
          (b "tailscale-setup-1.46.0-amd64.msi") (emptyState []))
   = Returned (Err (lengthMismatch 2 3))) /\
  (* one byte wrong *)
  (answered (windowsWorld 200 (b "200 OK") (b "abd")) msiURL (emptyState [])
            resHead resHash (resBody (b "abd")) wantABC /\
   len (streamed resHead (resBody (b "abd"))) = ContentLength resHead /\
   sha256_Sum (streamed resHead (resBody (b "abd"))) <> wantABC /\
   snd (downloadURLToFile (windowsWorld 200 (b "200 OK") (b "abd")) msiURL
          (b "tailscale-setup-1.46.0-amd64.msi") (emptyState []))
   = Returned (Err errHashMismatch)).
Proof.
  split; [|split].
  - assert (H : snd (downloadURLToFile (windowsWorld 200 (b "200 OK") (b "abc")) msiURL
                       (b "tailscale-setup-1.46.0-amd64.msi") (emptyState []))
                = Returned (Ok tt)) by (vm_compute; reflexivity).
    split; [exact H|].
    exact (proj2 (download_verification (windowsWorld 200 (b "200 OK") (b "abc")) msiURL
                    (b "tailscale-setup-1.46.0-amd64.msi") (emptyState [])) H).
  - pose proof (answered_by_example (b "ab")) as Ha.
    assert (Hn : len (streamed resHead (resBody (b "ab"))) <> ContentLength resHead)
      by (vm_compute; discriminate).
    split; [exact Ha | split; [exact Hn|]].
    destruct (proj1 (download_verification (windowsWorld 200 (b "200 OK") (b "ab")) msiURL
                       (b "tailscale-setup-1.46.0-amd64.msi") (emptyState []))
                    _ _ _ _ Ha) as (_ & _ & H).
    apply H; [repeat split | exact Hn].
  - pose proof (answered_by_example (b "abd")) as Ha.
    assert (Hn : len (streamed resHead (resBody (b "abd"))) = ContentLength resHead)
      by (vm_compute; reflexivity).
    assert (Hh : sha256_Sum (streamed resHead (resBody (b "abd"))) <> wantABC).
    { intros H. apply beq_eq in H. vm_compute in H. discriminate. }
    split; [exact Ha | split; [exact Hn | split; [exact Hh|]]].
    destruct (proj1 (download_verification (windowsWorld 200 (b "200 OK") (b "abd")) msiURL
                       (b "tailscale-setup-1.46.0-amd64.msi") (emptyState []))
                    _ _ _ _ Ha) as (_ & _ & H).
    apply H; [repeat split | exact Hn | exact Hh].
Defined.

(** ** C7: the status of the checksum response *)

(** C7: the code at the failing input.  The status of the checksum
    response plays no part in [downloadURLToFile]: the test meant for it
    looks at the HEAD response again.  With the checksum served under
    "404 Not Found" the download of the example succeeds. *)
Theorem checksum_status_not_checked :
  (forall (w : World) (urlSrc fileDst : bytes) (s : State) (code : Z) (status : bytes),
      downloadURLToFile (withChecksumStatus w urlSrc code status) urlSrc fileDst s
      = downloadURLToFile w urlSrc fileDst s) /\
  http_Do (windowsWorld 404 (b "404 Not Found") (b "abc")) []
          (b "GET") (msiURL ++ b ".sha256")
  = Ok (mkResponse 404 (b "404 Not Found") 65
          (mkReader (ln "ba7816bf8f01cfea414140de5dae2223b00361a396177a9cb410ff61f20015ad")
                    None)) /\
  snd (downloadURLToFile (windowsWorld 404 (b "404 Not Found") (b "abc")) msiURL
         (b "tailscale-setup-1.46.0-amd64.msi") (emptyState []))
  = Returned (Ok tt).
Proof.
  split; [exact checksum_status_unused|].
  split; vm_compute; reflexivity.
Qed.

(** ** C8: the end-to-end example of the apt list *)

(** C8 (as amended).  With the host the code looks for,
    [pkgs.tailscale.com], the list "deb https://pkgs.tailscale.com/stable/
    tailscale main" rewritten to track unstable is the same line with
    "unstable" in place of "stable" and nothing else changed; rewriting the
    result to unstable again returns it as it is. *)
Theorem apt_end_to_end :
  updateDebianAptSourcesListBytes
    (ln "deb https://pkgs.tailscale.com/stable/ tailscale main") (b "unstable")
  = Ok (ln "deb https://pkgs.tailscale.com/unstable/ tailscale main") /\
  updateDebianAptSourcesListBytes
    (ln "deb https://pkgs.tailscale.com/unstable/ tailscale main") (b "unstable")
  = Ok (ln "deb https://pkgs.tailscale.com/unstable/ tailscale main").
Proof. split; vm_compute; reflexivity. Qed.

(** C8 as the spec states it fails: the body with host [pkgs.example.com]
    has no occurrence of the pattern and is rejected. *)
Lemma apt_end_to_end_other_host :
  updateDebianAptSourcesListBytes
    (ln "deb https://pkgs.example.com/stable/ tailscale main") (b "unstable")
  = Err unsupportedAptContents.
Proof. vm_compute. reflexivity. Qed.

(** ** C9: the operator declines *)




(** ** C10: the name line of the yum repository file *)

(** C10 (as amended).  For a file whose lines are each shorter than 64 KiB:
    when the rewriting loop of [updateYUMRepoTrack] succeeds, its output is
    made of one piece for each line of the file, and the piece for a line
    that begins with "name=" is the fixed line "name=Tailscale <track>",
    whatever followed "name=" before. *)
Theorem yum_name_line_replaced (repoFile was : bytes) (t : Track) (out : bytes) :
  fitsScanner was ->
  yumNewContent repoFile was t = Ok out ->
  exists outs,
    out = concat outs /\
    Forall2 (fun line o =>
               yumLine repoFile t (dropCR line) = Ok o /\
               (HasPrefix line (b "name=") = true ->
                o = b "name=Tailscale " ++ trackName t ++ [nl]))
            (rawLines was) outs.
Proof.
  intros Hfit H. destruct (yumLoop_lines _ _ _ _ Hfit H) as (outs & -> & HF).
  exists outs. split; [reflexivity|]. clear H.
  induction HF as [|line o lines outs' Hl HF IH]; [constructor|].
  constructor; [|exact IH].
  split; [exact Hl|]. intros Hp.
  rewrite <- (HasPrefix_dropCR line (b "name=")) in Hp
    by (apply forallb_notIn; reflexivity).
  rewrite (yumLine_name repoFile t _ Hp) in Hl. now injection Hl.
Qed.

Lemma yum_name_line_replaced_witness :
  fitsScanner (ln "[tailscale-stable]" ++ ln "name=My own mirror (testing)"
               ++ ln "baseurl=https://pkgs.tailscale.com/stable/fedora/$basearch") /\
  yumNewContent (b "/etc/yum.repos.d/tailscale.repo")
    (ln "[tailscale-stable]" ++ ln "name=My own mirror (testing)"
     ++ ln "baseurl=https://pkgs.tailscale.com/stable/fedora/$basearch")
    unstable
  = Ok (ln "[tailscale-unstable]" ++ ln "name=Tailscale unstable"
        ++ ln "baseurl=https://pkgs.tailscale.com/unstable/fedora/$basearch") /\
  exists outs,
    ln "[tailscale-unstable]" ++ ln "name=Tailscale unstable"
    ++ ln "baseurl=https://pkgs.tailscale.com/unstable/fedora/$basearch" = concat outs /\
    Forall2 (fun line o =>
               yumLine (b "/etc/yum.repos.d/tailscale.repo") unstable (dropCR line) = Ok o /\
               (HasPrefix line (b "name=") = true ->
                o = b "name=Tailscale " ++ trackName unstable ++ [nl]))
            (rawLines (ln "[tailscale-stable]" ++ ln "name=My own mirror (testing)"
                       ++ ln "baseurl=https://pkgs.tailscale.com/stable/fedora/$basearch"))
            outs.
Proof.
  assert (F : fitsScanner (ln "[tailscale-stable]" ++ ln "name=My own mirror (testing)"
               ++ ln "baseurl=https://pkgs.tailscale.com/stable/fedora/$basearch"))
    by (vm_compute; repeat constructor).
  assert (H : yumNewContent (b "/etc/yum.repos.d/tailscale.repo")
    (ln "[tailscale-stable]" ++ ln "name=My own mirror (testing)"
     ++ ln "baseurl=https://pkgs.tailscale.com/stable/fedora/$basearch")
    unstable
  = Ok (ln "[tailscale-unstable]" ++ ln "name=Tailscale unstable"
        ++ ln "baseurl=https://pkgs.tailscale.com/unstable/fedora/$basearch"))
    by (vm_compute; reflexivity).
  split; [exact F | split; [exact H|]].
  exact (yum_name_line_replaced _ _ _ _ F H).
Defined.

(** C10 as the spec states it fails: the scanner stops in front of a line
    of 65536 bytes, so the name line that follows it is not replaced but
    lost, in a rewrite that succeeds and is written to the file. *)
Lemma yum_name_line_after_long_line_lost :
  last (rawLines yumLongLine) [] = b "name=My own mirror" /\
  yumNewContent (b yumRepoConfigFile) yumLongLine unstable = Ok (ln "[tailscale-unstable]") /\
  snd (updateYUMRepoTrack (fedoraWorld []) (b yumRepoConfigFile) unstable
         (oneFile yumRepoConfigFile yumLongLine))
  = Returned (Ok true).
Proof.
  split; [vm_compute; reflexivity|]. split; vm_compute; reflexivity.
Qed.

(* ================================================================= *)
(** * Further properties *)

Lemma after_nil s : after s [] = s.
Proof. destruct s. unfold after. simpl. now rewrite app_nil_r. Qed.

Lemma record_after s e : record e s = after s [e].
Proof. reflexivity. Qed.

Lemma after_after s evs evs' : after (after s evs) evs' = after s (evs ++ evs').
Proof. unfold after. simpl. now rewrite app_assoc. Qed.

Lemma haveExecutable_onPath (w : World) (name : string) (s : State) :
  haveExecutable w name s = (after s (probes [name]), Returned (onPath w (trace s) name)).
Proof. reflexivity. Qed.

Lemma linuxProbeOrder_split missing name u later :
  linuxProbeOrder = missing ++ (name, u) :: later ->
  (missing = [] /\ name = "pacman"%string /\ u = Strategy.ArchLike) \/
  (missing = [("pacman"%string, Strategy.ArchLike)]
   /\ name = "apt-get"%string /\ u = Strategy.DebLike) \/
  (missing = [("pacman"%string, Strategy.ArchLike); ("apt-get"%string, Strategy.DebLike)]
   /\ name = "dnf"%string /\ u = Strategy.FedoraLike (b "dnf")) \/
  (missing = [("pacman"%string, Strategy.ArchLike); ("apt-get"%string, Strategy.DebLike);
              ("dnf"%string, Strategy.FedoraLike (b "dnf"))]
   /\ name = "yum"%string /\ u = Strategy.FedoraLike (b "yum")).
Proof.
  unfold linuxProbeOrder. intros H.
  destruct missing as [|x1 missing]; [injection H as <- <- _; tauto|].
  injection H as <- H. right.
  destruct missing as [|x2 missing]; [injection H as <- <- _; tauto|].
  injection H as <- H. right.
  destruct missing as [|x3 missing]; [injection H as <- <- _; tauto|].
  injection H as <- H. right.
  destruct missing as [|x4 missing]; [injection H as <- <- _; tauto|].
  injection H as _ H. destruct missing; discriminate H.
Qed.

Ltac probe_with H :=
  unfold bind at 1; rewrite haveExecutable_onPath; cbn [trace after];
  rewrite <- ?app_assoc; cbn [app probes map]; rewrite H.

Lemma chooseUpdate_linux_found (w : World) (s : State)
    (missing : list (string * Strategy.t)) (name : string) (u : Strategy.t)
    (later : list (string * Strategy.t)) :
  GOOS w = b "linux" ->
  linuxProbeOrder = missing ++ (name, u) :: later ->
  allMissing w (trace s) (map fst missing) ->
  onPath w (trace s ++ probes (map fst missing)) name = true ->
  chooseUpdate w s = (after s (probes (map fst missing ++ [name])), Returned (Ok (Some u))).
Proof.
  intros Hos Hsplit Hmiss Hfound. unfold chooseUpdate. rewrite Hos.
  change (beq (b "linux") (b "windows")) with false.
  change (beq (b "linux") (b "linux")) with true. cbv iota.
  destruct (linuxProbeOrder_split _ _ _ _ Hsplit)
    as [(-> & -> & ->) | [(-> & -> & ->) | [(-> & -> & ->) | (-> & -> & ->)]]];
    cbn [map fst probes app allMissing] in Hmiss, Hfound |- *;
    rewrite <- ?app_assoc in Hmiss, Hfound; cbn [app] in Hmiss, Hfound.
  - rewrite app_nil_r in Hfound. probe_with Hfound. reflexivity.
  - destruct Hmiss as (M1 & _). probe_with M1. probe_with Hfound.
    unfold after. cbn. now rewrite <- ?app_assoc.
  - destruct Hmiss as (M1 & M2 & _). rewrite <- ?app_assoc in M2. cbn [app] in M2.
    probe_with M1. probe_with M2. probe_with Hfound.
    unfold after. cbn. now rewrite <- ?app_assoc.
  - destruct Hmiss as (M1 & M2 & M3 & _).
    repeat rewrite <- app_assoc in M3. cbn [app] in M3.
    probe_with M1. probe_with M2. probe_with M3. probe_with Hfound.
    unfold after. cbn. now rewrite <- ?app_assoc.
Qed.

Lemma chooseUpdate_linux_none (w : World) (s : State) :
  GOOS w = b "linux" ->
  allMissing w (trace s) (map fst linuxProbeOrder) ->
  chooseUpdate w s =
  (after s (probes (map fst linuxProbeOrder)),
   Returned (Ok match distro_Get w with
                | Synology => Some Strategy.Synology
                | Debian => Some Strategy.DebLike
                | Arch => Some Strategy.ArchLike
                | otherDistro _ => None
                end)).
Proof.
  intros Hos Hmiss. unfold chooseUpdate. rewrite Hos.
  change (beq (b "linux") (b "windows")) with false.
  change (beq (b "linux") (b "linux")) with true. cbv iota.
  cbn [map fst probes app allMissing linuxProbeOrder] in Hmiss |- *.
  destruct Hmiss as (M1 & M2 & M3 & M4 & _).
  repeat rewrite <- app_assoc in M3. repeat rewrite <- app_assoc in M4.
  cbn [app] in M3, M4.
  probe_with M1. probe_with M2. probe_with M3. probe_with M4.
  unfold after, ret. cbn. now rewrite <- ?app_assoc.
Qed.

Lemma newUpdater_of_choice (w : World) (s s' : State) (t : Track) (c : option Strategy.t) :
  resolveTrack w = Ok t ->
  chooseUpdate w s = (s', Returned (Ok c)) ->
  newUpdater w s =
  (s', Returned match c with
                | Some u => Ok (updater.mk t (Some u))
                | None => Err unsupportedPlatform
                end).
Proof.
  intros Ht Hc. unfold newUpdater. rewrite Ht. unfold try, bind. rewrite Hc.
  destruct c; reflexivity.
Qed.

(** X1.  On Linux, [newUpdater] looks for pacman, apt-get, dnf and yum on the
    search path, in this order, and stops at the first it finds: that one
    decides the executor, whatever the distribution is.  Only when it finds
    none of the four does the distribution decide: Synology, Debian and Arch
    have an executor, any other gets the error "not supported on this
    platform". *)
Theorem newUpdater_linux_dispatch (w : World) (s : State) (t : Track) :
  GOOS w = b "linux" ->
  resolveTrack w = Ok t ->
  (forall missing name u later,
      linuxProbeOrder = missing ++ (name, u) :: later ->
      allMissing w (trace s) (map fst missing) ->
      onPath w (trace s ++ probes (map fst missing)) name = true ->
      newUpdater w s =
      (after s (probes (map fst missing ++ [name])),
       Returned (Ok (updater.mk t (Some u))))) /\
  (allMissing w (trace s) (map fst linuxProbeOrder) ->
   newUpdater w s =
   (after s (probes (map fst linuxProbeOrder)),
    Returned match distro_Get w with
             | Synology => Ok (updater.mk t (Some Strategy.Synology))
             | Debian => Ok (updater.mk t (Some Strategy.DebLike))
             | Arch => Ok (updater.mk t (Some Strategy.ArchLike))
             | otherDistro _ => Err unsupportedPlatform
             end)).
Proof.
  intros Hos Ht. split.
  - intros missing name u later Hsplit Hmiss Hfound.
    apply (newUpdater_of_choice w s _ t (Some u) Ht).
    now apply (chooseUpdate_linux_found w s missing name u later).
  - intros Hmiss.
    rewrite (newUpdater_of_choice w s _ t _ Ht (chooseUpdate_linux_none w s Hos Hmiss)).
    destruct (distro_Get w); reflexivity.
Qed.

Lemma newUpdater_linux_dispatch_witness :
  newUpdater (fedoraWorld []) (emptyState [])
  = (after (emptyState []) (probes ["pacman"; "apt-get"; "dnf"]%string),
     Returned (Ok (updater.mk stable (Some (Strategy.FedoraLike (b "dnf")))))) /\
  newUpdater debianBare (emptyState [])
  = (after (emptyState []) (probes ["pacman"; "apt-get"; "dnf"; "yum"]%string),
     Returned (Ok (updater.mk stable (Some Strategy.DebLike)))).
Proof.
  split.
  - apply (proj1 (newUpdater_linux_dispatch (fedoraWorld []) (emptyState []) stable
                    eq_refl eq_refl)
             [("pacman"%string, Strategy.ArchLike); ("apt-get"%string, Strategy.DebLike)]
             "dnf"%string (Strategy.FedoraLike (b "dnf"))
             [("yum"%string, Strategy.FedoraLike (b "yum"))]);
      [reflexivity | simpl; auto | reflexivity].
  - apply (proj2 (newUpdater_linux_dispatch debianBare (emptyState []) stable
                    eq_refl eq_refl)).
    simpl; auto.
Defined.

(** X2.  [newUpdater] gives up before it looks at the system -- no
    executable is looked for, the state is as before -- when the track asked
    for is neither empty nor "stable" nor "unstable", when no track is given
    and the version asked for is malformed, when the operating system is none
    of Windows, Linux and macOS, and on a Mac that is not the sandboxed build
    without --app-store. *)
Theorem newUpdater_fails_early (w : World) (s : State) :
  (track (updateArgs w) <> [] ->
   track (updateArgs w) <> b "stable" ->
   track (updateArgs w) <> b "unstable" ->
   newUpdater w s = (s, Returned (Err (unknownTrack (track (updateArgs w)))))) /\
  (track (updateArgs w) = [] ->
   version (updateArgs w) <> [] ->
   snd (versionIsStable (intSize w) (version (updateArgs w))) = false ->
   newUpdater w s = (s, Returned (Err (malformedVersion (version (updateArgs w)))))) /\
  (forall t,
      resolveTrack w = Ok t ->
      GOOS w <> b "windows" -> GOOS w <> b "linux" -> GOOS w <> b "darwin" ->
      newUpdater w s = (s, Returned (Err unsupportedPlatform))) /\
  (forall t,
      resolveTrack w = Ok t ->
      GOOS w = b "darwin" ->
      appStore (updateArgs w) = false ->
      version_IsSandboxedMacOS w = false ->
      newUpdater w s = (s, Returned (Err unsupportedMac))).
Proof.
  split; [|split; [|split]].
  - intros H0 H1 H2. unfold newUpdater, resolveTrack.
    apply beq_neq in H0, H1, H2. rewrite H0, H1, H2. reflexivity.
  - intros H0 Hv Hbad. unfold newUpdater, resolveTrack. rewrite H0.
    apply beq_neq in Hv. rewrite Hv.
    change (beq [] (b "stable")) with false. change (beq [] (b "unstable")) with false.
    change (beq [] []) with true. cbv iota. cbn [negb].
    destruct (versionIsStable (intSize w) (version (updateArgs w))) as [isStable ok].
    simpl in Hbad. subst ok. reflexivity.
  - intros t Ht Hw Hl Hd. unfold newUpdater, chooseUpdate. rewrite Ht.
    apply beq_neq in Hw, Hl, Hd. rewrite Hw, Hl, Hd. reflexivity.
  - intros t Ht Hd Ha Hs. unfold newUpdater, chooseUpdate. rewrite Ht, Hd, Ha, Hs.
    reflexivity.
Qed.

Lemma newUpdater_fails_early_witness :
  newUpdater betaWorld (emptyState []) = (emptyState [], Returned (Err (unknownTrack (b "beta")))) /\
  newUpdater badVersionWorld (emptyState [])
  = (emptyState [], Returned (Err (malformedVersion (b "1.x.0")))) /\
  newUpdater freebsdWorld (emptyState []) = (emptyState [], Returned (Err unsupportedPlatform)) /\
  newUpdater macStandaloneWorld (emptyState []) = (emptyState [], Returned (Err unsupportedMac)).
Proof.
  destruct (newUpdater_fails_early betaWorld (emptyState [])) as (H1 & _).
  destruct (newUpdater_fails_early badVersionWorld (emptyState [])) as (_ & H2 & _).
  destruct (newUpdater_fails_early freebsdWorld (emptyState [])) as (_ & _ & H3 & _).
  destruct (newUpdater_fails_early macStandaloneWorld (emptyState [])) as (_ & _ & _ & H4).
  split; [|split; [|split]].
  - apply H1; discriminate.
  - apply H2; [reflexivity | discriminate | reflexivity].
  - apply (H3 stable); [reflexivity | discriminate | discriminate | discriminate].
  - apply (H4 stable); reflexivity.
Defined.

Lemma affirmative_true resp :
  affirmative resp ->
  beq resp (b "y") || beq resp (b "yes") || beq resp (b "sure") = true.
Proof. intros [-> | [-> | ->]]; reflexivity. Qed.

Lemma affirmative_beq resp :
  beq resp (b "y") || beq resp (b "yes") || beq resp (b "sure") = true <-> affirmative resp.
Proof.
  unfold affirmative. rewrite !orb_true_iff, !beq_eq. tauto.
Qed.

Lemma scanWord_line err word : forall pend acc rest,
  (pend <= 1)%nat -> Forall plain word ->
  scanWord (word ++ nl :: rest) err 0 pend acc = (Some (acc ++ word), rest).
Proof.
  induction word as [|c word IH]; intros pend acc rest Hp H.
  - simpl app. cbn [scanWord].
    rewrite (readRune_ascii nl rest err) by (vm_compute; lia).
    change (asciiSpace nl) with true. cbv iota. cbn [scanNewline].
    rewrite (readRune_ascii nl rest err) by (vm_compute; lia).
    change (beq [nl] [nl]) with true. cbv iota. rewrite app_nil_r.
    destruct pend as [|[|pend]]; [reflexivity | reflexivity | lia].
  - inversion H as [|? ? [Hc Hn] Hw]; subst.
    simpl app. cbn [scanWord]. rewrite (readRune_ascii _ _ _ Hc), Hn.
    cbn [Nat.sub]. rewrite IH; [now rewrite <- app_assoc | | exact Hw].
    destruct pend as [|[|pend]]; simpl; lia.
Qed.

(** Of a line with one word in ASCII, or none, and its line feed right
    after, the call takes the line and nothing of what follows. *)
Lemma fmt_Scanln_line (input : Reader) lead word rest :
  rData input = lead ++ word ++ nl :: rest ->
  Forall blank lead -> Forall plain word ->
  fmt_Scanln input = (word, mkReader rest (rErr input)).
Proof.
  intros Hin Hlead Hword. unfold fmt_Scanln. rewrite Hin.
  rewrite (scanSpaces_blank _ _ _ Hlead).
  destruct word as [|c word].
  - simpl app. cbn [scanSpaces].
    rewrite (readRune_ascii nl rest _) by (vm_compute; lia). reflexivity.
  - pose proof Hword as Hword'. inversion Hword as [|? ? Hc Hw]; subst.
    simpl app. rewrite (scanSpaces_plain _ _ _ Hc).
    change (c :: word ++ nl :: rest) with ((c :: word) ++ nl :: rest).
    rewrite (scanWord_line _ _ 1 [] rest (le_n 1) Hword'). reflexivity.
Qed.

(** X3.  With --yes, [confirm] returns nil and reads nothing: the state is
    as before.  Without it, [confirm] calls [fmt.Scanln] once and touches
    no file; it returns nil when the lower-case form of the word stored is
    "y", "yes" or "sure", and [errUserAborted] otherwise; and of a line
    with one word in ASCII, or none, and the line feed right after it, it
    takes the line and leaves what follows for the next read. *)
Theorem confirm_reads_one_answer (w : World) (ver : bytes) (s : State) :
  (yes (updateArgs w) = true -> confirm w ver s = (s, Returned (Ok tt))) /\
  (yes (updateArgs w) = false ->
   files (fst (confirm w ver s)) = files s /\
   trace (fst (confirm w ver s)) = trace s ++ [EvScanln] /\
   (affirmative (ToLower w (nextResponse s)) ->
    snd (confirm w ver s) = Returned (Ok tt)) /\
   (~ affirmative (ToLower w (nextResponse s)) ->
    snd (confirm w ver s) = Returned (Err errUserAborted)) /\
   (forall lead word rest,
       rData (stdin s) = lead ++ word ++ nl :: rest ->
       Forall blank lead -> Forall plain word ->
       nextResponse s = word /\
       stdin (fst (confirm w ver s)) = mkReader rest (rErr (stdin s)))).
Proof.
  split; intros Hyes; unfold confirm; rewrite Hyes; [reflexivity|].
  unfold bind, Scanln, nextResponse.
  destruct (fmt_Scanln (stdin s)) as [resp left] eqn:E. cbn [fst snd]. cbv zeta.
  destruct (beq (ToLower w resp) (b "y") || beq (ToLower w resp) (b "yes")
            || beq (ToLower w resp) (b "sure")) eqn:B.
  - apply affirmative_beq in B.
    split; [reflexivity | split; [reflexivity | split; [reflexivity | split; [tauto|]]]].
    intros lead word rest Hin Hlead Hword.
    rewrite (fmt_Scanln_line _ _ _ _ Hin Hlead Hword) in E. now inversion E.
  - assert (N : ~ affirmative (ToLower w resp))
      by (intros H; apply affirmative_beq in H; congruence).
    split; [reflexivity | split; [reflexivity | split; [tauto | split; [reflexivity|]]]].
    intros lead word rest Hin Hlead Hword.
    rewrite (fmt_Scanln_line _ _ _ _ Hin Hlead Hword) in E. now inversion E.
Qed.

Lemma confirm_reads_one_answer_witness :
  confirm (windowsWorld 200 (b "200 OK") (b "abc")) (b "1.46.0") (emptyState [])
  = (emptyState [], Returned (Ok tt)) /\
  snd (confirm windowsPromptWorld (b "1.46.0") (emptyState (ln "YES" ++ ln "no")))
  = Returned (Ok tt) /\
  snd (confirm windowsPromptWorld (b "1.46.0") (emptyState (ln "no" ++ ln "YES")))
  = Returned (Err errUserAborted) /\
  stdin (fst (confirm windowsPromptWorld (b "1.46.0") (emptyState (ln "YES" ++ ln "no"))))
  = mkReader (ln "no") None.
Proof.
  destruct (confirm_reads_one_answer (windowsWorld 200 (b "200 OK") (b "abc")) (b "1.46.0")
              (emptyState [])) as [H1 _].
  destruct (confirm_reads_one_answer windowsPromptWorld (b "1.46.0")
              (emptyState (ln "YES" ++ ln "no"))) as [_ H2].
  destruct (confirm_reads_one_answer windowsPromptWorld (b "1.46.0")
              (emptyState (ln "no" ++ ln "YES"))) as [_ H3].
  destruct (H2 eq_refl) as (_ & _ & Y & _ & L).
  destruct (H3 eq_refl) as (_ & _ & _ & N & _).
  split; [apply H1; reflexivity | split; [|split]].
  - apply Y. right. left. reflexivity.
  - apply N. intros [H|[H|H]]; vm_compute in H; discriminate H.
  - apply (L [] (b "YES") (ln "no")); [reflexivity | constructor|].
    repeat constructor; vm_compute; lia.
Defined.

(** ** Runs that only ask *)














Section DryRun.

Variable w : World.
Hypothesis Hdry : dryRun (updateArgs w) = true.




End DryRun.




(** ** The apt list, there and back *)

Lemma beq_sym x y : beq x y = beq y x.
Proof.
  destruct (beq x y) eqn:E.
  - apply beq_eq in E. subst. symmetry. apply beq_refl.
  - symmetry. apply beq_neq. apply beq_neq in E. congruence.
Qed.

Lemma dropCR_noCR l : ~ In cr l -> dropCR l = l.
Proof.
  intros H. destruct (dropCR_cases l) as [E|E]; [exact E|].
  exfalso. apply H. rewrite E. apply in_or_app. right. now left.
Qed.

Lemma scanLines_linesOf ls :
  Forall unixLine ls -> fitsScanner (linesOf ls) -> scanLines (linesOf ls) = ls.
Proof.
  intros Hls Hfit. unfold scanLines, fitsScanner, linesOf in *.
  assert (Hnl : Forall (fun l => ~ In nl l) ls)
    by (eapply Forall_impl; [|exact Hls]; now intros l [H _]).
  rewrite (rawLines_concat _ Hnl) in *. rewrite (scanTokens_fit _ Hfit).
  clear Hfit Hnl. induction Hls as [|l ls [_ Hl] _ IH]; [reflexivity|].
  simpl. now rewrite IH, (dropCR_noCR _ Hl).
Qed.

Lemma apt_on_track (was dstTrack : bytes) :
  In (trackURL dstTrack) (aptOccurrences was) ->
  updateDebianAptSourcesListBytes was dstTrack = Ok was.
Proof.
  intros Hin. unfold updateDebianAptSourcesListBytes. fold (trackURL dstTrack).
  destruct (apt_vars was dstTrack) as [Hc _]. cbv zeta in Hc.
  destruct (aptLoop (trackURL dstTrack) (scanLines was) [] (mkAptVars false 0)) as [buf v].
  simpl in Hc. apply existsb_beq_In in Hin. rewrite Hc, Hin. reflexivity.
Qed.

(** Rewriting a text to one track and then back to the track all its
    occurrences were on gives the text again. *)
Lemma aptRewrite_back p1 p2 :
  p1 = stableURL \/ p1 = unstableURL ->
  p2 = stableURL \/ p2 = unstableURL ->
  forall n src before, (length src <= n)%nat ->
    Forall (eq p1) (findAllFrom pkgsURL before 0 src) ->
    aptRewrite p1 before (aptRewrite p2 before src) = src.
Proof.
  intros Hp1 Hp2. induction n as [|n IH]; intros src before Hn Hocc.
  - destruct src; [reflexivity | simpl in Hn; lia].
  - destruct src as [|c rest]; [reflexivity|].
    destruct (pkgsURL before (c :: rest)) as [m|] eqn:E.
    + destruct (pkgsURL_inv _ _ _ E) as (Hm & [r Hr] & Hb).
      rewrite Hr in E, Hocc |- *.
      rewrite (findAllFrom_match _ _ _ E) in Hocc.
      inversion Hocc as [|? ? Hm1 Hocc']; subst m.
      rewrite (aptRewrite_match _ _ _ _ E).
      rewrite (aptRewrite_match _ _ _ _ (pkgsURL_at_track _ _ _ Hp2 Hb)).
      f_equal. apply IH; [|exact Hocc'].
      destruct (URL_head _ Hm) as [m' Em]. rewrite Em in Hr.
      rewrite Hr in Hn. simpl in Hn. rewrite length_app in Hn. lia.
    + rewrite (findAllFrom_nomatch _ _ _ E) in Hocc.
      rewrite (aptRewrite_nomatch _ _ _ _ E).
      rewrite (aptRewrite_nomatch _ _ _ _ (pkgsURL_none_after _ _ _ _ Hp2 E)).
      f_equal. apply IH; [simpl in Hn; lia | exact Hocc].
Qed.

Lemma aptOut_back p1 p2 line :
  p1 = stableURL \/ p1 = unstableURL ->
  p2 = stableURL \/ p2 = unstableURL ->
  Forall (eq p1) (lineOccurrences line) ->
  aptOut p1 (aptOut p2 line) = line.
Proof.
  intros Hp1 Hp2 Hocc. unfold aptOut, lineOccurrences in *.
  destruct (commentLine_Match line) eqn:E; [now rewrite E|].
  destruct (URL_head _ Hp2) as [p2' Ep2].
  rewrite Ep2 at 1. rewrite commentLine_aptRewrite, E.
  apply (aptRewrite_back p1 p2 Hp1 Hp2 (length line)); [lia | exact Hocc].
Qed.

Lemma aptOut_unixLine p line :
  p = stableURL \/ p = unstableURL -> unixLine line -> unixLine (aptOut p line).
Proof.
  intros Hp [Hnl Hcr].
  assert (Hpn : ~ In nl p) by (destruct Hp as [-> | ->]; apply forallb_notIn; reflexivity).
  assert (Hpc : ~ In cr p) by (destruct Hp as [-> | ->]; apply forallb_notIn; reflexivity).
  split; unfold aptOut, aptRewrite; destruct (commentLine_Match line); try assumption;
    intros Hin; apply aptRewrite_In in Hin; tauto.
Qed.

Lemma apt_output (was dstTrack : bytes) :
  let p := trackURL dstTrack in
  let buf := linesOf (map (aptOut p) (scanLines was)) in
  updateDebianAptSourcesListBytes was dstTrack =
  if existsb (fun m => beq m p) (aptOccurrences was)
     || ((Z.of_nat (length (aptToChange was dstTrack)) =? 1)%Z
         && beq (TrimSpace was) (TrimSpace buf))
  then Ok was
  else if negb (Z.of_nat (length (aptToChange was dstTrack)) =? 1)%Z
       then Err unsupportedAptContents
       else Ok buf.
Proof.
  intros p buf. unfold updateDebianAptSourcesListBytes. fold (trackURL dstTrack). fold p.
  destruct (apt_vars was dstTrack) as [Hc Hn]. cbv zeta in Hc, Hn. fold p in Hc, Hn.
  pose proof (aptLoop_fst p (scanLines was) [] (mkAptVars false 0)) as Hbuf.
  destruct (aptLoop p (scanLines was) [] (mkAptVars false 0)) as [buf' v].
  simpl in Hc, Hn, Hbuf. rewrite Hc, Hn, Hbuf.
  unfold buf, linesOf. rewrite map_map. reflexivity.
Qed.

(** X5.  Switching the track of an apt list and switching back restores it:
    for a list with Unix line endings that names track [t1], if rewriting it
    to [t2] gives [out], then rewriting [out] to [t1] gives the list again,
    byte for byte (both texts short enough in every line for the scanner). *)
Theorem apt_there_and_back (t1 t2 : Track) (ls : list bytes) (out : bytes) :
  Forall unixLine ls ->
  fitsScanner (linesOf ls) ->
  fitsScanner out ->
  In (trackURL (trackName t1)) (aptOccurrences (linesOf ls)) ->
  updateDebianAptSourcesListBytes (linesOf ls) (trackName t2) = Ok out ->
  updateDebianAptSourcesListBytes out (trackName t1) = Ok (linesOf ls).
Proof.
  intros Hls Hfit Hfit2 Hin H.
  set (was := linesOf ls) in *.
  set (p1 := trackURL (trackName t1)) in *. set (p2 := trackURL (trackName t2)).
  assert (Hp1 : p1 = stableURL \/ p1 = unstableURL) by apply trackURL_cases.
  assert (Hp2 : p2 = stableURL \/ p2 = unstableURL) by apply trackURL_cases.
  pose proof (scanLines_linesOf ls Hls Hfit) as Hscan. fold was in Hscan.
  rewrite apt_output in H. cbv zeta in H. fold p2 in H. rewrite Hscan in H.
  set (buf := linesOf (map (aptOut p2) ls)) in *.
  destruct (existsb (fun m => beq m p2) (aptOccurrences was)) eqn:Ec; cbn [orb] in H.
  { injection H as <-. now apply apt_on_track. }
  destruct (Z.of_nat (length (aptToChange was (trackName t2))) =? 1)%Z eqn:En;
    cbn [andb negb] in H; [|discriminate].
  destruct (beq (TrimSpace was) (TrimSpace buf)) eqn:Et.
  { injection H as <-. now apply apt_on_track. }
  injection H as <-.
  (* the list has one occurrence, and it is on [t1] *)
  assert (Hocc : aptOccurrences was = [p1]).
  { apply Z.eqb_eq in En. unfold aptToChange in En. fold p2 in En.
    assert (Hall : filter (fun m => negb (beq m p2)) (aptOccurrences was)
                   = aptOccurrences was).
    { apply not_true_iff_false in Ec. rewrite existsb_beq_In in Ec.
      clear - Ec. induction (aptOccurrences was) as [|m occ IH]; [reflexivity|].
      simpl. destruct (beq m p2) eqn:E.
      - apply beq_eq in E. subst. exfalso. apply Ec. now left.
      - simpl. f_equal. apply IH. intros Hx. apply Ec. now right. }
    rewrite Hall in En. destruct (aptOccurrences was) as [|m [|m' occ]];
      simpl in En; try lia.
    destruct Hin as [->|[]]. reflexivity. }
  assert (Hne : p1 <> p2).
  { intros E. apply not_true_iff_false in Ec. apply Ec. apply existsb_beq_In.
    rewrite Hocc, E. now left. }
  (* what the scanner reads back from the rewritten list *)
  assert (Hls2 : Forall unixLine (map (aptOut p2) ls)).
  { rewrite Forall_map. eapply Forall_impl; [|exact Hls].
    intros l Hl. now apply aptOut_unixLine. }
  pose proof (scanLines_linesOf _ Hls2 Hfit2) as Hscan2. fold buf in Hscan2.
  assert (Hocc2 : aptOccurrences buf = [p2]).
  { unfold buf, linesOf. rewrite map_map.
    rewrite (aptOccurrences_rewritten p2 ls Hp2).
    - unfold aptOccurrences in Hocc. rewrite Hscan in Hocc. now rewrite Hocc.
    - eapply Forall_impl; [|exact Hls]. now intros l [Hl _].
    - unfold buf, linesOf in Hfit2. now rewrite map_map in Hfit2. }
  rewrite apt_output. cbv zeta. fold p1. rewrite Hscan2, Hocc2.
  unfold aptToChange. fold p1. rewrite Hocc2.
  assert (E21 : beq p2 p1 = false) by (apply beq_neq; congruence).
  cbn [existsb filter length orb]. rewrite E21. cbn [negb length orb andb Z.of_nat].
  (* the lines come back as they were *)
  assert (Hback : linesOf (map (aptOut p1) (map (aptOut p2) ls)) = was).
  { unfold was, linesOf. f_equal. rewrite !map_map.
    unfold aptOccurrences in Hocc. rewrite Hscan in Hocc.
    clear - Hocc Hp1 Hp2. revert Hocc.
    assert (G : forall occ, flat_map lineOccurrences ls = occ -> Forall (eq p1) occ ->
                map (fun x => aptOut p1 (aptOut p2 x) ++ [nl]) ls
                = map (fun l => l ++ [nl]) ls).
    { induction ls as [|l ls IH]; intros occ Hocc Hall; [reflexivity|].
      simpl in Hocc. subst occ. apply Forall_app in Hall. destruct Hall as [Hl Hrest].
      simpl. rewrite (aptOut_back p1 p2 l Hp1 Hp2 Hl). f_equal.
      now apply (IH _ eq_refl). }
    intros Hocc. apply (G _ Hocc). repeat constructor. }
  rewrite Hback, beq_sym, Et. reflexivity.
Qed.

Lemma unixLine_by_forallb l :
  forallb (fun x => negb (Ascii.eqb x nl)) l = true ->
  forallb (fun x => negb (Ascii.eqb x cr)) l = true ->
  unixLine l.
Proof. intros H1 H2. split; now apply forallb_notIn. Qed.

Lemma fitsScanner_by_forallb data :
  forallb (fun l => (len l <? MaxScanTokenSize)%Z) (rawLines data) = true ->
  fitsScanner data.
Proof.
  intros H. unfold fitsScanner. apply Forall_forall. intros l Hl.
  rewrite forallb_forall in H. apply Z.ltb_lt. now apply H.
Qed.

Lemma apt_there_and_back_witness :
  updateDebianAptSourcesListBytes (linesOf aptStableLines) (trackName unstable)
  = Ok (linesOf aptUnstableLines) /\
  updateDebianAptSourcesListBytes (linesOf aptUnstableLines) (trackName stable)
  = Ok (linesOf aptStableLines).
Proof.
  assert (H : updateDebianAptSourcesListBytes (linesOf aptStableLines) (trackName unstable)
              = Ok (linesOf aptUnstableLines)) by (vm_compute; reflexivity).
  split; [exact H|].
  apply (apt_there_and_back stable unstable aptStableLines (linesOf aptUnstableLines)).
  - repeat constructor; apply unixLine_by_forallb; reflexivity.
  - apply fitsScanner_by_forallb. vm_compute. reflexivity.
  - apply fitsScanner_by_forallb. vm_compute. reflexivity.
  - apply existsb_beq_In. vm_compute. reflexivity.
  - exact H.
Defined.

(** X6.  An apt list that names the wanted track on some line that is not
    a comment (and that the scanner comes to: no line of 64 KiB or more
    before it) is left alone, whatever else it holds:
    [updateDebianAptSourcesList] reads the file, reports that it rewrote
    nothing, and writes nothing. *)
Theorem apt_list_on_track_left_alone (w : World) (dstTrack was : bytes) (s : State) :
  files s (b aptSourcesFile) = Ok was ->
  In (trackURL dstTrack) (aptOccurrences was) ->
  updateDebianAptSourcesList w dstTrack s
  = (after s [EvReadFile (b aptSourcesFile)], Returned (Ok false)).
Proof.
  intros Hfile Hin. unfold updateDebianAptSourcesList, try, bind, os_ReadFile.
  rewrite Hfile, (apt_on_track _ _ Hin), beq_refl. reflexivity.
Qed.

Lemma apt_list_on_track_left_alone_witness :
  In (trackURL (b "stable")) (aptOccurrences aptMixed) /\
  updateDebianAptSourcesList debianBare (b "stable") (oneFile aptSourcesFile aptMixed)
  = (after (oneFile aptSourcesFile aptMixed) [EvReadFile (b aptSourcesFile)],
     Returned (Ok false)).
Proof.
  assert (H : In (trackURL (b "stable")) (aptOccurrences aptMixed))
    by (apply existsb_beq_In; vm_compute; reflexivity).
  split; [exact H|].
  apply (apt_list_on_track_left_alone debianBare (b "stable") aptMixed);
    [reflexivity | exact H].
Defined.

(** ** The yum repository file, one track after another *)

Lemma urlRe_ReplaceAllString_twice t1 t2 line :
  urlRe_ReplaceAllString (urlRe_ReplaceAllString line t1) t2 = urlRe_ReplaceAllString line t2.
Proof.
  unfold urlRe_ReplaceAllString at 2 3.
  destruct (urlRe_match line) as [[g rest]|] eqn:E.
  - destruct (urlRe_try_inv _ _ _ _ E) as (tr & Hin & _).
    unfold urlRe_ReplaceAllString. now rewrite (urlRe_match_rewritten g tr t1 rest Hin).
  - unfold urlRe_ReplaceAllString. now rewrite E.
Qed.

(** What the loop writes for a line is a line for which it writes, for
    any track, what it writes for the line it came from. *)
Lemma yumLine_then repoFile t1 t2 line o :
  ~ In nl line ->
  yumLine repoFile t1 line = Ok o ->
  exists o', o = o' ++ [nl] /\ ~ In nl o' /\
             yumLine repoFile t2 o' = yumLine repoFile t2 line.
Proof.
  intros Hnl H. unfold yumLine in H.
  destruct ((0 <? len line)%Z && HasPrefix line (b "[")) eqn:C1.
  { destruct (negb (HasPrefix line (b "[tailscale-"))) eqn:C2; [discriminate|].
    injection H as <-. exists (b "[tailscale-" ++ trackName t1 ++ b "]").
    split; [now rewrite <- !app_assoc|].
    split; [destruct t1; apply forallb_notIn; reflexivity|].
    unfold yumLine at 2. rewrite C1, C2. destruct t1, t2; reflexivity. }
  destruct (HasPrefix line (b "name=")) eqn:C3.
  { injection H as <-. exists (b "name=Tailscale " ++ trackName t1).
    split; [reflexivity|].
    split; [destruct t1; apply forallb_notIn; reflexivity|].
    unfold yumLine at 2. rewrite C1, C3. destruct t1, t2; reflexivity. }
  destruct (HasPrefix line (b "baseurl=") || HasPrefix line (b "gpgkey=")) eqn:E.
  { injection H as <-. exists (urlRe_ReplaceAllString line t1).
    destruct (urlRe_ReplaceAllString_idempotent t1 line Hnl E) as (H1 & H2 & H3 & H4 & _).
    split; [reflexivity|]. split; [exact H1|].
    unfold yumLine. rewrite C1, C3, E, H2, H3, H4, urlRe_ReplaceAllString_twice.
    reflexivity. }
  injection H as <-. exists line. auto.
Qed.

Lemma yumLoop_same repoFile t tokens tokens' :
  Forall2 (fun line line' => yumLine repoFile t line' = yumLine repoFile t line)
          tokens tokens' ->
  forall acc, yumLoop repoFile t tokens' acc = yumLoop repoFile t tokens acc.
Proof.
  induction 1 as [|line line' tokens tokens' Hl _ IH]; intros acc; [reflexivity|].
  simpl. rewrite Hl. destruct (yumLine repoFile t line); [apply IH | reflexivity].
Qed.

(** X7.  A yum repository file rewritten to one track and then to a second
    is what rewriting it to the second track at once gives (the text in
    between read back by the scanner line for line: every line short enough
    and none ending in a carriage return). *)
Theorem yum_rewrites_compose (repoFile : bytes) (t1 t2 : Track) (was out : bytes) :
  fitsScanner out -> noTrailingCR out ->
  yumNewContent repoFile was t1 = Ok out ->
  yumNewContent repoFile out t2 = yumNewContent repoFile was t2.
Proof.
  intros Hfit Hcr H. unfold yumNewContent in *.
  apply yumLoop_outs in H. destruct H as (outs & HF & ->). simpl in *.
  assert (Hlines : exists ls,
             outs = map (fun l => l ++ [nl]) ls /\
             Forall (fun l => ~ In nl l) ls /\
             Forall2 (fun line line' =>
                        yumLine repoFile t2 line' = yumLine repoFile t2 line)
                     (scanLines was) ls).
  { pose proof (scanLines_no_nl was) as Hnl. clear Hfit Hcr.
    induction HF as [|line o tokens outs' Hl HF IH].
    - exists []. repeat split; constructor.
    - inversion Hnl as [|? ? Hnl1 Hnl2]; subst.
      destruct (IH Hnl2) as (ls & -> & Hls & HF2).
      destruct (yumLine_then _ _ t2 _ _ Hnl1 Hl) as (o' & -> & Ho' & Hy).
      exists (o' :: ls). repeat split; constructor; assumption. }
  destruct Hlines as (ls & -> & Hls & HF2).
  unfold fitsScanner, noTrailingCR in *. unfold scanLines at 1.
  rewrite (rawLines_concat _ Hls) in *.
  rewrite (scanTokens_fit _ Hfit).
  replace (map dropCR ls) with ls.
  - apply (yumLoop_same _ _ _ _ HF2).
  - clear - Hcr. induction Hcr as [|l ls Hl _ IH]; simpl; congruence.
Qed.

Lemma noTrailingCR_by_forallb data :
  forallb (fun l => beq (dropCR l) l) (rawLines data) = true -> noTrailingCR data.
Proof.
  intros H. unfold noTrailingCR. apply Forall_forall. intros l Hl.
  rewrite forallb_forall in H. apply beq_eq. now apply H.
Qed.

Lemma yum_rewrites_compose_witness :
  yumNewContent (b yumRepoConfigFile) yumStable unstable = Ok yumUnstable /\
  yumNewContent (b yumRepoConfigFile) yumUnstable stable = Ok yumStable.
Proof.
  assert (H : yumNewContent (b yumRepoConfigFile) yumStable unstable = Ok yumUnstable)
    by (vm_compute; reflexivity).
  split; [exact H|].
  rewrite (yum_rewrites_compose (b yumRepoConfigFile) unstable stable yumStable yumUnstable).
  - vm_compute. reflexivity.
  - apply fitsScanner_by_forallb. vm_compute. reflexivity.
  - apply noTrailingCR_by_forallb. vm_compute. reflexivity.
  - exact H.
Defined.

(** ** A repository file that is not Tailscale's *)

Lemma yumLine_foreign repoFile t line :
  foreignSection line -> yumLine repoFile t line = Err (unexpectedSection repoFile line).
Proof.
  intros [H1 H2]. unfold yumLine. rewrite H1, H2.
  destruct line as [|c line]; [discriminate H1|].
  replace (0 <? len (c :: line))%Z with true; [reflexivity|].
  symmetry. apply Z.ltb_lt. unfold len. simpl length. lia.
Qed.

Lemma yumLine_Err repoFile t line e :
  yumLine repoFile t line = Err e -> foreignSection line /\ e = unexpectedSection repoFile line.
Proof.
  unfold yumLine.
  destruct ((0 <? len line)%Z && HasPrefix line (b "[")) eqn:C1.
  - destruct (HasPrefix line (b "[tailscale-")) eqn:C2; cbn [negb]; [discriminate|].
    intros [= <-]. apply andb_true_iff in C1. now repeat split.
  - destruct (HasPrefix line (b "name=")); [discriminate|].
    destruct (HasPrefix line (b "baseurl=") || HasPrefix line (b "gpgkey="));
      discriminate.
Qed.

Lemma yumLoop_Err repoFile t tokens : forall acc,
  (exists e, yumLoop repoFile t tokens acc = Err e) <-> Exists foreignSection tokens.
Proof.
  induction tokens as [|line tokens IH]; intros acc; simpl.
  - split; [intros [e H]; discriminate | intros H; inversion H].
  - destruct (yumLine repoFile t line) as [o|e] eqn:E.
    + rewrite IH. split; [intros H; now right|].
      intros H. inversion H as [? ? Hf|? ? Hf]; subst; [|exact Hf].
      rewrite (yumLine_foreign _ _ _ Hf) in E. discriminate.
    + apply yumLine_Err in E. split; [intros _; now left; tauto | intros _; now exists e].
Qed.

Lemma yumLoop_Err_line repoFile t tokens : forall acc e,
  yumLoop repoFile t tokens acc = Err e ->
  exists line, In line tokens /\ foreignSection line /\ e = unexpectedSection repoFile line.
Proof.
  induction tokens as [|line tokens IH]; intros acc e; simpl; [discriminate|].
  destruct (yumLine repoFile t line) as [o|e'] eqn:E.
  - intros H. destruct (IH _ _ H) as (l & Hin & Hl). exists l. split; [now right | exact Hl].
  - intros [= <-]. apply yumLine_Err in E. exists line. split; [now left | exact E].
Qed.

Lemma foreignSection_dropCR line : foreignSection (dropCR line) <-> foreignSection line.
Proof.
  unfold foreignSection.
  rewrite !HasPrefix_dropCR by (apply forallb_notIn; reflexivity). tauto.
Qed.

Lemma Exists_foreign_scanned was :
  fitsScanner was ->
  (Exists foreignSection (scanLines was) <-> Exists foreignSection (rawLines was)).
Proof.
  intros Hfit. unfold scanLines. rewrite (scanTokens_fit _ Hfit).
  rewrite !Exists_exists. split.
  - intros (l & Hin & Hl). apply in_map_iff in Hin. destruct Hin as (l0 & <- & Hin).
    exists l0. split; [exact Hin | now apply foreignSection_dropCR].
  - intros (l & Hin & Hl). exists (dropCR l).
    split; [now apply in_map | now apply foreignSection_dropCR].
Qed.

(** X8.  A yum repository file is rewritten only if every section in it is
    Tailscale's.  For a file whose lines are each shorter than 64 KiB,
    [updateYUMRepoTrack] returns an error exactly when some line of the
    file begins with "[" but not with "[tailscale-"; the error names such
    a line (without the carriage return at its end, if there is one), and
    the file is read but not written. *)
Theorem yum_foreign_section_refused (w : World) (repoFile was : bytes) (t : Track)
    (s : State) :
  fitsScanner was ->
  files s repoFile = Ok was ->
  ((exists e, yumNewContent repoFile was t = Err e)
   <-> Exists foreignSection (rawLines was)) /\
  (Exists foreignSection (rawLines was) ->
   exists line,
     In line (rawLines was) /\ foreignSection line /\
     updateYUMRepoTrack w repoFile t s
     = (after s [EvReadFile repoFile],
        Returned (Err (unexpectedSection repoFile (dropCR line))))).
Proof.
  intros Hfit Hfile. split.
  - rewrite <- (Exists_foreign_scanned _ Hfit). apply yumLoop_Err.
  - intros Hex. apply (Exists_foreign_scanned _ Hfit) in Hex.
    apply (yumLoop_Err repoFile t _ []) in Hex. destruct Hex as [e He].
    destruct (yumLoop_Err_line _ _ _ _ _ He) as (line & Hin & Hf & ->).
    unfold scanLines in Hin. rewrite (scanTokens_fit _ Hfit) in Hin.
    apply in_map_iff in Hin. destruct Hin as (l0 & <- & Hin).
    exists l0. split; [exact Hin | split; [now apply foreignSection_dropCR|]].
    unfold updateYUMRepoTrack, try, bind, os_ReadFile. rewrite Hfile.
    unfold yumNewContent. rewrite He. reflexivity.
Qed.

Lemma yum_foreign_section_refused_witness :
  fitsScanner yumTwoVendors /\
  Exists foreignSection (rawLines yumTwoVendors) /\
  exists line,
    In line (rawLines yumTwoVendors) /\ foreignSection line /\
    updateYUMRepoTrack (fedoraWorld []) (b yumRepoConfigFile) unstable
      (oneFile yumRepoConfigFile yumTwoVendors)
    = (after (oneFile yumRepoConfigFile yumTwoVendors) [EvReadFile (b yumRepoConfigFile)],
       Returned (Err (unexpectedSection (b yumRepoConfigFile) (dropCR line)))).
Proof.
  assert (F : fitsScanner yumTwoVendors) by (vm_compute; repeat constructor).
  assert (H : Exists foreignSection (rawLines yumTwoVendors)).
  { apply Exists_exists. exists (b "[epel]"). split; [|split; reflexivity].
    vm_compute. tauto. }
  split; [exact F | split; [exact H|]].
  exact (proj2 (yum_foreign_section_refused (fedoraWorld []) (b yumRepoConfigFile)
                  yumTwoVendors unstable (oneFile yumRepoConfigFile yumTwoVendors)
                  F eq_refl) H).
Defined.

(** ** What the two rewriters report *)

Lemma rewrite_file_Ok (w : World) (name : bytes) (compute : bytes -> result bytes)
    (s s' : State) (rewrote : bool) :
  (was <-! os_ReadFile name ;;
   match compute was with
   | Err err => fail err
   | Ok newContent =>
       if beq was newContent then ret (Ok false)
       else os_WriteFile w name newContent ;;! ret (Ok true)
   end) s = (s', Returned (Ok rewrote)) ->
  exists was new, compute was = Ok new /\ rewritten name was new rewrote s s'.
Proof.
  unfold try, bind, os_ReadFile.
  destruct (files s name) as [was|e] eqn:Hfile; [|discriminate].
  destruct (compute was) as [new|e] eqn:Hnew; [|discriminate].
  destruct (beq was new) eqn:E.
  - intros [= <- <-]. exists was, new. split; [exact Hnew|].
    apply beq_eq in E. subst new. unfold rewritten. rewrite beq_refl.
    repeat split; try assumption; reflexivity.
  - unfold os_WriteFile. cbn [trace record].
    destruct (os_WriteFile_err w _ name); [discriminate|].
    intros [= <- <-]. exists was, new. split; [exact Hnew|].
    unfold rewritten. rewrite E. cbn [files record setFile trace negb].
    rewrite beq_refl. repeat split; try assumption.
    + intros other Ho. apply beq_neq in Ho. now rewrite Ho.
    + now rewrite <- app_assoc.
Qed.

(** X9.  The two rewriters report what they did.  When
    [updateYUMRepoTrack] or [updateDebianAptSourcesList] returns without
    error, the file holds the content computed from what was read, no
    other file has changed, and the flag returned is true exactly when that
    content differs from what was read -- only then was the file written. *)
Theorem rewriters_report_what_they_did (w : World) (s s' : State) (rewrote : bool) :
  (forall repoFile dstTrack,
      updateYUMRepoTrack w repoFile dstTrack s = (s', Returned (Ok rewrote)) ->
      exists was new,
        yumNewContent repoFile was dstTrack = Ok new /\
        rewritten repoFile was new rewrote s s') /\
  (forall dstTrack,
      updateDebianAptSourcesList w dstTrack s = (s', Returned (Ok rewrote)) ->
      exists was new,
        updateDebianAptSourcesListBytes was dstTrack = Ok new /\
        rewritten (b aptSourcesFile) was new rewrote s s').
Proof.
  split.
  - intros repoFile dstTrack H.
    apply (rewrite_file_Ok w repoFile (fun was => yumNewContent repoFile was dstTrack)).
    exact H.
  - intros dstTrack H.
    apply (rewrite_file_Ok w (b aptSourcesFile)
             (fun was => updateDebianAptSourcesListBytes was dstTrack)).
    exact H.
Qed.

Lemma rewriters_report_what_they_did_witness :
  (exists was new,
      yumNewContent (b yumRepoConfigFile) was unstable = Ok new /\
      rewritten (b yumRepoConfigFile) was new true (oneFile yumRepoConfigFile yumStable)
        (after (setFile (b yumRepoConfigFile) yumUnstable (oneFile yumRepoConfigFile yumStable))
           [EvReadFile (b yumRepoConfigFile);
            EvWriteFile (b yumRepoConfigFile) yumUnstable])) /\
  (exists was new,
      updateDebianAptSourcesListBytes was (b "stable") = Ok new /\
      rewritten (b aptSourcesFile) was new false (oneFile aptSourcesFile aptMixed)
        (after (oneFile aptSourcesFile aptMixed) [EvReadFile (b aptSourcesFile)])).
Proof.
  split.
  - apply (proj1 (rewriters_report_what_they_did (fedoraWorld [])
                    (oneFile yumRepoConfigFile yumStable) _ true)
             (b yumRepoConfigFile) unstable).
    vm_compute. reflexivity.
  - apply (proj2 (rewriters_report_what_they_did debianBare
                    (oneFile aptSourcesFile aptMixed) _ false) (b "stable")).
    vm_compute. reflexivity.
Defined.

(** ** The package that was handed over *)

(** X10.  [installMSI] runs msiexec on the package; when that fails it
    removes the installed version and tries once more.  It returns nil as
    soon as an installation succeeds; when both fail, what it returns is
    the result of the second removal -- nil if that one succeeded. *)
Theorem installMSI_tries (w : World) (msi : bytes) (s : State) :
  let install := EvExec (msiInstall w msi) in
  let uninstall := EvExec (msiUninstall w) in
  let run evs c := snd (cmd_Run w (trace s ++ evs) c) in
  (run [] (msiInstall w msi) = Ok tt ->
   installMSI w msi s = (after s [install], Returned (Ok tt))) /\
  (forall e1,
      run [] (msiInstall w msi) = Err e1 ->
      run [install; uninstall] (msiInstall w msi) = Ok tt ->
      installMSI w msi s = (after s [install; uninstall; install], Returned (Ok tt))) /\
  (forall e1 e2,
      run [] (msiInstall w msi) = Err e1 ->
      run [install; uninstall] (msiInstall w msi) = Err e2 ->
      installMSI w msi s
      = (after s [install; uninstall; install; uninstall],
         Returned (run [install; uninstall; install] (msiUninstall w)))).
Proof.
  intros install uninstall run. unfold run.
  unfold installMSI. cbn [installMSI_loop].
  fold (msiInstall w msi). fold (msiUninstall w).
  split; [|split].
  - rewrite app_nil_r. intros H. unfold bind at 1, Run at 1. rewrite H. reflexivity.
  - rewrite app_nil_r. intros e1 H1 H2.
    unfold bind at 1, Run at 1. rewrite H1.
    unfold bind at 1, Run at 1. cbn [trace record].
    unfold bind at 1, Run at 1. cbn [trace record].
    rewrite <- app_assoc. cbn [app]. fold install uninstall. rewrite H2.
    unfold after, ret, record. cbn. now rewrite <- !app_assoc.
  - rewrite app_nil_r. intros e1 e2 H1 H2.
    unfold bind at 1, Run at 1. rewrite H1.
    unfold bind at 1, Run at 1. cbn [trace record].
    unfold bind at 1, Run at 1. cbn [trace record].
    rewrite <- app_assoc. cbn [app]. fold install uninstall. rewrite H2.
    unfold bind, Run, after, ret, record. cbn. rewrite <- !app_assoc. reflexivity.
Qed.

Lemma installMSI_tries_witness :
  snd (cmd_Run downgradeRefused [] (msiInstall downgradeRefused (b "tailscale-setup-1.42.0-amd64.msi")))
  = Err (extError "exit status 1603") /\
  installMSI downgradeRefused (b "tailscale-setup-1.42.0-amd64.msi") (emptyState [])
  = (after (emptyState [])
       [EvExec (msiInstall downgradeRefused (b "tailscale-setup-1.42.0-amd64.msi"));
        EvExec (msiUninstall downgradeRefused);
        EvExec (msiInstall downgradeRefused (b "tailscale-setup-1.42.0-amd64.msi"));
        EvExec (msiUninstall downgradeRefused)],
     Returned (Ok tt)).
Proof.
  split; [reflexivity|].
  destruct (installMSI_tries downgradeRefused (b "tailscale-setup-1.42.0-amd64.msi")
              (emptyState [])) as (_ & _ & H).
  exact (H (extError "exit status 1603") (extError "exit status 1603") eq_refl eq_refl).
Defined.

(** ** What pacman says *)

Lemma splitByte_no_sep sep s : Forall (fun l => ~ In sep l) (splitByte sep s).
Proof.
  induction s as [|c s IH]; simpl; [repeat constructor; intros []|].
  destruct (Ascii.eqb c sep) eqn:E.
  - constructor; [intros [] | exact IH].
  - destruct (splitByte sep s) as [|l ls].
    + constructor; [|constructor]. intros [->|[]]. now rewrite Ascii.eqb_refl in E.
    + inversion IH as [|? ? Hl Hls]; subst. constructor; [|exact Hls].
      intros [->|Hin]; [now rewrite Ascii.eqb_refl in E | auto].
Qed.

Lemma Cut_byte (c : ascii) (s : bytes) :
  match Cut s [c] with
  | (before, after, true) => ~ In c before /\ s = before ++ c :: after
  | (before, after, false) => ~ In c s /\ before = s /\ after = []
  end.
Proof.
  induction s as [|d s IH]; simpl; [tauto|].
  destruct (Ascii.eqb d c) eqn:E; simpl.
  - apply Ascii.eqb_eq in E. subst. split; [intros [] | reflexivity].
  - assert (Hd : d <> c) by (intros ->; now rewrite Ascii.eqb_refl in E).
    destruct (Cut s [c]) as [[before after] [|]].
    + destruct IH as [H1 H2]. split; [|now rewrite H2].
      intros [H|H]; [congruence | auto].
    + destruct IH as (H1 & H2 & H3). split; [|auto].
      intros [H|H]; [congruence | auto].
Qed.

Lemma In_trimLeftSpace x : forall n s, (length s <= n)%nat ->
  In x (trimLeftSpace s) -> In x s.
Proof.
  induction n as [|n IH]; intros s Hn H.
  - destruct s; [exact H | simpl in Hn; lia].
  - destruct s as [|c1 s1]; [exact H|]. simpl in H, Hn.
    destruct (asciiSpace c1); [right; apply IH; [lia | exact H]|].
    destruct s1 as [|c2 s2]; [exact H|]. simpl in Hn.
    destruct (isSpace2 c1 c2); [right; right; apply IH; [lia | exact H]|].
    destruct s2 as [|c3 s3]; [exact H|]. simpl in Hn.
    destruct (isSpace3 c1 c2 c3); [|exact H].
    right; right; right. apply IH; [lia | exact H].
Qed.

Lemma In_trimLeftSpaceRev x : forall n s, (length s <= n)%nat ->
  In x (trimLeftSpaceRev s) -> In x s.
Proof.
  induction n as [|n IH]; intros s Hn H.
  - destruct s; [exact H | simpl in Hn; lia].
  - destruct s as [|c1 s1]; [exact H|]. simpl in H, Hn.
    destruct (asciiSpace c1); [right; apply IH; [lia | exact H]|].
    destruct s1 as [|c2 s2]; [exact H|]. simpl in Hn.
    destruct (isSpace2 c2 c1); [right; right; apply IH; [lia | exact H]|].
    destruct s2 as [|c3 s3]; [exact H|]. simpl in Hn.
    destruct (isSpace3 c3 c2 c1); [|exact H].
    right; right; right. apply IH; [lia | exact H].
Qed.

Lemma rev'_rev {A} (l : list A) : rev' l = rev l.
Proof. unfold rev'. symmetry. apply rev_alt. Qed.

Lemma In_TrimSpace x s : In x (TrimSpace s) -> In x s.
Proof.
  unfold TrimSpace. rewrite !rev'_rev. intros H.
  apply in_rev in H. apply (In_trimLeftSpaceRev x _ _ (le_n _)) in H.
  apply in_rev in H. now apply (In_trimLeftSpace x _ _ (le_n _)) in H.
Qed.

Lemma parsePacmanVersion_lines_Ok lines ver :
  parsePacmanVersion_lines lines = Ok ver ->
  exists line after,
    In line lines /\ HasPrefix line (b "Version") = true /\
    (exists before, line = before ++ ":" :: after) /\
    ver <> [] /\ ~ In "-" ver /\ (forall x, In x ver -> In x after).
Proof.
  induction lines as [|line lines IH]; cbn [parsePacmanVersion_lines]; [discriminate|].
  destruct (HasPrefix line (b "Version")) eqn:Hp; cbn [negb].
  2:{ intros H. destruct (IH H) as (l & a & Hin & Hl). exists l, a. split; [now right | exact Hl]. }
  pose proof (Cut_byte ":" line) as Hc. change [":"] with (b ":") in Hc.
  destruct (Cut line (b ":")) as [[before after] [|]]; cbn [negb]; [|discriminate].
  pose proof (Cut_byte "-" (TrimSpace after)) as Hd. change ["-"] with (b "-") in Hd.
  destruct (beq (fst (fst (Cut (TrimSpace after) (b "-")))) []) eqn:E; [discriminate|].
  intros [= <-]. exists line, after. split; [now left|]. split; [exact Hp|].
  split; [exists before; tauto|]. split; [now apply beq_neq in E|].
  destruct (Cut (TrimSpace after) (b "-")) as [[v rel] [|]]; cbn [fst].
  - destruct Hd as [Hv Hs]. split; [exact Hv|].
    intros x Hx. apply In_TrimSpace. rewrite Hs. apply in_or_app. now left.
  - destruct Hd as (Hv & -> & _). split; [exact Hv|]. intros x. apply In_TrimSpace.
Qed.

Lemma parsePacmanVersion_lines_none lines :
  Forall (fun l => HasPrefix l (b "Version") = false) lines ->
  parsePacmanVersion_lines lines = Err pacmanNoVersion.
Proof.
  induction 1 as [|line lines Hl _ IH]; cbn [parsePacmanVersion_lines]; [reflexivity|].
  now rewrite Hl.
Qed.

(** X11.  The version [parsePacmanVersion] returns is never empty, holds
    no hyphen (the Arch patch number is cut off) and no line feed, and was
    read after the colon of a line of the output that begins with
    "Version".  Without such a line the result is the error "could not find
    latest version of tailscale via pacman". *)
Theorem parsePacmanVersion_result (out : bytes) :
  (forall ver,
      parsePacmanVersion out = Ok ver ->
      ver <> [] /\ ~ In "-" ver /\ ~ In nl ver /\
      exists line before after,
        In line (splitByte nl out) /\ HasPrefix line (b "Version") = true /\
        line = before ++ ":" :: after /\ (forall x, In x ver -> In x after)) /\
  (Forall (fun l => HasPrefix l (b "Version") = false) (splitByte nl out) ->
   parsePacmanVersion out = Err pacmanNoVersion).
Proof.
  split; [|apply parsePacmanVersion_lines_none].
  intros ver H. apply parsePacmanVersion_lines_Ok in H.
  destruct H as (line & after & Hin & Hp & [before Hl] & Hne & Hh & Hsub).
  split; [exact Hne|]. split; [exact Hh|]. split.
  - intros Hx. apply Hsub in Hx.
    pose proof (splitByte_no_sep nl out) as Hnl. rewrite Forall_forall in Hnl.
    apply (Hnl line Hin). rewrite Hl. apply in_or_app. right. now right.
  - exists line, before, after. auto.
Qed.

Lemma parsePacmanVersion_result_witness :
  parsePacmanVersion pacmanOutput = Ok (b "1.46.0") /\
  b "1.46.0" <> [] /\ ~ In "-" (b "1.46.0") /\ ~ In nl (b "1.46.0") /\
  parsePacmanVersion (ln "error: package 'tailscale' was not found") = Err pacmanNoVersion.
Proof.
  assert (H : parsePacmanVersion pacmanOutput = Ok (b "1.46.0")) by (vm_compute; reflexivity).
  destruct (proj1 (parsePacmanVersion_result pacmanOutput) _ H) as (H1 & H2 & H3 & _).
  split; [exact H|]. split; [exact H1|]. split; [exact H2|]. split; [exact H3|].
  apply (proj2 (parsePacmanVersion_result (ln "error: package 'tailscale' was not found"))).
  vm_compute. repeat constructor.
Defined.

(** ** What softwareupdate lists *)

Lemma digitsAndDots_all s : Forall digitOrDot (digitsAndDots s).
Proof.
  induction s as [|c s IH]; simpl; [constructor|].
  destruct (isDigit c) eqn:Ed; simpl.
  - constructor; [now left | exact IH].
  - destruct (Ascii.eqb c ".") eqn:E; [|constructor].
    apply Ascii.eqb_eq in E. constructor; [now right | exact IH].
Qed.

Lemma macOSAppStoreListPattern_at_label s label :
  macOSAppStoreListPattern_at s = Some label ->
  exists d more,
    label = b "Tailscale-" ++ d :: more /\ isDigit d = true /\
    more <> [] /\ Forall digitOrDot more.
Proof.
  unfold macOSAppStoreListPattern_at.
  destruct (someSpaces s) as [s1|]; [|discriminate].
  destruct (literally (b "*") s1) as [s2|]; [|discriminate].
  destruct (someSpaces s2) as [s3|]; [|discriminate].
  destruct (literally (b "Label:") s3) as [s4|]; [|discriminate].
  destruct (literally (b "Tailscale-") (dropSpaces s4)) as [s5|]; [|discriminate].
  destruct s5 as [|d s6]; [discriminate|].
  destruct (isDigit d) eqn:Ed; [|discriminate].
  pose proof (digitsAndDots_all s6) as Hall.
  destruct (digitsAndDots s6) as [|c more]; [discriminate|].
  intros [= <-]. exists d, (c :: more). repeat split; [exact Ed | discriminate | exact Hall].
Qed.

Lemma findLabel_label s : forall atLineStart label,
  findLabel atLineStart s = Some label ->
  exists d more,
    label = b "Tailscale-" ++ d :: more /\ isDigit d = true /\
    more <> [] /\ Forall digitOrDot more.
Proof.
  induction s as [|c s IH]; intros atLineStart label; cbn [findLabel].
  - destruct atLineStart; [|discriminate].
    destruct (macOSAppStoreListPattern_at []) eqn:E; [|discriminate].
    intros [= <-]. now apply macOSAppStoreListPattern_at_label in E.
  - destruct atLineStart.
    + destruct (macOSAppStoreListPattern_at (c :: s)) eqn:E.
      * intros [= <-]. now apply macOSAppStoreListPattern_at_label in E.
      * apply IH.
    + apply IH.
Qed.

(** X12.  What [parseSoftwareupdateList] returns is empty or a label of
    Tailscale and nothing else: "Tailscale-", a digit, and one or more
    digits and dots.  The version [updateMacAppStore] takes from it
    therefore has at least two bytes, all digits and dots. *)
Theorem parseSoftwareupdateList_label (stdout : bytes) :
  parseSoftwareupdateList stdout = [] \/
  exists d more,
    parseSoftwareupdateList stdout = b "Tailscale-" ++ d :: more /\
    TrimPrefix (parseSoftwareupdateList stdout) (b "Tailscale-") = d :: more /\
    isDigit d = true /\ more <> [] /\ Forall digitOrDot more.
Proof.
  unfold parseSoftwareupdateList.
  destruct (findLabel true stdout) as [label|] eqn:E; [|now left].
  right. apply findLabel_label in E. destruct E as (d & more & -> & Hd & Hne & Hall).
  exists d, more. repeat split; assumption.
Qed.
